(** * oagf-scraper: pipeline state store, job queue, download runner and
      asynchronous extraction orchestrator

    A shallow embedding of
      - [src/store/sqliteStore.ts]            (the SQLite backed [SqliteStore]),
      - [src/extract/localSqliteQueueAdapter.ts] and [src/extract/asyncMessages.ts],
      - the download runner ([downloadAttempt], the per-item attempt loop of
        [runDownloader], its batch sizing, startup reconciliation and
        [HEAD] revalidation),
      - the asynchronous extraction orchestrator ([createExtractJobId],
        [submitExtractJobs], [collectExtractResults]).

    Conventions of the embedding.
      - A table is the list of its rows in rowid (insertion) order; the
        primary key is an invariant stated where a result depends on it.
      - SQL [NULL] is [None]; TEXT columns are [string]s compared bytewise
        (SQLite's BINARY collation), INTEGER columns and JS integers are [Z].
      - Every reading of the wall clock ([new Date().toISOString()]) is an
        explicit argument.
      - Library code (sha256, [JSON.parse], [JSON.stringify],
        [Number.isInteger] on doubles) is a class parameter. *)

From Stdlib Require Import ZArith List String Ascii Bool Lia Sorted Permutation.
From Stdlib.Strings Require Import Byte.
From stdpp Require Import gmap strings pretty.
Import ListNotations.
Local Open Scope Z_scope.

(* ===================================================================== *)
(** ** The fragment of SQL the store uses *)
(* ===================================================================== *)

Module Sql.

(** [COALESCE(x, y)]. *)
Definition coalesce {A : Type} (x y : option A) : option A :=
  match x with
  | Some _ => x
  | None => y
  end.

(** [LIMIT n]: SQLite treats a negative bound as "no upper bound". *)
Definition limit {A : Type} (n : Z) (rows : list A) : list A :=
  if n <? 0 then rows else firstn (Z.to_nat n) rows.

(** [ORDER BY key ASC] on a TEXT column: bytewise lexicographic order.
    Rows with equal keys keep their scan (rowid) order. *)
Section OrderBy.
Context {A : Type} (key : A -> string).

Fixpoint insert_row (r : A) (sorted : list A) : list A :=
  match sorted with
  | [] => [r]
  | x :: rest =>
      if String.leb (key r) (key x) then r :: sorted
      else x :: insert_row r rest
  end.

Definition order_by (rows : list A) : list A :=
  fold_right insert_row [] rows.

(** [a] sorts no later than [b]. *)
Definition key_le (a b : A) : Prop := String.leb (key a) (key b) = true.
End OrderBy.

(** [s LIKE 'lit%'] for a literal [lit] without wildcard characters.
    SQLite's LIKE ignores the case of ASCII letters (the store never sets
    [PRAGMA case_sensitive_like]). *)
Definition fold_case (c : ascii) : ascii :=
  let n := nat_of_ascii c in
  if (Nat.leb 65 n && Nat.leb n 90)%bool then ascii_of_nat (n + 32) else c.

Fixpoint like_prefix (lit s : string) : bool :=
  match lit with
  | EmptyString => true
  | String p lit' =>
      match s with
      | EmptyString => false
      | String c s' => (Ascii.eqb (fold_case p) (fold_case c) && like_prefix lit' s')%bool
      end
  end.

(** [UPDATE t SET ... WHERE key = k]. *)
Definition update_where {A : Type} (key : A -> string) (k : string)
    (set : A -> A) (rows : list A) : list A :=
  map (fun r => if String.eqb (key r) k then set r else r) rows.

(** [SELECT ... WHERE key = k] through [.get()]: the first matching row. *)
Definition get_where {A : Type} (key : A -> string) (k : string)
    (rows : list A) : option A :=
  find (fun r => String.eqb (key r) k) rows.

End Sql.

(* ===================================================================== *)
(** ** Records exchanged with the store ([src/types], [src/store/types.ts]) *)
(* ===================================================================== *)

Module DocumentDiscoveredItem.
Record t := mk {
  docId : string;
  url : string;
  title : string;
  year : option Z;
  month : option string;
  sourcePageUrl : string;
  discoveredAt : string
}.
End DocumentDiscoveredItem.

Module DownloadResult.
Inductive status_t := downloaded_ok | download_failed | skipped.
Record t := mk {
  docId : string;
  url : string;
  resolvedUrl : option string;
  status : status_t;
  sha256 : option string;
  bytes : option Z;
  contentType : option string;
  rawLocation : option string;
  etag : option string;
  lastModified : option string;
  error : option string;
  attempt : Z;
  downloadedAt : string
}.
End DownloadResult.

Module ExtractionResult.
Inductive status_t := extracted_ok | extracted_failed | skipped.
Record t := mk {
  docId : string;
  status : status_t;
  pageCount : option Z;
  textLocation : option string;
  tablesLocation : option string;
  error : option string;
  attempt : Z;
  extractedAt : string
}.
End ExtractionResult.

Module DownloadWorkItem.
Record t := mk { docId : string; url : string; title : string; attempt : Z }.
End DownloadWorkItem.

Module ExtractWorkItem.
Record t := mk { docId : string; rawLocation : string; attempt : Z }.
End ExtractWorkItem.

Module ExtractJobRecord.
Record t := mk {
  jobId : string;
  runId : string;
  docId : string;
  rawPdfPath : string;
  fileSha256 : option string;
  attempt : Z;
  submittedAt : string
}.
End ExtractJobRecord.

Module ClaimedExtractJob.
Record t := mk {
  jobId : string;
  runId : string;
  docId : string;
  rawPdfPath : string;
  fileSha256 : option string;
  attempt : Z;
  submittedAt : string;
  leaseUntil : string
}.
End ClaimedExtractJob.

Module RevalidationItem.
Record t := mk {
  docId : string;
  url : string;
  etag : option string;
  lastModified : option string;
  lastCheckedAt : option string
}.
End RevalidationItem.

Module RawFileItem.
Record t := mk { docId : string; rawLocation : string }.
End RawFileItem.

Module StoreStats.
Record t := mk {
  totalDocuments : Z;
  discovered : Z;
  downloadedOk : Z;
  downloadedFailed : Z;
  extractedOk : Z;
  extractedFailed : Z
}.
End StoreStats.

(* ===================================================================== *)
(** ** The tables of [SqliteStore] *)
(* ===================================================================== *)

(** Table [documents]. *)
Module Document.
Inductive status_t :=
| discovered | downloaded_ok | download_failed | extracted_ok | extracted_failed.

Definition status_eqb (a b : status_t) : bool :=
  match a, b with
  | discovered, discovered | downloaded_ok, downloaded_ok
  | download_failed, download_failed | extracted_ok, extracted_ok
  | extracted_failed, extracted_failed => true
  | _, _ => false
  end.

Record row := mk {
  docId : string;
  url : string;
  title : string;
  year : option Z;
  month : option string;
  sourcePageUrl : string;
  firstSeenAt : string;
  lastSeenAt : string;
  lastStatus : option status_t;
  sha256 : option string;
  bytes : option Z;
  contentType : option string;
  rawLocation : option string;
  extractedTextLocation : option string;
  extractedTablesLocation : option string;
  error : option string;
  etag : option string;
  lastModified : option string;
  lastCheckedAt : option string;
  lastDownloadAt : option string;
  attemptsDownload : Z;
  attemptsExtract : Z;
  updatedAt : string
}.
End Document.

(** Table [extract_jobs]. *)
Module ExtractJob.
Inductive status_t := queued | leased | completed | failed.

Record row := mk {
  jobId : string;
  runId : string;
  docId : string;
  rawPdfPath : string;
  fileSha256 : option string;
  attempt : Z;
  submittedAt : string;
  status : status_t;
  leaseUntil : option string;
  finishedAt : option string;
  error : option string;
  resultRef : option string
}.
End ExtractJob.

(** Table [runs]. *)
Module Run.
Inductive status_t := running | completed | failed.

Record row := mk {
  runId : string;
  startedAt : string;
  finishedAt : option string;
  status : status_t
}.
End Run.

(* ===================================================================== *)
(** ** [SqliteStore] ([src/store/sqliteStore.ts]) *)
(* ===================================================================== *)

Module SqliteStore.

Record t := mk {
  documents : list Document.row;
  extract_jobs : list ExtractJob.row
}.

Definition with_documents (db : t) (rows : list Document.row) : t :=
  {| documents := rows; extract_jobs := extract_jobs db |}.

Definition with_extract_jobs (db : t) (rows : list ExtractJob.row) : t :=
  {| documents := documents db; extract_jobs := rows |}.

(** JS [a || b] on strings: the empty string is falsy. *)
Definition or_else (a b : string) : string :=
  if String.eqb a "" then b else a.

(** *** upsertDiscovered *)

(** The row of the [VALUES] clause; columns not listed take their
    defaults ([NULL], and 0 for the two attempt counters). *)
Definition discovered_row (now : string) (item : DocumentDiscoveredItem.t)
    : Document.row :=
  {| Document.docId := DocumentDiscoveredItem.docId item;
     Document.url := DocumentDiscoveredItem.url item;
     Document.title := DocumentDiscoveredItem.title item;
     Document.year := DocumentDiscoveredItem.year item;
     Document.month := DocumentDiscoveredItem.month item;
     Document.sourcePageUrl := DocumentDiscoveredItem.sourcePageUrl item;
     Document.firstSeenAt := DocumentDiscoveredItem.discoveredAt item;
     Document.lastSeenAt := or_else (DocumentDiscoveredItem.discoveredAt item) now;
     Document.lastStatus := Some Document.discovered;
     Document.sha256 := None;
     Document.bytes := None;
     Document.contentType := None;
     Document.rawLocation := None;
     Document.extractedTextLocation := None;
     Document.extractedTablesLocation := None;
     Document.error := None;
     Document.etag := None;
     Document.lastModified := None;
     Document.lastCheckedAt := None;
     Document.lastDownloadAt := None;
     Document.attemptsDownload := 0;
     Document.attemptsExtract := 0;
     Document.updatedAt := now |}.

(** The [ON CONFLICT(docId) DO UPDATE SET] clause. *)
Definition refresh_discovered (excluded : Document.row) (d : Document.row)
    : Document.row :=
  {| Document.docId := Document.docId d;
     Document.url := Document.url excluded;
     Document.title := Document.title excluded;
     Document.year := Document.year excluded;
     Document.month := Document.month excluded;
     Document.sourcePageUrl := Document.sourcePageUrl excluded;
     Document.firstSeenAt := Document.firstSeenAt d;
     Document.lastSeenAt := Document.lastSeenAt excluded;
     Document.lastStatus := Document.lastStatus d;
     Document.sha256 := Document.sha256 d;
     Document.bytes := Document.bytes d;
     Document.contentType := Document.contentType d;
     Document.rawLocation := Document.rawLocation d;
     Document.extractedTextLocation := Document.extractedTextLocation d;
     Document.extractedTablesLocation := Document.extractedTablesLocation d;
     Document.error := Document.error d;
     Document.etag := Document.etag d;
     Document.lastModified := Document.lastModified d;
     Document.lastCheckedAt := Document.lastCheckedAt d;
     Document.lastDownloadAt := Document.lastDownloadAt d;
     Document.attemptsDownload := Document.attemptsDownload d;
     Document.attemptsExtract := Document.attemptsExtract d;
     Document.updatedAt := Document.updatedAt excluded |}.

Definition upsertDiscovered (now : string) (item : DocumentDiscoveredItem.t)
    (db : t) : t :=
  let excluded := discovered_row now item in
  match Sql.get_where Document.docId (Document.docId excluded) (documents db) with
  | Some _ =>
      with_documents db
        (Sql.update_where Document.docId (Document.docId excluded)
           (refresh_discovered excluded) (documents db))
  | None => with_documents db (documents db ++ [excluded])
  end.

(** *** listPendingDownloads *)

Definition is_status (s : Document.status_t) (d : Document.row) : bool :=
  match Document.lastStatus d with
  | Some s' => Document.status_eqb s' s
  | None => false
  end.

Definition is_null {A : Type} (x : option A) : bool :=
  match x with
  | None => true
  | Some _ => false
  end.

(** [error IS NULL OR error NOT LIKE 'HTTP 404%']. *)
Definition error_not_404 (d : Document.row) : bool :=
  match Document.error d with
  | None => true
  | Some e => negb (Sql.like_prefix "HTTP 404" e)
  end.

(** The [WHERE] clause of the non-force query. *)
Definition pending_download (maxAttempts : Z) (d : Document.row) : bool :=
  ((is_status Document.discovered d
    || (is_status Document.download_failed d && error_not_404 d)
    || (is_status Document.downloaded_ok d
        && (is_null (Document.rawLocation d) || is_null (Document.sha256 d)))
    || is_null (Document.lastStatus d))
   && (Document.attemptsDownload d <? maxAttempts))%bool.

(** The same clause read as a proposition. *)
Definition eligible_for_download (maxAttempts : Z) (d : Document.row) : Prop :=
  (Document.lastStatus d = None
   \/ Document.lastStatus d = Some Document.discovered
   \/ (Document.lastStatus d = Some Document.download_failed
       /\ (Document.error d = None
           \/ exists e, Document.error d = Some e
                        /\ Sql.like_prefix "HTTP 404" e = false))
   \/ (Document.lastStatus d = Some Document.downloaded_ok
       /\ (Document.rawLocation d = None \/ Document.sha256 d = None)))
  /\ Document.attemptsDownload d < maxAttempts.

Definition download_work_item (d : Document.row) : DownloadWorkItem.t :=
  {| DownloadWorkItem.docId := Document.docId d;
     DownloadWorkItem.url := Document.url d;
     DownloadWorkItem.title := Document.title d;
     DownloadWorkItem.attempt := Document.attemptsDownload d + 1 |}.

(** The rows selected by [listPendingDownloads], before projection. *)
Definition pending_download_rows (lim : Z) (force : bool) (maxAttempts : Z)
    (db : t) : list Document.row :=
  if force then
    Sql.limit lim (Sql.order_by Document.updatedAt (documents db))
  else
    Sql.limit lim
      (Sql.order_by Document.updatedAt
         (List.filter (pending_download maxAttempts) (documents db))).

Definition listPendingDownloads (lim : Z) (force : bool) (maxAttempts : Z)
    (db : t) : list DownloadWorkItem.t :=
  map download_work_item (pending_download_rows lim force maxAttempts db).

(** *** Revalidation and reconciliation marks *)

Definition set_remote_unchanged (checkedAt : string)
    (etag lastModified : option string) (d : Document.row) : Document.row :=
  {| Document.docId := Document.docId d;
     Document.url := Document.url d;
     Document.title := Document.title d;
     Document.year := Document.year d;
     Document.month := Document.month d;
     Document.sourcePageUrl := Document.sourcePageUrl d;
     Document.firstSeenAt := Document.firstSeenAt d;
     Document.lastSeenAt := Document.lastSeenAt d;
     Document.lastStatus := Document.lastStatus d;
     Document.sha256 := Document.sha256 d;
     Document.bytes := Document.bytes d;
     Document.contentType := Document.contentType d;
     Document.rawLocation := Document.rawLocation d;
     Document.extractedTextLocation := Document.extractedTextLocation d;
     Document.extractedTablesLocation := Document.extractedTablesLocation d;
     Document.error := Document.error d;
     Document.etag := Sql.coalesce etag (Document.etag d);
     Document.lastModified := Sql.coalesce lastModified (Document.lastModified d);
     Document.lastCheckedAt := Some checkedAt;
     Document.lastDownloadAt := Document.lastDownloadAt d;
     Document.attemptsDownload := Document.attemptsDownload d;
     Document.attemptsExtract := Document.attemptsExtract d;
     Document.updatedAt := checkedAt |}.

Definition markRemoteUnchanged (docId checkedAt : string)
    (etag lastModified : option string) (db : t) : t :=
  with_documents db
    (Sql.update_where Document.docId docId
       (set_remote_unchanged checkedAt etag lastModified) (documents db)).

Definition set_remote_changed (checkedAt : string)
    (etag lastModified : option string) (d : Document.row) : Document.row :=
  {| Document.docId := Document.docId d;
     Document.url := Document.url d;
     Document.title := Document.title d;
     Document.year := Document.year d;
     Document.month := Document.month d;
     Document.sourcePageUrl := Document.sourcePageUrl d;
     Document.firstSeenAt := Document.firstSeenAt d;
     Document.lastSeenAt := Document.lastSeenAt d;
     Document.lastStatus := Some Document.discovered;
     Document.sha256 := Document.sha256 d;
     Document.bytes := Document.bytes d;
     Document.contentType := Document.contentType d;
     Document.rawLocation := Document.rawLocation d;
     Document.extractedTextLocation := Document.extractedTextLocation d;
     Document.extractedTablesLocation := Document.extractedTablesLocation d;
     Document.error := Some "remote_changed"%string;
     Document.etag := Sql.coalesce etag (Document.etag d);
     Document.lastModified := Sql.coalesce lastModified (Document.lastModified d);
     Document.lastCheckedAt := Some checkedAt;
     Document.lastDownloadAt := Document.lastDownloadAt d;
     Document.attemptsDownload := Document.attemptsDownload d;
     Document.attemptsExtract := Document.attemptsExtract d;
     Document.updatedAt := checkedAt |}.

Definition markRemoteChanged (docId checkedAt : string)
    (etag lastModified : option string) (db : t) : t :=
  with_documents db
    (Sql.update_where Document.docId docId
       (set_remote_changed checkedAt etag lastModified) (documents db)).

Definition set_raw_missing (checkedAt : string) (d : Document.row)
    : Document.row :=
  {| Document.docId := Document.docId d;
     Document.url := Document.url d;
     Document.title := Document.title d;
     Document.year := Document.year d;
     Document.month := Document.month d;
     Document.sourcePageUrl := Document.sourcePageUrl d;
     Document.firstSeenAt := Document.firstSeenAt d;
     Document.lastSeenAt := Document.lastSeenAt d;
     Document.lastStatus := Some Document.discovered;
     Document.sha256 := None;
     Document.bytes := None;
     Document.contentType := None;
     Document.rawLocation := None;
     Document.extractedTextLocation := Document.extractedTextLocation d;
     Document.extractedTablesLocation := Document.extractedTablesLocation d;
     Document.error := Some "missing_local_file"%string;
     Document.etag := Document.etag d;
     Document.lastModified := Document.lastModified d;
     Document.lastCheckedAt := Document.lastCheckedAt d;
     Document.lastDownloadAt := Document.lastDownloadAt d;
     Document.attemptsDownload := Document.attemptsDownload d;
     Document.attemptsExtract := Document.attemptsExtract d;
     Document.updatedAt := checkedAt |}.

Definition markRawMissing (docId checkedAt : string) (db : t) : t :=
  with_documents db
    (Sql.update_where Document.docId docId (set_raw_missing checkedAt)
       (documents db)).

(** *** markDownloadResult *)

(** The bound [@status]: [downloaded_ok] and [skipped] are stored as
    [downloaded_ok], everything else as [download_failed]. *)
Definition stored_download_status (s : DownloadResult.status_t)
    : Document.status_t :=
  match s with
  | DownloadResult.downloaded_ok => Document.downloaded_ok
  | DownloadResult.skipped => Document.downloaded_ok
  | DownloadResult.download_failed => Document.download_failed
  end.

(** [CASE WHEN @attempt > attempts THEN @attempt ELSE attempts + 1 END]. *)
Definition bump_attempts (attempt stored : Z) : Z :=
  if attempt >? stored then attempt else stored + 1.

Definition set_download_result (r : DownloadResult.t) (d : Document.row)
    : Document.row :=
  let status := stored_download_status (DownloadResult.status r) in
  {| Document.docId := Document.docId d;
     Document.url := DownloadResult.url r;
     Document.title := Document.title d;
     Document.year := Document.year d;
     Document.month := Document.month d;
     Document.sourcePageUrl := Document.sourcePageUrl d;
     Document.firstSeenAt := Document.firstSeenAt d;
     Document.lastSeenAt := Document.lastSeenAt d;
     Document.lastStatus := Some status;
     Document.sha256 := Sql.coalesce (DownloadResult.sha256 r) (Document.sha256 d);
     Document.bytes := Sql.coalesce (DownloadResult.bytes r) (Document.bytes d);
     Document.contentType :=
       Sql.coalesce (DownloadResult.contentType r) (Document.contentType d);
     Document.rawLocation :=
       Sql.coalesce (DownloadResult.rawLocation r) (Document.rawLocation d);
     Document.extractedTextLocation := Document.extractedTextLocation d;
     Document.extractedTablesLocation := Document.extractedTablesLocation d;
     Document.error := DownloadResult.error r;
     Document.etag := Sql.coalesce (DownloadResult.etag r) (Document.etag d);
     Document.lastModified :=
       Sql.coalesce (DownloadResult.lastModified r) (Document.lastModified d);
     Document.lastCheckedAt := Some (DownloadResult.downloadedAt r);
     Document.lastDownloadAt :=
       if Document.status_eqb status Document.downloaded_ok
       then Some (DownloadResult.downloadedAt r)
       else Document.lastDownloadAt d;
     Document.attemptsDownload :=
       bump_attempts (DownloadResult.attempt r) (Document.attemptsDownload d);
     Document.attemptsExtract := Document.attemptsExtract d;
     Document.updatedAt := DownloadResult.downloadedAt r |}.

Definition markDownloadResult (r : DownloadResult.t) (db : t) : t :=
  with_documents db
    (Sql.update_where Document.docId (DownloadResult.docId r)
       (set_download_result r) (documents db)).

(** *** listPendingExtracts *)

Definition pending_extract (maxAttempts : Z) (d : Document.row) : bool :=
  (negb (is_null (Document.rawLocation d))
   && (Document.attemptsExtract d <? maxAttempts)
   && (is_status Document.downloaded_ok d || is_status Document.extracted_failed d)
   && negb (is_status Document.extracted_ok d))%bool.

(** Rows reaching the projection have a non-null [rawLocation]. *)
Definition extract_work_item (d : Document.row) : ExtractWorkItem.t :=
  {| ExtractWorkItem.docId := Document.docId d;
     ExtractWorkItem.rawLocation :=
       match Document.rawLocation d with
       | Some raw => raw
       | None => ""%string
       end;
     ExtractWorkItem.attempt := Document.attemptsExtract d + 1 |}.

Definition listPendingExtracts (lim : Z) (force : bool) (maxAttempts : Z)
    (db : t) : list ExtractWorkItem.t :=
  let selected :=
    if force then
      List.filter (fun d => negb (is_null (Document.rawLocation d))) (documents db)
    else List.filter (pending_extract maxAttempts) (documents db) in
  map extract_work_item (Sql.limit lim (Sql.order_by Document.updatedAt selected)).

(** *** markExtractionResult *)

Definition stored_extract_status (s : ExtractionResult.status_t)
    : Document.status_t :=
  match s with
  | ExtractionResult.extracted_ok => Document.extracted_ok
  | ExtractionResult.skipped => Document.extracted_ok
  | ExtractionResult.extracted_failed => Document.extracted_failed
  end.

Definition set_extraction_result (r : ExtractionResult.t) (d : Document.row)
    : Document.row :=
  {| Document.docId := Document.docId d;
     Document.url := Document.url d;
     Document.title := Document.title d;
     Document.year := Document.year d;
     Document.month := Document.month d;
     Document.sourcePageUrl := Document.sourcePageUrl d;
     Document.firstSeenAt := Document.firstSeenAt d;
     Document.lastSeenAt := Document.lastSeenAt d;
     Document.lastStatus := Some (stored_extract_status (ExtractionResult.status r));
     Document.sha256 := Document.sha256 d;
     Document.bytes := Document.bytes d;
     Document.contentType := Document.contentType d;
     Document.rawLocation := Document.rawLocation d;
     Document.extractedTextLocation :=
       Sql.coalesce (ExtractionResult.textLocation r) (Document.extractedTextLocation d);
     Document.extractedTablesLocation :=
       Sql.coalesce (ExtractionResult.tablesLocation r)
         (Document.extractedTablesLocation d);
     Document.error := ExtractionResult.error r;
     Document.etag := Document.etag d;
     Document.lastModified := Document.lastModified d;
     Document.lastCheckedAt := Document.lastCheckedAt d;
     Document.lastDownloadAt := Document.lastDownloadAt d;
     Document.attemptsDownload := Document.attemptsDownload d;
     Document.attemptsExtract :=
       bump_attempts (ExtractionResult.attempt r) (Document.attemptsExtract d);
     Document.updatedAt := ExtractionResult.extractedAt r |}.

Definition markExtractionResult (r : ExtractionResult.t) (db : t) : t :=
  with_documents db
    (Sql.update_where Document.docId (ExtractionResult.docId r)
       (set_extraction_result r) (documents db)).

(** *** Extract jobs *)

Definition queued_row (job : ExtractJobRecord.t) : ExtractJob.row :=
  {| ExtractJob.jobId := ExtractJobRecord.jobId job;
     ExtractJob.runId := ExtractJobRecord.runId job;
     ExtractJob.docId := ExtractJobRecord.docId job;
     ExtractJob.rawPdfPath := ExtractJobRecord.rawPdfPath job;
     ExtractJob.fileSha256 := ExtractJobRecord.fileSha256 job;
     ExtractJob.attempt := ExtractJobRecord.attempt job;
     ExtractJob.submittedAt := ExtractJobRecord.submittedAt job;
     ExtractJob.status := ExtractJob.queued;
     ExtractJob.leaseUntil := None;
     ExtractJob.finishedAt := None;
     ExtractJob.error := None;
     ExtractJob.resultRef := None |}.

(** [INSERT ... ON CONFLICT(jobId) DO NOTHING]. *)
Definition enqueueExtractJob (job : ExtractJobRecord.t) (db : t) : t :=
  match Sql.get_where ExtractJob.jobId (ExtractJobRecord.jobId job) (extract_jobs db) with
  | Some _ => db
  | None => with_extract_jobs db (extract_jobs db ++ [queued_row job])
  end.

(** The [WHERE] clause of the claim query, [now] being the clock reading
    bound to [@now]. *)
Definition claimable (now : string) (j : ExtractJob.row) : bool :=
  match ExtractJob.status j with
  | ExtractJob.queued => true
  | ExtractJob.leased =>
      match ExtractJob.leaseUntil j with
      | Some l => String.ltb l now
      | None => false
      end
  | _ => false
  end.

Definition set_leased (leaseUntil : string) (j : ExtractJob.row) : ExtractJob.row :=
  {| ExtractJob.jobId := ExtractJob.jobId j;
     ExtractJob.runId := ExtractJob.runId j;
     ExtractJob.docId := ExtractJob.docId j;
     ExtractJob.rawPdfPath := ExtractJob.rawPdfPath j;
     ExtractJob.fileSha256 := ExtractJob.fileSha256 j;
     ExtractJob.attempt := ExtractJob.attempt j;
     ExtractJob.submittedAt := ExtractJob.submittedAt j;
     ExtractJob.status := ExtractJob.leased;
     ExtractJob.leaseUntil := Some leaseUntil;
     ExtractJob.finishedAt := ExtractJob.finishedAt j;
     ExtractJob.error := ExtractJob.error j;
     ExtractJob.resultRef := ExtractJob.resultRef j |}.

Definition claimed_job (leaseUntil : string) (j : ExtractJob.row)
    : ClaimedExtractJob.t :=
  {| ClaimedExtractJob.jobId := ExtractJob.jobId j;
     ClaimedExtractJob.runId := ExtractJob.runId j;
     ClaimedExtractJob.docId := ExtractJob.docId j;
     ClaimedExtractJob.rawPdfPath := ExtractJob.rawPdfPath j;
     ClaimedExtractJob.fileSha256 := ExtractJob.fileSha256 j;
     ClaimedExtractJob.attempt := ExtractJob.attempt j;
     ClaimedExtractJob.submittedAt := ExtractJob.submittedAt j;
     ClaimedExtractJob.leaseUntil := leaseUntil |}.

(** The rows read by the [SELECT] of [claimPendingExtractJobs]. *)
Definition claim_rows (now : string) (lim : Z) (db : t) : list ExtractJob.row :=
  Sql.limit lim
    (Sql.order_by ExtractJob.submittedAt
       (List.filter (claimable now) (extract_jobs db))).

(** The transaction: one [UPDATE ... WHERE jobId = @jobId] per selected row. *)
Definition lease_rows (leaseUntil : string) (rows table : list ExtractJob.row)
    : list ExtractJob.row :=
  fold_left
    (fun tbl row =>
       Sql.update_where ExtractJob.jobId (ExtractJob.jobId row)
         (set_leased leaseUntil) tbl)
    rows table.

Definition claimPendingExtractJobs (now : string) (lim : Z) (leaseUntil : string)
    (db : t) : list ClaimedExtractJob.t * t :=
  match claim_rows now lim db with
  | [] => ([], db)
  | rows =>
      (map (claimed_job leaseUntil) rows,
       with_extract_jobs db (lease_rows leaseUntil rows (extract_jobs db)))
  end.

(** [getExtractJob]: the row is returned field for field ([NULL] read
    back as [undefined]). *)
Definition getExtractJob (jobId : string) (db : t) : option ExtractJob.row :=
  Sql.get_where ExtractJob.jobId jobId (extract_jobs db).

Inductive completion_t := completed | failed.

Definition stored_completion (s : completion_t) : ExtractJob.status_t :=
  match s with
  | completed => ExtractJob.completed
  | failed => ExtractJob.failed
  end.

Definition set_completed (status : completion_t) (finishedAt : string)
    (error resultRef : option string) (j : ExtractJob.row) : ExtractJob.row :=
  {| ExtractJob.jobId := ExtractJob.jobId j;
     ExtractJob.runId := ExtractJob.runId j;
     ExtractJob.docId := ExtractJob.docId j;
     ExtractJob.rawPdfPath := ExtractJob.rawPdfPath j;
     ExtractJob.fileSha256 := ExtractJob.fileSha256 j;
     ExtractJob.attempt := ExtractJob.attempt j;
     ExtractJob.submittedAt := ExtractJob.submittedAt j;
     ExtractJob.status := stored_completion status;
     ExtractJob.leaseUntil := ExtractJob.leaseUntil j;
     ExtractJob.finishedAt := Some finishedAt;
     ExtractJob.error := error;
     ExtractJob.resultRef := resultRef |}.

Definition completeExtractJob (jobId : string) (status : completion_t)
    (finishedAt : string) (error resultRef : option string) (db : t) : t :=
  with_extract_jobs db
    (Sql.update_where ExtractJob.jobId jobId
       (set_completed status finishedAt error resultRef) (extract_jobs db)).

(** The mutating operations on table [documents], as one type. *)
Inductive operation :=
| UpsertDiscovered (now : string) (item : DocumentDiscoveredItem.t)
| MarkDownloadResult (r : DownloadResult.t)
| MarkExtractionResult (r : ExtractionResult.t)
| MarkRemoteUnchanged (docId checkedAt : string) (etag lastModified : option string)
| MarkRemoteChanged (docId checkedAt : string) (etag lastModified : option string)
| MarkRawMissing (docId checkedAt : string).

Definition apply (op : operation) (db : t) : t :=
  match op with
  | UpsertDiscovered now item => upsertDiscovered now item db
  | MarkDownloadResult r => markDownloadResult r db
  | MarkExtractionResult r => markExtractionResult r db
  | MarkRemoteUnchanged id at_ e lm => markRemoteUnchanged id at_ e lm db
  | MarkRemoteChanged id at_ e lm => markRemoteChanged id at_ e lm db
  | MarkRawMissing id at_ => markRawMissing id at_ db
  end.

(** *** Runs *)

(** Table [runs] is read and written by [startRun] and [finishRun] only;
    both are given as functions on that table. *)
Definition started_row (runId startedAt : string) : Run.row :=
  {| Run.runId := runId;
     Run.startedAt := startedAt;
     Run.finishedAt := None;
     Run.status := Run.running |}.

Definition restart (excluded : Run.row) (r : Run.row) : Run.row :=
  {| Run.runId := Run.runId r;
     Run.startedAt := Run.startedAt excluded;
     Run.finishedAt := None;
     Run.status := Run.running |}.

Definition startRun (runId startedAt : string) (runs : list Run.row)
    : list Run.row :=
  let excluded := started_row runId startedAt in
  match Sql.get_where Run.runId runId runs with
  | Some _ => Sql.update_where Run.runId runId (restart excluded) runs
  | None => runs ++ [excluded]
  end.

Definition stored_run_status (s : completion_t) : Run.status_t :=
  match s with
  | completed => Run.completed
  | failed => Run.failed
  end.

Definition set_finished (status : completion_t) (finishedAt : string)
    (r : Run.row) : Run.row :=
  {| Run.runId := Run.runId r;
     Run.startedAt := Run.startedAt r;
     Run.finishedAt := Some finishedAt;
     Run.status := stored_run_status status |}.

Definition finishRun (runId : string) (status : completion_t)
    (finishedAt : string) (runs : list Run.row) : list Run.row :=
  Sql.update_where Run.runId runId (set_finished status finishedAt) runs.

(** *** listRevalidationCandidates and listDownloadedRawFiles *)

(** [rawLocation IS NOT NULL AND lastStatus IN ('downloaded_ok', 'extracted_ok')]. *)
Definition raw_downloaded (d : Document.row) : bool :=
  (negb (is_null (Document.rawLocation d))
   && (is_status Document.downloaded_ok d || is_status Document.extracted_ok d))%bool.

Definition revalidation_candidate (checkedBeforeIso : string) (d : Document.row)
    : bool :=
  (raw_downloaded d
   && match Document.lastCheckedAt d with
      | None => true
      | Some checked => String.ltb checked checkedBeforeIso
      end)%bool.

(** [COALESCE(lastCheckedAt, '1970-01-01T00:00:00.000Z')]. *)
Definition checked_key (d : Document.row) : string :=
  match Document.lastCheckedAt d with
  | Some checked => checked
  | None => "1970-01-01T00:00:00.000Z"%string
  end.

(** [ORDER BY k1 ASC, k2 ASC]: by [k1], rows with equal [k1] by [k2].
    Both sorts keep the scan order of rows they do not separate, so the
    second key is sorted first. *)
Definition order_by2 {A : Type} (k1 k2 : A -> string) (rows : list A) : list A :=
  Sql.order_by k1 (Sql.order_by k2 rows).

(** [a] sorts no later than [b] under [ORDER BY k1 ASC, k2 ASC]. *)
Definition key2_le {A : Type} (k1 k2 : A -> string) (a b : A) : Prop :=
  String.ltb (k1 a) (k1 b) = true
  \/ (k1 a = k1 b /\ String.leb (k2 a) (k2 b) = true).

Definition revalidation_rows (lim : Z) (checkedBeforeIso : string) (db : t)
    : list Document.row :=
  Sql.limit lim
    (order_by2 checked_key Document.updatedAt
       (List.filter (revalidation_candidate checkedBeforeIso) (documents db))).

Definition revalidation_item (d : Document.row) : RevalidationItem.t :=
  {| RevalidationItem.docId := Document.docId d;
     RevalidationItem.url := Document.url d;
     RevalidationItem.etag := Document.etag d;
     RevalidationItem.lastModified := Document.lastModified d;
     RevalidationItem.lastCheckedAt := Document.lastCheckedAt d |}.

Definition listRevalidationCandidates (lim : Z) (checkedBeforeIso : string)
    (db : t) : list RevalidationItem.t :=
  map revalidation_item (revalidation_rows lim checkedBeforeIso db).

Definition raw_file_rows (lim : Z) (db : t) : list Document.row :=
  Sql.limit lim
    (Sql.order_by Document.updatedAt (List.filter raw_downloaded (documents db))).

(** Rows reaching the projection have a non-null [rawLocation]. *)
Definition raw_file_item (d : Document.row) : RawFileItem.t :=
  {| RawFileItem.docId := Document.docId d;
     RawFileItem.rawLocation :=
       match Document.rawLocation d with
       | Some raw => raw
       | None => ""%string
       end |}.

Definition listDownloadedRawFiles (lim : Z) (db : t) : list RawFileItem.t :=
  map raw_file_item (raw_file_rows lim db).

(** *** getStats *)

(** The number of rows of [documents] that satisfy a [WHERE] clause. *)
Definition countWhere (clause : Document.row -> bool) (db : t) : Z :=
  Z.of_nat (length (List.filter clause (documents db))).

Definition getStats (db : t) : StoreStats.t :=
  {| StoreStats.totalDocuments := countWhere (fun _ => true) db;
     StoreStats.discovered := countWhere (is_status Document.discovered) db;
     StoreStats.downloadedOk := countWhere (is_status Document.downloaded_ok) db;
     StoreStats.downloadedFailed := countWhere (is_status Document.download_failed) db;
     StoreStats.extractedOk := countWhere (is_status Document.extracted_ok) db;
     StoreStats.extractedFailed := countWhere (is_status Document.extracted_failed) db |}.

(** The operations that only record that a document was seen or checked
    again: a repeated crawl, and a revalidation that found the remote file
    unchanged. *)
Definition passive (op : operation) : bool :=
  match op with
  | UpsertDiscovered _ _ | MarkRemoteUnchanged _ _ _ _ => true
  | _ => false
  end.

Definition apply_all (ops : list operation) (db : t) : t :=
  fold_left (fun db op => apply op db) ops db.

End SqliteStore.

(* ===================================================================== *)
(** ** Calls that may throw *)
(* ===================================================================== *)

Inductive outcome (A : Type) :=
| Returned (a : A)
| Thrown (message : string).
Arguments Returned {A} a.
Arguments Thrown {A} message.

(* ===================================================================== *)
(** ** Queue messages ([src/extract/asyncMessages.ts]) *)
(* ===================================================================== *)

(** The values [JSON.parse] produces.  A number is kept as the decimal
    [mantissa * 10 ^ exp10] of its literal. *)
Module Json.
#[local] Unset Elimination Schemes.
Inductive value :=
| JNull
| JBool (b : bool)
| JNumber (mantissa exp10 : Z)
| JString (s : string)
| JArray (items : list value)
| JObject (fields : list (string * value)).
#[local] Set Elimination Schemes.

(** [truthy v]: [!v] is false. *)
Definition truthy (v : value) : bool :=
  match v with
  | JNull => false
  | JBool b => b
  | JNumber m _ => negb (m =? 0)
  | JString s => negb (String.eqb s "")
  | JArray _ | JObject _ => true
  end.

(** [typeof v === "object"]. *)
Definition typeof_object (v : value) : bool :=
  match v with
  | JNull | JArray _ | JObject _ => true
  | _ => false
  end.

(** [v.k] for the property names the validators read; those are not
    inherited from a prototype, so only an object's own fields count. *)
Definition prop (k : string) (v : value) : option value :=
  match v with
  | JObject fields =>
      option_map snd (find (fun kv => String.eqb (fst kv) k) fields)
  | _ => None
  end.

(** [x === "lit"]. *)
Definition is_literal (lit : string) (x : option value) : bool :=
  match x with
  | Some (JString s) => String.eqb s lit
  | _ => false
  end.

Definition string_prop (k : string) (v : value) : option string :=
  match prop k v with
  | Some (JString s) => Some s
  | _ => None
  end.
End Json.

(** Library code the program calls. *)
Class JsonParser := { JSON_parse : string -> option Json.value }.
Class Sha256 := { sha256_hex : list Byte.byte -> string }.
Class JsonPrinter := { JSON_stringify : Json.value -> string }.

(** [Number.isInteger] on the number a JSON literal denotes: whether the
    double nearest to [mantissa * 10 ^ exp10] is finite and integral. *)
Class JsNumber := { double_is_integer : Z -> Z -> bool }.

Module ExtractRequestMessageV1.
Record t := mk {
  version : string;
  type : string;
  jobId : string;
  runId : string;
  docId : string;
  rawPdfPath : string;
  fileSha256 : option string;
  attempt : Z;
  submittedAt : string
}.
End ExtractRequestMessageV1.

Module ExtractResultMessageV1.
Inductive status_t := ok | no_tables | failed.

Record t := mk {
  jobId : string;
  docId : string;
  status : status_t;
  errorCode : option string;
  tablesLocation : option string;
  error : option string;
  finishedAt : string
}.

Definition with_status (s : status_t) (m : t) : t :=
  {| jobId := jobId m;
     docId := docId m;
     status := s;
     errorCode := errorCode m;
     tablesLocation := tablesLocation m;
     error := error m;
     finishedAt := finishedAt m |}.

(** [isString]: a string of positive length. *)
Definition isString (x : option Json.value) : bool :=
  match x with
  | Some (Json.JString s) => negb (String.eqb s "")
  | _ => false
  end.

Definition isExtractResultMessageV1 (value : Json.value) : bool :=
  if (negb (Json.truthy value) || negb (Json.typeof_object value))%bool then false
  else
    (Json.is_literal "v1" (Json.prop "version" value)
     && Json.is_literal "tables.extract.result" (Json.prop "type" value)
     && isString (Json.prop "jobId" value)
     && isString (Json.prop "docId" value)
     && (Json.is_literal "ok" (Json.prop "status" value)
         || Json.is_literal "no_tables" (Json.prop "status" value)
         || Json.is_literal "failed" (Json.prop "status" value))
     && isString (Json.prop "finishedAt" value))%bool.

(** The type assertion [value is ExtractResultMessageV1]: the fields the
    collector reads, seen at their declared types (an optional field
    holding a value of another JSON type is outside the declared type
    and reads as absent here). *)
Definition of_json (value : Json.value) : t :=
  let str k := match Json.string_prop k value with Some s => s | None => ""%string end in
  {| jobId := str "jobId"%string;
     docId := str "docId"%string;
     status :=
       if Json.is_literal "failed" (Json.prop "status" value) then failed
       else if Json.is_literal "no_tables" (Json.prop "status" value) then no_tables
       else ok;
     errorCode := Json.string_prop "errorCode" value;
     tablesLocation := Json.string_prop "tablesLocation" value;
     error := Json.string_prop "error" value;
     finishedAt := str "finishedAt"%string |}.
End ExtractResultMessageV1.

(** The rest of [asyncMessages.ts], and the objects the two message types
    denote.  An optional property that is absent is left out of the
    object, as [JSON.stringify] leaves out [undefined]. *)
Module AsyncMessages.

Definition optional (k : string) (x : option string) : list (string * Json.value) :=
  match x with
  | Some s => [(k, Json.JString s)]
  | None => []
  end.

Definition request_to_json (m : ExtractRequestMessageV1.t) : Json.value :=
  Json.JObject
    ([("version"%string, Json.JString (ExtractRequestMessageV1.version m));
      ("type"%string, Json.JString (ExtractRequestMessageV1.type m));
      ("jobId"%string, Json.JString (ExtractRequestMessageV1.jobId m));
      ("runId"%string, Json.JString (ExtractRequestMessageV1.runId m));
      ("docId"%string, Json.JString (ExtractRequestMessageV1.docId m));
      ("rawPdfPath"%string, Json.JString (ExtractRequestMessageV1.rawPdfPath m))]
     ++ optional "fileSha256" (ExtractRequestMessageV1.fileSha256 m)
     ++ [("attempt"%string, Json.JNumber (ExtractRequestMessageV1.attempt m) 0);
         ("submittedAt"%string, Json.JString (ExtractRequestMessageV1.submittedAt m))]).

Definition status_text (s : ExtractResultMessageV1.status_t) : string :=
  match s with
  | ExtractResultMessageV1.ok => "ok"
  | ExtractResultMessageV1.no_tables => "no_tables"
  | ExtractResultMessageV1.failed => "failed"
  end.

Definition result_to_json (m : ExtractResultMessageV1.t) : Json.value :=
  Json.JObject
    ([("version"%string, Json.JString "v1");
      ("type"%string, Json.JString "tables.extract.result");
      ("jobId"%string, Json.JString (ExtractResultMessageV1.jobId m));
      ("docId"%string, Json.JString (ExtractResultMessageV1.docId m));
      ("status"%string, Json.JString (status_text (ExtractResultMessageV1.status m)))]
     ++ optional "errorCode" (ExtractResultMessageV1.errorCode m)
     ++ optional "tablesLocation" (ExtractResultMessageV1.tablesLocation m)
     ++ optional "error" (ExtractResultMessageV1.error m)
     ++ [("finishedAt"%string, Json.JString (ExtractResultMessageV1.finishedAt m))]).

Section Requests.
Context `{JsNumber}.

(** [Number.isInteger(x)]: false for everything that is not a number. *)
Definition Number_isInteger (x : option Json.value) : bool :=
  match x with
  | Some (Json.JNumber mantissa exp10) => double_is_integer mantissa exp10
  | _ => false
  end.

Definition isExtractRequestMessageV1 (value : Json.value) : bool :=
  if (negb (Json.truthy value) || negb (Json.typeof_object value))%bool then false
  else
    (Json.is_literal "v1" (Json.prop "version" value)
     && Json.is_literal "tables.extract.request" (Json.prop "type" value)
     && ExtractResultMessageV1.isString (Json.prop "jobId" value)
     && ExtractResultMessageV1.isString (Json.prop "runId" value)
     && ExtractResultMessageV1.isString (Json.prop "docId" value)
     && ExtractResultMessageV1.isString (Json.prop "rawPdfPath" value)
     && Number_isInteger (Json.prop "attempt" value)
     && ExtractResultMessageV1.isString (Json.prop "submittedAt" value))%bool.
End Requests.

(** The type assertion [value is ExtractRequestMessageV1]; [attempt] is
    the integer its literal denotes (exact below 2^53). *)
Definition request_of_json (value : Json.value) : ExtractRequestMessageV1.t :=
  let str k := match Json.string_prop k value with Some s => s | None => ""%string end in
  {| ExtractRequestMessageV1.version := str "version"%string;
     ExtractRequestMessageV1.type := str "type"%string;
     ExtractRequestMessageV1.jobId := str "jobId"%string;
     ExtractRequestMessageV1.runId := str "runId"%string;
     ExtractRequestMessageV1.docId := str "docId"%string;
     ExtractRequestMessageV1.rawPdfPath := str "rawPdfPath"%string;
     ExtractRequestMessageV1.fileSha256 := Json.string_prop "fileSha256" value;
     ExtractRequestMessageV1.attempt :=
       match Json.prop "attempt" value with
       | Some (Json.JNumber mantissa exp10) =>
           if exp10 >=? 0 then mantissa * 10 ^ exp10 else mantissa / 10 ^ (- exp10)
       | _ => 0
       end;
     ExtractRequestMessageV1.submittedAt := str "submittedAt"%string |}.
End AsyncMessages.

Module QueuedExtractResult.
Record t := mk { queueMessageId : string; message : ExtractResultMessageV1.t }.
End QueuedExtractResult.

Module QueuedExtractRequest.
Record t := mk { queueMessageId : string; message : ExtractRequestMessageV1.t }.
End QueuedExtractRequest.

(* ===================================================================== *)
(** ** [LocalSqliteQueueAdapter] ([src/extract/localSqliteQueueAdapter.ts]) *)
(* ===================================================================== *)

(** Tables [queue_requests] and [queue_results] share one layout. *)
Module QueueMessage.
Inductive status_t := pending | leased | failed.

Definition status_eqb (a b : status_t) : bool :=
  match a, b with
  | pending, pending | leased, leased | failed, failed => true
  | _, _ => false
  end.

Record row := mk {
  queueMessageId : string;
  payload : string;
  status : status_t;
  createdAt : string;
  leaseUntil : option string
}.

Definition set_status (s : status_t) (r : row) : row :=
  {| queueMessageId := queueMessageId r;
     payload := payload r;
     status := s;
     createdAt := createdAt r;
     leaseUntil := leaseUntil r |}.
End QueueMessage.

Module LocalSqliteQueueAdapter.
Section Adapter.
Context `{JsonParser}.

Definition is_pending (r : QueueMessage.row) : bool :=
  QueueMessage.status_eqb (QueueMessage.status r) QueueMessage.pending.

(** The [SELECT] of [consumeAndLease]. *)
Definition pending_rows (lim : Z) (table : list QueueMessage.row)
    : list QueueMessage.row :=
  Sql.limit lim (Sql.order_by QueueMessage.createdAt (List.filter is_pending table)).

Definition mark (s : QueueMessage.status_t) (id : string)
    (table : list QueueMessage.row) : list QueueMessage.row :=
  Sql.update_where QueueMessage.queueMessageId id (QueueMessage.set_status s) table.

(** The leasing transaction. *)
Definition lease_rows (rows table : list QueueMessage.row)
    : list QueueMessage.row :=
  fold_left (fun tbl row => mark QueueMessage.leased (QueueMessage.queueMessageId row) tbl)
    rows table.

(** The loop over the leased rows.  [JSON.parse] throws on text that is
    not JSON; the exception leaves [consumeAndLease] with the updates
    made so far. *)
Fixpoint deliver {R : Type} (guard : Json.value -> bool)
    (projector : string -> Json.value -> R)
    (rows table : list QueueMessage.row)
    : outcome (list R) * list QueueMessage.row :=
  match rows with
  | [] => (Returned [], table)
  | row :: rest =>
      match JSON_parse (QueueMessage.payload row) with
      | None => (Thrown "SyntaxError", table)
      | Some parsed =>
          if guard parsed then
            let '(out, table') := deliver guard projector rest table in
            (match out with
             | Returned messages =>
                 Returned (projector (QueueMessage.queueMessageId row) parsed :: messages)
             | Thrown e => Thrown e
             end, table')
          else
            deliver guard projector rest
              (mark QueueMessage.failed (QueueMessage.queueMessageId row) table)
      end
  end.

Definition consumeAndLease {R : Type} (lim : Z) (guard : Json.value -> bool)
    (projector : string -> Json.value -> R) (table : list QueueMessage.row)
    : outcome (list R) * list QueueMessage.row :=
  match pending_rows lim table with
  | [] => (Returned [], table)
  | rows => deliver guard projector rows (lease_rows rows table)
  end.

Definition consumeResults (lim : Z) (queue_results : list QueueMessage.row)
    : outcome (list QueuedExtractResult.t) * list QueueMessage.row :=
  consumeAndLease lim ExtractResultMessageV1.isExtractResultMessageV1
    (fun queueMessageId message =>
       QueuedExtractResult.mk queueMessageId (ExtractResultMessageV1.of_json message))
    queue_results.

(** [DELETE FROM t WHERE queueMessageId = ?]. *)
Definition ack (queueMessageId : string) (table : list QueueMessage.row)
    : list QueueMessage.row :=
  List.filter
    (fun r => negb (String.eqb (QueueMessage.queueMessageId r) queueMessageId))
    table.


(** Some row of [rows] has the id of [r]. *)
Definition has_id (rows : list QueueMessage.row) (r : QueueMessage.row) : bool :=
  existsb
    (fun row =>
       String.eqb (QueueMessage.queueMessageId r) (QueueMessage.queueMessageId row))
    rows.


(** [later table t]: [t] is what [table] has become after any number
    of further [consumeAndLease] and [ack] calls. *)
Inductive later (table : list QueueMessage.row) : list QueueMessage.row -> Prop :=
| later_now : later table table
| later_consume {R : Type} (lim : Z) (guard : Json.value -> bool)
    (projector : string -> Json.value -> R) (t : list QueueMessage.row) :
    later table t -> later table (snd (consumeAndLease lim guard projector t))
| later_ack (queueMessageId : string) (t : list QueueMessage.row) :
    later table t -> later table (ack queueMessageId t).
End Adapter.

(** [INSERT INTO t (queueMessageId, payload, status, createdAt) VALUES
    (..., 'pending', ...)]: the primary key refuses an id that is taken. *)
Definition insert (tableName queueMessageId payload createdAt : string)
    (table : list QueueMessage.row) : outcome unit * list QueueMessage.row :=
  match Sql.get_where QueueMessage.queueMessageId queueMessageId table with
  | Some _ =>
      (Thrown ("UNIQUE constraint failed: " +:+ tableName +:+ ".queueMessageId"), table)
  | None =>
      (Returned tt,
       table ++ [{| QueueMessage.queueMessageId := queueMessageId;
                    QueueMessage.payload := payload;
                    QueueMessage.status := QueueMessage.pending;
                    QueueMessage.createdAt := createdAt;
                    QueueMessage.leaseUntil := None |}])
  end.

Section Publish.
Context `{JsonPrinter}.

(** [uuid] is the value of [crypto.randomUUID()], [now] the clock reading. *)
Definition publishRequest (uuid now : string) (message : ExtractRequestMessageV1.t)
    (queue_requests : list QueueMessage.row)
    : outcome unit * list QueueMessage.row :=
  insert "queue_requests" uuid
    (JSON_stringify (AsyncMessages.request_to_json message)) now queue_requests.

Definition publishResult (uuid now : string) (message : ExtractResultMessageV1.t)
    (queue_results : list QueueMessage.row)
    : outcome unit * list QueueMessage.row :=
  insert "queue_results" uuid
    (JSON_stringify (AsyncMessages.result_to_json message)) now queue_results.
End Publish.

Section Requests.
Context `{JsonParser} `{JsNumber}.

Definition consumeRequests (lim : Z) (queue_requests : list QueueMessage.row)
    : outcome (list QueuedExtractRequest.t) * list QueueMessage.row :=
  consumeAndLease lim AsyncMessages.isExtractRequestMessageV1
    (fun queueMessageId message =>
       QueuedExtractRequest.mk queueMessageId (AsyncMessages.request_of_json message))
    queue_requests.
End Requests.

Definition ackRequest (queueMessageId : string) (queue_requests : list QueueMessage.row)
    : list QueueMessage.row :=
  ack queueMessageId queue_requests.

Definition ackResult (queueMessageId : string) (queue_results : list QueueMessage.row)
    : list QueueMessage.row :=
  ack queueMessageId queue_results.
End LocalSqliteQueueAdapter.

(* ===================================================================== *)
(** ** The download runner ([downloadAttempt], [runDownloader]) *)
(* ===================================================================== *)

Module Http.
(** The body of a response as the download consumes it: the chunks read
    and written before the stream ended, and the error that ended it if
    it did not end normally. *)
Record body_stream := mk_body {
  chunks : list (list Byte.byte);
  failure : option string
}.

Record response := mk {
  status : Z;
  url : string;
  body : option body_stream;
  contentType : option string;
  etag : option string;
  lastModified : option string
}.

(** [response.ok]: the status is in the range 200-299. *)
Definition ok (r : response) : bool :=
  ((200 <=? status r) && (status r <=? 299))%bool.

Definition content (b : body_stream) : list Byte.byte := List.concat (chunks b).
End Http.

Module Downloader.

(** Files by path; directories are not represented. *)
Abbreviation file_system := (gmap string (list Byte.byte)).

(** What the outside world does during one call of [downloadAttempt]. *)
Inductive fetch_result :=
| FetchRejects (message : string)
| FetchResolves (response : Http.response).

Record attempt_env := mk_env {
  fetched : fetch_result;
  mkdir_error : option string;
  open_error : option string;
  rename_error : option string;
  clock : string
}.

Record attempt_result := mk_result {
  statusCode : Z;
  resolvedUrl : option string;
  contentType : option string;
  sha256 : option string;
  bytes : option Z;
  etag : option string;
  lastModified : option string
}.

Definition status_only (statusCode : Z) (resolvedUrl : string) : attempt_result :=
  {| statusCode := statusCode; resolvedUrl := Some resolvedUrl;
     contentType := None; sha256 := None; bytes := None;
     etag := None; lastModified := None |}.

Definition temp_path (outputPath : string) : string := outputPath +:+ ".part".

(** [fs.createWriteStream(tempPath, {flags: "w"})] and
    [await pipeline(readable, writable)]: the file is created (or
    truncated) when the stream opens and holds the chunks written so far;
    the result is the error that rejected the pipeline, if any. *)
Definition pipeline_to_file (env : attempt_env) (b : Http.body_stream)
    (tempPath : string) (fs : file_system) : option string * file_system :=
  match open_error env with
  | Some e => (Some e, fs)
  | None => (Http.failure b, <[tempPath := Http.content b]> fs)
  end.

Definition renameSync (error : option string) (src dst : string)
    (fs : file_system) : option string * file_system :=
  match error with
  | Some e => (Some e, fs)
  | None =>
      match fs !! src with
      | Some data => (None, <[dst := data]> (delete src fs))
      | None => (Some "ENOENT"%string, fs)
      end
  end.

(** [if (fs.existsSync(p)) fs.unlinkSync(p)]. *)
Definition unlink_if_exists (p : string) (fs : file_system) : file_system :=
  match fs !! p with
  | Some _ => delete p fs
  | None => fs
  end.

Section Attempt.
Context `{Sha256}.

Definition downloadAttempt (env : attempt_env) (url outputPath : string)
    (fs : file_system) : outcome attempt_result * file_system :=
  match fetched env with
  | FetchRejects message => (Thrown message, fs)
  | FetchResolves response =>
      if negb (Http.ok response) then
        (Returned (status_only (Http.status response) (Http.url response)), fs)
      else
        match Http.body response with
        | None => (Returned (status_only 500 (Http.url response)), fs)
        | Some b =>
            match mkdir_error env with
            | Some e => (Thrown e, fs)
            | None =>
                let tempPath := temp_path outputPath in
                match pipeline_to_file env b tempPath fs with
                | (Some e, fs1) => (Thrown e, unlink_if_exists tempPath fs1)
                | (None, fs1) =>
                    match renameSync (rename_error env) tempPath outputPath fs1 with
                    | (Some e, fs2) => (Thrown e, unlink_if_exists tempPath fs2)
                    | (None, fs2) =>
                        (Returned
                           {| statusCode := Http.status response;
                              resolvedUrl := Some (Http.url response);
                              contentType := Http.contentType response;
                              sha256 := Some (sha256_hex (Http.content b));
                              bytes := Some (Z.of_nat (length (Http.content b)));
                              etag := Http.etag response;
                              lastModified := Http.lastModified response |},
                         fs2)
                    end
                end
            end
        end
  end.

(** *** The per-item attempt loop of [runDownloader] *)

Inductive event :=
| Request (n : nat)
| Sleep (ms : Z).

(** The file system, the number of requests issued so far and what the
    loop did, oldest first. *)
Record world := mk_world {
  fs : file_system;
  requests : nat;
  trace : list event
}.

Definition isRetriableStatus (status : Z) : bool :=
  ((status =? 429) || (status >=? 500))%bool.

(** [Math.min(1000 * 2 ** (attempt - 1), 10_000)], for [attempt >= 1]:
    the loop starts at [attemptsDownload + 1] and counts upwards.  For
    [attempt <= 0] the power is a fraction in JavaScript, which this
    integer model does not follow. *)
Definition backoff (attempt : Z) : Z :=
  Z.min (1000 * 2 ^ (attempt - 1)) 10000.

Definition sleep (ms : Z) (w : world) : world :=
  {| fs := fs w; requests := requests w; trace := trace w ++ [Sleep ms] |}.

Variable environment : nat -> attempt_env.
Variable maxDownloadAttempts : Z.
Variable item : DownloadWorkItem.t.
Variable finalPath : string.

Definition failed_result (resolvedUrl : option string) (error : string)
    (attempt : Z) (downloadedAt : string) : DownloadResult.t :=
  {| DownloadResult.docId := DownloadWorkItem.docId item;
     DownloadResult.url := DownloadWorkItem.url item;
     DownloadResult.resolvedUrl := resolvedUrl;
     DownloadResult.status := DownloadResult.download_failed;
     DownloadResult.sha256 := None;
     DownloadResult.bytes := None;
     DownloadResult.contentType := None;
     DownloadResult.rawLocation := None;
     DownloadResult.etag := None;
     DownloadResult.lastModified := None;
     DownloadResult.error := Some error;
     DownloadResult.attempt := attempt;
     DownloadResult.downloadedAt := downloadedAt |}.

Definition ok_result (r : attempt_result) (attempt : Z) (downloadedAt : string)
    : DownloadResult.t :=
  {| DownloadResult.docId := DownloadWorkItem.docId item;
     DownloadResult.url := DownloadWorkItem.url item;
     DownloadResult.resolvedUrl := resolvedUrl r;
     DownloadResult.status := DownloadResult.downloaded_ok;
     DownloadResult.sha256 := sha256 r;
     DownloadResult.bytes := bytes r;
     DownloadResult.contentType := contentType r;
     DownloadResult.rawLocation := Some finalPath;
     DownloadResult.etag := etag r;
     DownloadResult.lastModified := lastModified r;
     DownloadResult.error := None;
     DownloadResult.attempt := attempt;
     DownloadResult.downloadedAt := downloadedAt |}.

(** [`HTTP ${statusCode}`]. *)
Definition http_error (statusCode : Z) : string :=
  "HTTP " +:+ pretty statusCode.

(** [for (; attempt <= maxDownloadAttempts; attempt += 1) { ... }];
    [None] is the loop ending with [result] still undefined.  [fuel]
    bounds the iterations; [attempts_left] iterations always suffice. *)
Fixpoint attempt_loop (fuel : nat) (attempt : Z) (w : world)
    : option DownloadResult.t * world :=
  match fuel with
  | O => (None, w)
  | S fuel' =>
      if attempt <=? maxDownloadAttempts then
        let env := environment (requests w) in
        let '(out, fs') :=
          downloadAttempt env (DownloadWorkItem.url item) finalPath (fs w) in
        let w1 :=
          {| fs := fs'; requests := S (requests w);
             trace := trace w ++ [Request (requests w)] |} in
        match out with
        | Returned attemptResult =>
            if statusCode attemptResult =? 404 then
              (Some (failed_result (resolvedUrl attemptResult) "HTTP 404"
                       attempt (clock env)), w1)
            else if statusCode attemptResult >=? 400 then
              if (negb (isRetriableStatus (statusCode attemptResult))
                  || (attempt >=? maxDownloadAttempts))%bool then
                (Some (failed_result (resolvedUrl attemptResult)
                         (http_error (statusCode attemptResult))
                         attempt (clock env)), w1)
              else attempt_loop fuel' (attempt + 1) (sleep (backoff attempt) w1)
            else (Some (ok_result attemptResult attempt (clock env)), w1)
        | Thrown message =>
            if attempt >=? maxDownloadAttempts then
              (Some (failed_result None message attempt (clock env)), w1)
            else attempt_loop fuel' (attempt + 1) (sleep (backoff attempt) w1)
        end
      else (None, w)
  end.

Definition attempts_left (attempt : Z) : nat :=
  Z.to_nat (maxDownloadAttempts + 1 - attempt).

(** The worker body up to the store write: the loop from
    [item.attempt], then the fallback for an undefined [result]. *)
Definition download_item (now : string) (w : world) : DownloadResult.t * world :=
  let attempt := DownloadWorkItem.attempt item in
  match attempt_loop (attempts_left attempt) attempt w with
  | (Some result, w') => (result, w')
  | (None, w') =>
      (failed_result None "Unknown download failure" maxDownloadAttempts now, w')
  end.
End Attempt.

(** *** The batches of [runDownloader] (and, with [extractConcurrency], of
    [runExtractor]) *)

(** [Math.max(concurrency * 2, 1)]. *)
Definition batch_size (concurrency : Z) : Z := Z.max (concurrency * 2) 1.

(** The guard at the head of the batch loop:
    [maxDocs !== undefined && processed >= maxDocs]. *)
Definition budget_spent (maxDocs : option Z) (processed : Z) : bool :=
  match maxDocs with
  | Some m => processed >=? m
  | None => false
  end.

(** [Math.min(batchSize, remaining || batchSize)]; zero is falsy. *)
Definition request_size (concurrency : Z) (maxDocs : option Z) (processed : Z) : Z :=
  let batchSize := batch_size concurrency in
  let remaining :=
    match maxDocs with
    | Some m => Z.max (m - processed) 0
    | None => batchSize
    end in
  Z.min batchSize (if remaining =? 0 then batchSize else remaining).

(** *** Reconciliation with the raw files on disk at startup *)

(** [fs.existsSync(p)]. *)
Definition existsSync (p : string) (fs : file_system) : bool :=
  match fs !! p with
  | Some _ => true
  | None => false
  end.

(** The loop over [rawFiles]; [clock i] is the clock reading taken for the
    [i]-th of them. *)
Fixpoint mark_missing_files (fs : file_system) (clock : nat -> string) (i : nat)
    (rawFiles : list RawFileItem.t) (db : SqliteStore.t) : SqliteStore.t :=
  match rawFiles with
  | [] => db
  | item :: rest =>
      mark_missing_files fs clock (S i) rest
        (if existsSync (RawFileItem.rawLocation item) fs then db
         else SqliteStore.markRawMissing (RawFileItem.docId item) (clock i) db)
  end.

Definition verifyDownloadedFiles (fs : file_system) (clock : nat -> string)
    (db : SqliteStore.t) : SqliteStore.t :=
  mark_missing_files fs clock 0 (SqliteStore.listDownloadedRawFiles 5000 db) db.

(** *** Revalidation by [HEAD] requests *)








End Downloader.

(* ===================================================================== *)
(** ** The asynchronous extraction orchestrator *)
(* ===================================================================== *)

(** The part of interface [AsyncTableQueue] the orchestrator calls, for a
    queue whose state has type [Q]. *)
Class AsyncTableQueue (Q : Type) := {
  publishRequest : ExtractRequestMessageV1.t -> Q -> Q;
  consumeResults : Z -> Q -> list QueuedExtractResult.t * Q;
  ackResult : string -> Q -> Q
}.

Module AsyncExtract.

Record summary := mk_summary { processed : Z; ok : Z; failed : Z }.

Section Orchestrator.
Context `{Sha256} {Q : Type} `{AsyncTableQueue Q}.

(** sha256 of [`${docId}|${rawPdfPath}`] in hexadecimal, first 24
    characters. *)
Definition createExtractJobId (docId rawPdfPath : string) : string :=
  String.substring 0 24
    (sha256_hex (list_byte_of_string (docId +:+ "|" +:+ rawPdfPath))).

Definition submit_item (runId submittedAt : string) (item : ExtractWorkItem.t)
    (st : SqliteStore.t * Q) : SqliteStore.t * Q :=
  let jobId :=
    createExtractJobId (ExtractWorkItem.docId item) (ExtractWorkItem.rawLocation item) in
  let db :=
    SqliteStore.enqueueExtractJob
      {| ExtractJobRecord.jobId := jobId;
         ExtractJobRecord.runId := runId;
         ExtractJobRecord.docId := ExtractWorkItem.docId item;
         ExtractJobRecord.rawPdfPath := ExtractWorkItem.rawLocation item;
         ExtractJobRecord.fileSha256 := None;
         ExtractJobRecord.attempt := ExtractWorkItem.attempt item;
         ExtractJobRecord.submittedAt := submittedAt |}
      (fst st) in
  let q :=
    publishRequest
      {| ExtractRequestMessageV1.version := "v1";
         ExtractRequestMessageV1.type := "tables.extract.request";
         ExtractRequestMessageV1.jobId := jobId;
         ExtractRequestMessageV1.runId := runId;
         ExtractRequestMessageV1.docId := ExtractWorkItem.docId item;
         ExtractRequestMessageV1.rawPdfPath := ExtractWorkItem.rawLocation item;
         ExtractRequestMessageV1.fileSha256 := None;
         ExtractRequestMessageV1.attempt := ExtractWorkItem.attempt item;
         ExtractRequestMessageV1.submittedAt := submittedAt |}
      (snd st) in
  (db, q).

(** [clock i] is the clock reading taken for the [i]-th pending item. *)
Fixpoint submit_items (runId : string) (clock : nat -> string) (i : nat)
    (pending : list ExtractWorkItem.t) (st : SqliteStore.t * Q)
    : SqliteStore.t * Q :=
  match pending with
  | [] => st
  | item :: rest =>
      submit_items runId clock (S i) rest (submit_item runId (clock i) item st)
  end.

Definition submitExtractJobs (runId : string) (force : option bool)
    (lim maxExtractAttempts : Z) (clock : nat -> string)
    (st : SqliteStore.t * Q) : Z * (SqliteStore.t * Q) :=
  let pending :=
    SqliteStore.listPendingExtracts lim
      (match force with Some b => b | None => false end)
      maxExtractAttempts (fst st) in
  (Z.of_nat (length pending), submit_items runId clock 0 pending st).

(** JS truthiness of an optional string. *)
Definition truthy (x : option string) : bool :=
  match x with
  | Some s => negb (String.eqb s "")
  | None => false
  end.

Definition mapResultMessageToExtractionResult
    (message : ExtractResultMessageV1.t) (attempt : Z) : ExtractionResult.t :=
  match ExtractResultMessageV1.status message with
  | ExtractResultMessageV1.failed =>
      let error :=
        if truthy (ExtractResultMessageV1.errorCode message) then
          match ExtractResultMessageV1.errorCode message with
          | Some code =>
              code +:+
              (if truthy (ExtractResultMessageV1.error message) then
                 match ExtractResultMessageV1.error message with
                 | Some e => ": " +:+ e
                 | None => ""
                 end
               else "")
          | None => ""
          end
        else
          match ExtractResultMessageV1.error message with
          | Some e => e
          | None => "table_extraction_failed"
          end in
      {| ExtractionResult.docId := ExtractResultMessageV1.docId message;
         ExtractionResult.status := ExtractionResult.extracted_failed;
         ExtractionResult.pageCount := None;
         ExtractionResult.textLocation := None;
         ExtractionResult.tablesLocation := None;
         ExtractionResult.error := Some error;
         ExtractionResult.attempt := attempt;
         ExtractionResult.extractedAt := ExtractResultMessageV1.finishedAt message |}
  | _ =>
      {| ExtractionResult.docId := ExtractResultMessageV1.docId message;
         ExtractionResult.status := ExtractionResult.extracted_ok;
         ExtractionResult.pageCount := None;
         ExtractionResult.textLocation := None;
         ExtractionResult.tablesLocation := ExtractResultMessageV1.tablesLocation message;
         ExtractionResult.error := None;
         ExtractionResult.attempt := attempt;
         ExtractionResult.extractedAt := ExtractResultMessageV1.finishedAt message |}
  end.

Definition is_failed (message : ExtractResultMessageV1.t) : bool :=
  match ExtractResultMessageV1.status message with
  | ExtractResultMessageV1.failed => true
  | _ => false
  end.

(** One iteration of the loop of [collectExtractResults]. *)
Definition collect_message (queued : QueuedExtractResult.t)
    (st : SqliteStore.t * Q * summary) : SqliteStore.t * Q * summary :=
  let '(db, q, s) := st in
  let message := QueuedExtractResult.message queued in
  match SqliteStore.getExtractJob (ExtractResultMessageV1.jobId message) db with
  | None => (db, ackResult (QueuedExtractResult.queueMessageId queued) q, s)
  | Some job =>
      let extractionResult :=
        mapResultMessageToExtractionResult message (ExtractJob.attempt job) in
      let db1 := SqliteStore.markExtractionResult extractionResult db in
      let db2 :=
        SqliteStore.completeExtractJob (ExtractResultMessageV1.jobId message)
          (if is_failed message then SqliteStore.failed else SqliteStore.completed)
          (ExtractResultMessageV1.finishedAt message)
          (ExtractResultMessageV1.error message)
          (ExtractResultMessageV1.tablesLocation message) db1 in
      (db2, ackResult (QueuedExtractResult.queueMessageId queued) q,
       {| processed := processed s + 1;
          ok := if is_failed message then ok s else ok s + 1;
          failed := if is_failed message then failed s + 1 else failed s |})
  end.

Definition collectExtractResults (lim : Z) (st : SqliteStore.t * Q)
    : summary * (SqliteStore.t * Q) :=
  let '(messages, q1) := consumeResults lim (snd st) in
  let '(db, q, s) :=
    fold_left (fun acc queued => collect_message queued acc) messages
      (fst st, q1, {| processed := 0; ok := 0; failed := 0 |}) in
  (s, (db, q)).
End Orchestrator.
End AsyncExtract.

(* ===================================================================== *)
(** ** Sample data, in the manner of the repository's tests *)
(* ===================================================================== *)

Module Fixtures.
Local Open Scope string_scope.

(** A stored document, by its key, state and attempt counter; the other
    columns are as after [upsertDiscovered] and one download. *)
Definition document (docId : string) (lastStatus : option Document.status_t)
    (error : option string) (attemptsDownload : Z) (updatedAt : string)
    : Document.row :=
  {| Document.docId := docId;
     Document.url := "https://x/" +:+ docId +:+ ".pdf";
     Document.title := docId;
     Document.year := None;
     Document.month := None;
     Document.sourcePageUrl := "https://x";
     Document.firstSeenAt := "2026-02-20T00:00:00.000Z";
     Document.lastSeenAt := "2026-02-20T00:00:00.000Z";
     Document.lastStatus := lastStatus;
     Document.sha256 := Some "abc";
     Document.bytes := Some 7;
     Document.contentType := Some "application/pdf";
     Document.rawLocation := Some ("/r/" +:+ docId +:+ ".pdf");
     Document.extractedTextLocation := None;
     Document.extractedTablesLocation := None;
     Document.error := error;
     Document.etag := None;
     Document.lastModified := None;
     Document.lastCheckedAt := None;
     Document.lastDownloadAt := None;
     Document.attemptsDownload := attemptsDownload;
     Document.attemptsExtract := 0;
     Document.updatedAt := updatedAt |}.

Definition job (jobId docId : string) (status : ExtractJob.status_t)
    (leaseUntil : option string) : ExtractJob.row :=
  {| ExtractJob.jobId := jobId;
     ExtractJob.runId := "run-1";
     ExtractJob.docId := docId;
     ExtractJob.rawPdfPath := "/r/" +:+ docId +:+ ".pdf";
     ExtractJob.fileSha256 := None;
     ExtractJob.attempt := 1;
     ExtractJob.submittedAt := "2026-02-20T00:00:00.000Z";
     ExtractJob.status := status;
     ExtractJob.leaseUntil := leaseUntil;
     ExtractJob.finishedAt := None;
     ExtractJob.error := None;
     ExtractJob.resultRef := None |}.

Definition item (docId : string) : DocumentDiscoveredItem.t :=
  {| DocumentDiscoveredItem.docId := docId;
     DocumentDiscoveredItem.url := "https://x/new.pdf";
     DocumentDiscoveredItem.title := "new title";
     DocumentDiscoveredItem.year := Some 2026;
     DocumentDiscoveredItem.month := Some "02";
     DocumentDiscoveredItem.sourcePageUrl := "https://x/page/2";
     DocumentDiscoveredItem.discoveredAt := "2026-03-01T00:00:00.000Z" |}.

(** Downloaded at the third and last allowed attempt. *)
Definition downloaded_at_last_attempt : Document.row :=
  document "d1" (Some Document.downloaded_ok) None 3 "2026-02-20T01:00:00.000Z".

(** A failed download whose recorded error spells the marker in lower case. *)
Definition failed_lower_case : Document.row :=
  document "d2" (Some Document.download_failed) (Some "http 404 from proxy") 1
    "2026-02-20T01:00:00.000Z".

Definition discovered_early : Document.row :=
  document "d3" (Some Document.discovered) None 0 "2026-02-20T01:00:00.000Z".

Definition discovered_late : Document.row :=
  document "d4" (Some Document.discovered) None 0 "2026-02-20T02:00:00.000Z".

(** A row whose [lastStatus] is [NULL], as the schema allows. *)
Definition status_unset : Document.row :=
  document "d5" None None 0 "2026-02-20T01:00:00.000Z".

Definition downloaded_once : Document.row :=
  document "d6" (Some Document.downloaded_ok) None 1 "2026-02-20T01:00:00.000Z".

Definition store (documents : list Document.row) (jobs : list ExtractJob.row)
    : SqliteStore.t :=
  {| SqliteStore.documents := documents; SqliteStore.extract_jobs := jobs |}.

Definition queued_job : ExtractJob.row := job "job-1" "d6" ExtractJob.queued None.

Definition jobs_store : SqliteStore.t := store [downloaded_once] [queued_job].

(** A first claim at half past midnight, leasing until one o'clock. *)
Definition first_claim : list ClaimedExtractJob.t * SqliteStore.t :=
  SqliteStore.claimPendingExtractJobs "2026-02-20T00:30:00.000Z" 10
    "2026-02-20T01:00:00.000Z" jobs_store.

(** A queue kept in memory: what was published, the results waiting to
    be consumed, and the ids acknowledged. *)
Record memory_queue := mk_queue {
  published : list ExtractRequestMessageV1.t;
  waiting : list QueuedExtractResult.t;
  acked : list string
}.

Definition memory_queue_ops : AsyncTableQueue memory_queue :=
  {| publishRequest := fun m q =>
       {| published := published q ++ [m]; waiting := waiting q; acked := acked q |};
     consumeResults := fun lim q =>
       (Sql.limit lim (waiting q),
        {| published := published q;
           waiting := skipn (length (Sql.limit lim (waiting q))) (waiting q);
           acked := acked q |});
     ackResult := fun id q =>
       {| published := published q; waiting := waiting q; acked := acked q ++ [id] |} |}.

Definition empty_queue : memory_queue :=
  {| published := []; waiting := []; acked := [] |}.

(** Stand-ins for the library functions, to run the examples: a digest
    that spells out its input, and a parser that knows three texts. *)
Definition spelled_digest : Sha256 :=
  {| sha256_hex := string_of_list_byte |}.

Definition result_json (status : string) : Json.value :=
  Json.JObject
    [("version", Json.JString "v1");
     ("type", Json.JString "tables.extract.result");
     ("jobId", Json.JString "job-1");
     ("docId", Json.JString "d6");
     ("status", Json.JString status);
     ("finishedAt", Json.JString "2026-02-20T03:00:00.000Z")].

Definition three_texts : JsonParser :=
  {| JSON_parse := fun text =>
       if String.eqb text "ok" then Some (result_json "ok")
       else if String.eqb text "no status" then
         Some (Json.JObject [("version", Json.JString "v1")])
       else if String.eqb text "null" then Some Json.JNull
       else None |}.

Definition message (queueMessageId payload : string)
    (status : QueueMessage.status_t) (createdAt : string) : QueueMessage.row :=
  {| QueueMessage.queueMessageId := queueMessageId;
     QueueMessage.payload := payload;
     QueueMessage.status := status;
     QueueMessage.createdAt := createdAt;
     QueueMessage.leaseUntil := None |}.

Definition queue_results : list QueueMessage.row :=
  [message "m2" "no status" QueueMessage.pending "2026-02-20T02:00:00.000Z";
   message "m1" "ok" QueueMessage.pending "2026-02-20T01:00:00.000Z";
   message "m0" "ok" QueueMessage.leased "2026-02-20T00:00:00.000Z"].

Definition result_message (status : ExtractResultMessageV1.status_t)
    : QueuedExtractResult.t :=
  {| QueuedExtractResult.queueMessageId := "m1";
     QueuedExtractResult.message :=
       {| ExtractResultMessageV1.jobId := "job-1";
          ExtractResultMessageV1.docId := "d6";
          ExtractResultMessageV1.status := status;
          ExtractResultMessageV1.errorCode := None;
          ExtractResultMessageV1.tablesLocation := Some "/e/d6.tables.json";
          ExtractResultMessageV1.error := None;
          ExtractResultMessageV1.finishedAt := "2026-02-20T03:00:00.000Z" |} |}.

(** Two results waiting for the same job: a failure, then ["no_tables"]. *)
Definition results_waiting : memory_queue :=
  {| published := [];
     waiting :=
       [QueuedExtractResult.mk "m0"
          (QueuedExtractResult.message (result_message ExtractResultMessageV1.failed));
        result_message ExtractResultMessageV1.no_tables];
     acked := [] |}.

(** The same two results, the second saying ["ok"]. *)
Definition results_waiting_ok : memory_queue :=
  {| published := [];
     waiting :=
       [QueuedExtractResult.mk "m0"
          (QueuedExtractResult.message (result_message ExtractResultMessageV1.failed));
        result_message ExtractResultMessageV1.ok];
     acked := [] |}.

(** The network: a 500, then a 404; every later request is refused. *)
Definition response (status : Z) (body : option Http.body_stream) : Http.response :=
  {| Http.status := status;
     Http.url := "https://x/d3.pdf";
     Http.body := body;
     Http.contentType := Some "application/pdf";
     Http.etag := None;
     Http.lastModified := None |}.

Definition answers (fetched : Downloader.fetch_result) : Downloader.attempt_env :=
  {| Downloader.fetched := fetched;
     Downloader.mkdir_error := None;
     Downloader.open_error := None;
     Downloader.rename_error := None;
     Downloader.clock := "2026-02-20T05:00:00.000Z" |}.

Definition flaky_then_gone (n : nat) : Downloader.attempt_env :=
  match n with
  | O => answers (Downloader.FetchResolves (response 500 None))
  | S O => answers (Downloader.FetchResolves (response 404 None))
  | _ => answers (Downloader.FetchRejects "ECONNREFUSED")
  end.

Definition pdf_body : Http.body_stream :=
  {| Http.chunks := [[x25; x50]; [x44; x46]]; Http.failure := None |}.

Definition work_item : DownloadWorkItem.t :=
  {| DownloadWorkItem.docId := "d3";
     DownloadWorkItem.url := "https://x/d3.pdf";
     DownloadWorkItem.title := "d3";
     DownloadWorkItem.attempt := 1 |}.

Definition served_pdf : Downloader.attempt_env :=
  answers (Downloader.FetchResolves (response 200 (Some pdf_body))).

(** The target directory after a process was killed while streaming: a
    truncated file is still there under [.part]. *)
Definition stale_part : Downloader.file_system :=
  {[ Downloader.temp_path "/r/d3.pdf" := [x25; x50] ]}.

Definition fresh_world : Downloader.world :=
  {| Downloader.fs := ∅; Downloader.requests := 0; Downloader.trace := [] |}.

(** What the attempt loop does for [work_item] against that network,
    with three attempts allowed. *)
Definition trace_of_item : list Downloader.event :=
  Downloader.trace
    (snd (@Downloader.attempt_loop spelled_digest flaky_then_gone 3 work_item
            "/r/d3.pdf" 3 1 fresh_world)).

(** Two submissions over the same store, a day apart. *)
Definition first_submit : SqliteStore.t * memory_queue :=
  snd (@AsyncExtract.submitExtractJobs spelled_digest _ memory_queue_ops
         "run-1" None 10 3 (fun _ => "2026-02-21T00:00:00.000Z")
         (store [downloaded_once] [], empty_queue)).

Definition second_submit : SqliteStore.t * memory_queue :=
  snd (@AsyncExtract.submitExtractJobs spelled_digest _ memory_queue_ops
         "run-2" None 10 3 (fun _ => "2026-02-22T00:00:00.000Z") first_submit).

(** What a download of [discovered_early] may report: the file is gone,
    or it was stored. *)
Definition gone_result : DownloadResult.t :=
  {| DownloadResult.docId := "d3";
     DownloadResult.url := "https://x/d3.pdf";
     DownloadResult.resolvedUrl := Some "https://x/d3.pdf";
     DownloadResult.status := DownloadResult.download_failed;
     DownloadResult.sha256 := None;
     DownloadResult.bytes := None;
     DownloadResult.contentType := None;
     DownloadResult.rawLocation := None;
     DownloadResult.etag := None;
     DownloadResult.lastModified := None;
     DownloadResult.error := Some "HTTP 404";
     DownloadResult.attempt := 1;
     DownloadResult.downloadedAt := "2026-02-20T05:00:00.000Z" |}.

Definition stored_result : DownloadResult.t :=
  {| DownloadResult.docId := "d3";
     DownloadResult.url := "https://x/d3.pdf";
     DownloadResult.resolvedUrl := Some "https://x/d3.pdf";
     DownloadResult.status := DownloadResult.downloaded_ok;
     DownloadResult.sha256 := Some "%PDF";
     DownloadResult.bytes := Some 4;
     DownloadResult.contentType := Some "application/pdf";
     DownloadResult.rawLocation := Some "/r/d3.pdf";
     DownloadResult.etag := None;
     DownloadResult.lastModified := None;
     DownloadResult.error := None;
     DownloadResult.attempt := 1;
     DownloadResult.downloadedAt := "2026-02-20T05:00:00.000Z" |}.

(** An extraction of [downloaded_once] that failed at its first attempt. *)
Definition failed_extraction : ExtractionResult.t :=
  {| ExtractionResult.docId := "d6";
     ExtractionResult.status := ExtractionResult.extracted_failed;
     ExtractionResult.pageCount := None;
     ExtractionResult.textLocation := None;
     ExtractionResult.tablesLocation := None;
     ExtractionResult.error := Some "parse_error";
     ExtractionResult.attempt := 1;
     ExtractionResult.extractedAt := "2026-02-20T06:00:00.000Z" |}.

(** A queue row whose payload is not JSON text. *)
Definition garbled : QueueMessage.row :=
  message "m9" "{not json" QueueMessage.pending "2026-02-20T04:00:00.000Z".



(** A runtime number stand-in: a literal without fraction is integral. *)
Definition plain_integers : JsNumber :=
  {| double_is_integer := fun _ exp10 => exp10 >=? 0 |}.

Definition job_record : ExtractJobRecord.t :=
  {| ExtractJobRecord.jobId := "job-2";
     ExtractJobRecord.runId := "run-1";
     ExtractJobRecord.docId := "d6";
     ExtractJobRecord.rawPdfPath := "/r/d6.pdf";
     ExtractJobRecord.fileSha256 := None;
     ExtractJobRecord.attempt := 1;
     ExtractJobRecord.submittedAt := "2026-02-20T00:10:00.000Z" |}.
End Fixtures.

(* ===================================================================== *)
(** * Properties *)
(* ===================================================================== *)

(** ** Bytewise order on TEXT values *)

Lemma ascii_compare_trans_le (a b c : ascii) :
  Ascii.compare a b <> Gt -> Ascii.compare b c <> Gt -> Ascii.compare a c <> Gt.
Proof.
  unfold Ascii.compare. rewrite !N.compare_le_iff. intros; etransitivity; eauto.
Qed.

Lemma ascii_compare_lt_trans (a b c : ascii) :
  Ascii.compare a b = Lt -> Ascii.compare b c = Lt -> Ascii.compare a c = Lt.
Proof.
  unfold Ascii.compare. rewrite !N.compare_lt_iff. intros; etransitivity; eauto.
Qed.

Lemma string_compare_refl (s : string) : String.compare s s = Eq.
Proof.
  induction s as [|a s IH]; simpl; [reflexivity|].
  unfold Ascii.compare. now rewrite N.compare_refl.
Qed.

Lemma string_leb_refl (s : string) : String.leb s s = true.
Proof. unfold String.leb. now rewrite string_compare_refl. Qed.

Lemma string_leb_trans (s1 s2 s3 : string) :
  String.leb s1 s2 = true -> String.leb s2 s3 = true -> String.leb s1 s3 = true.
Proof.
  unfold String.leb. revert s2 s3.
  induction s1 as [|a s1 IH]; intros [|b s2] [|c s3]; simpl; try congruence.
  destruct (Ascii.compare a b) eqn:Eab; try congruence.
  - apply Ascii.compare_eq_iff in Eab; subst b.
    destruct (Ascii.compare a c) eqn:Eac; try congruence. apply IH.
  - destruct (Ascii.compare b c) eqn:Ebc; try congruence.
    + apply Ascii.compare_eq_iff in Ebc; subst c. now rewrite Eab.
    + now rewrite (ascii_compare_lt_trans a b c).
Qed.

Lemma string_ltb_leb_false (s1 s2 : string) :
  String.ltb s1 s2 = false <-> String.leb s2 s1 = true.
Proof.
  unfold String.ltb, String.leb. rewrite (String.compare_antisym s2 s1).
  destruct (String.compare s1 s2); simpl; split; congruence.
Qed.

(** ** The SQL fragment *)

Section SqlFacts.
Context {A : Type}.

Lemma limit_length (n : Z) (rows : list A) :
  0 <= n -> Z.of_nat (length (Sql.limit n rows)) <= n.
Proof.
  intros Hn. unfold Sql.limit. destruct (Z.ltb_spec n 0); [lia|].
  rewrite length_firstn. lia.
Qed.

Lemma limit_all (n : Z) (rows : list A) :
  n < 0 \/ Z.of_nat (length rows) <= n -> Sql.limit n rows = rows.
Proof.
  intros Hn. unfold Sql.limit. destruct (Z.ltb_spec n 0); [reflexivity|].
  apply firstn_all2. lia.
Qed.

Lemma limit_split (n : Z) (rows : list A) :
  exists rest, rows = Sql.limit n rows ++ rest.
Proof.
  unfold Sql.limit. destruct (n <? 0).
  - exists []. now rewrite app_nil_r.
  - exists (skipn (Z.to_nat n) rows). now rewrite firstn_skipn.
Qed.

Lemma limit_incl (n : Z) (rows : list A) (x : A) :
  In x (Sql.limit n rows) -> In x rows.
Proof.
  intros Hin. destruct (limit_split n rows) as [rest E].
  rewrite E. apply in_or_app. now left.
Qed.

Variable key : A -> string.

#[local] Abbreviation key_le := (Sql.key_le key).

Lemma insert_row_perm (r : A) (rows : list A) :
  Permutation (Sql.insert_row key r rows) (r :: rows).
Proof.
  induction rows as [|x rows IH]; simpl; [reflexivity|].
  destruct (String.leb (key r) (key x)); [reflexivity|].
  rewrite IH. apply perm_swap.
Qed.

Lemma order_by_perm (rows : list A) : Permutation (Sql.order_by key rows) rows.
Proof.
  induction rows as [|x rows IH]; simpl; [reflexivity|].
  rewrite insert_row_perm. now constructor.
Qed.

Lemma order_by_In (rows : list A) (x : A) :
  In x (Sql.order_by key rows) <-> In x rows.
Proof.
  split; apply Permutation_in; [|symmetry]; apply order_by_perm.
Qed.

Lemma order_by_length (rows : list A) :
  length (Sql.order_by key rows) = length rows.
Proof. apply Permutation_length, order_by_perm. Qed.

Lemma insert_row_sorted (r : A) (rows : list A) :
  StronglySorted key_le rows -> StronglySorted key_le (Sql.insert_row key r rows).
Proof.
  induction 1 as [|x rows Hs IH Hall]; simpl.
  - repeat constructor.
  - destruct (String.leb (key r) (key x)) eqn:E.
    + constructor; [now constructor|]. constructor; [exact E|].
      rewrite List.Forall_forall in *. intros y Hy.
      unfold Sql.key_le in *. eapply string_leb_trans; [exact E|]. now apply Hall.
    + constructor; [exact IH|].
      rewrite List.Forall_forall. intros y Hy.
      apply (Permutation_in _ (insert_row_perm r rows)) in Hy.
      destruct Hy as [<-|Hy].
      * unfold Sql.key_le. destruct (String.leb_total (key x) (key r)); congruence.
      * rewrite List.Forall_forall in Hall. now apply Hall.
Qed.

Lemma order_by_sorted (rows : list A) :
  StronglySorted key_le (Sql.order_by key rows).
Proof.
  induction rows as [|x rows IH]; simpl; [constructor|].
  now apply insert_row_sorted.
Qed.

Lemma sorted_app_inv (l1 l2 : list A) :
  StronglySorted key_le (l1 ++ l2) ->
  StronglySorted key_le l1 /\ forall a b, In a l1 -> In b l2 -> key_le a b.
Proof.
  induction l1 as [|x l1 IH]; simpl; intros Hs.
  - split; [constructor|contradiction].
  - inversion Hs as [|? ? Hs' Hall]; subst.
    destruct (IH Hs') as [IH1 IH2]. split.
    + constructor; [exact IH1|].
      rewrite List.Forall_forall in *. intros y Hy. apply Hall, in_or_app. now left.
    + intros a b [<-|Ha] Hb.
      * rewrite List.Forall_forall in Hall. apply Hall, in_or_app. now right.
      * now apply IH2.
Qed.

Lemma limit_sorted (n : Z) (rows : list A) :
  StronglySorted key_le rows -> StronglySorted key_le (Sql.limit n rows).
Proof.
  intros Hs. destruct (limit_split n rows) as [rest E].
  rewrite E in Hs. now apply sorted_app_inv in Hs.
Qed.

(** Rows cut off by [LIMIT] sort after every row that is kept. *)
Lemma limit_keeps_least (n : Z) (rows : list A) (kept cut : A) :
  StronglySorted key_le rows ->
  In kept (Sql.limit n rows) -> In cut rows -> ~ In cut (Sql.limit n rows) ->
  key_le kept cut.
Proof.
  intros Hs Hk Hc Hn. destruct (limit_split n rows) as [rest E].
  rewrite E in Hs, Hc. apply sorted_app_inv in Hs as [_ Hle].
  apply in_app_or in Hc as [Hc|Hc]; [contradiction|]. now apply Hle.
Qed.

Lemma update_where_keys (k : string) (set : A -> A) (rows : list A) :
  (forall r, key (set r) = key r) ->
  map key (Sql.update_where key k set rows) = map key rows.
Proof.
  intros Hset. unfold Sql.update_where. rewrite map_map. apply map_ext.
  intros r. destruct (String.eqb (key r) k); [apply Hset|reflexivity].
Qed.

Lemma update_where_length (k : string) (set : A -> A) (rows : list A) :
  length (Sql.update_where key k set rows) = length rows.
Proof. apply length_map. Qed.

Lemma update_where_nth (k : string) (set : A -> A) (rows : list A) (i : nat) :
  nth_error (Sql.update_where key k set rows) i =
  option_map (fun r => if String.eqb (key r) k then set r else r) (nth_error rows i).
Proof. unfold Sql.update_where. apply nth_error_map. Qed.

Lemma get_where_None (k : string) (rows : list A) :
  Sql.get_where key k rows = None <-> ~ In k (map key rows).
Proof.
  unfold Sql.get_where. induction rows as [|x rows IH]; simpl; [tauto|].
  destruct (String.eqb_spec (key x) k) as [E|E].
  - split; [discriminate|]. intros Hn; exfalso; apply Hn; now left.
  - rewrite IH. tauto.
Qed.

Lemma get_where_Some (k : string) (rows : list A) (r : A) :
  Sql.get_where key k rows = Some r -> In r rows /\ key r = k.
Proof.
  unfold Sql.get_where. intros Hf. apply find_some in Hf as [Hin E].
  split; [exact Hin|]. now apply String.eqb_eq.
Qed.

Lemma get_where_unique (rows : list A) (r : A) :
  List.NoDup (map key rows) -> In r rows -> Sql.get_where key (key r) rows = Some r.
Proof.
  unfold Sql.get_where. induction rows as [|x rows IH]; simpl; [contradiction|].
  intros Hnd Hin. inversion Hnd as [|? ? Hx Hnd']; subst.
  destruct (String.eqb_spec (key x) (key r)) as [E|E].
  - destruct Hin as [->|Hin]; [reflexivity|].
    exfalso. apply Hx. rewrite E. now apply in_map.
  - destruct Hin as [->|Hin]; [congruence|]. now apply IH.
Qed.
End SqlFacts.

(** ** The document table *)

Section DocumentFacts.
Import SqliteStore.

Lemma key_unique {A : Type} (key : A -> string) (rows : list A) (a b : A) :
  List.NoDup (map key rows) -> In a rows -> In b rows -> key a = key b -> a = b.
Proof.
  induction rows as [|x rows IH]; simpl; [contradiction|].
  intros Hnd Ha Hb E. inversion Hnd as [|? ? Hx Hnd']; subst.
  destruct Ha as [->|Ha], Hb as [->|Hb]; auto.
  - exfalso. apply Hx. rewrite E. now apply in_map.
  - exfalso. apply Hx. rewrite <- E. now apply in_map.
Qed.

Lemma bump_attempts_ge (attempt stored : Z) : stored <= bump_attempts attempt stored.
Proof.
  unfold bump_attempts. rewrite Z.gtb_ltb.
  destruct (Z.ltb_spec stored attempt); lia.
Qed.

Lemma is_status_iff (s : Document.status_t) (d : Document.row) :
  is_status s d = true <-> Document.lastStatus d = Some s.
Proof.
  unfold is_status. destruct (Document.lastStatus d) as [s'|].
  - destruct s', s; simpl; split; congruence.
  - split; congruence.
Qed.

Lemma is_null_iff {A : Type} (x : option A) : is_null x = true <-> x = None.
Proof. destruct x; simpl; split; congruence. Qed.

Lemma pending_download_iff (maxAttempts : Z) (d : Document.row) :
  pending_download maxAttempts d = true <-> eligible_for_download maxAttempts d.
Proof.
  unfold pending_download, eligible_for_download, error_not_404.
  rewrite andb_true_iff, !orb_true_iff, !andb_true_iff, !orb_true_iff.
  rewrite !is_status_iff, !is_null_iff, Z.ltb_lt.
  destruct (Document.error d) as [e|].
  - rewrite negb_true_iff. split.
    + intros [[[[Hs|[Hs He]]|[Hs Hn]]|Hs] Ha]; split; eauto 8.
    + intros [Hc Ha]; split; [|exact Ha].
      destruct Hc as [Hs|[Hs|[[Hs [He|(e' & Ee & He)]]|[Hs Hn]]]];
        [tauto|tauto|discriminate|injection Ee as <-; tauto|tauto].
  - split.
    + intros [[[[Hs|[Hs He]]|[Hs Hn]]|Hs] Ha]; split; auto 8.
    + intros [Hc Ha]; split; [|exact Ha].
      destruct Hc as [Hs|[Hs|[[Hs He]|[Hs Hn]]]]; tauto.
Qed.

Lemma pending_download_rows_In (lim maxAttempts : Z) (db : t) (d : Document.row) :
  In d (pending_download_rows lim false maxAttempts db) ->
  In d (documents db) /\ pending_download maxAttempts d = true.
Proof.
  unfold pending_download_rows. intros Hin.
  apply limit_incl, order_by_In, filter_In in Hin. exact Hin.
Qed.

Lemma pending_download_rows_all (lim maxAttempts : Z) (db : t) (d : Document.row) :
  lim < 0
  \/ Z.of_nat (length (List.filter (pending_download maxAttempts) (documents db))) <= lim ->
  In d (documents db) -> pending_download maxAttempts d = true ->
  In d (pending_download_rows lim false maxAttempts db).
Proof.
  unfold pending_download_rows. intros Hlim Hin Hp.
  rewrite limit_all by (now rewrite order_by_length).
  apply order_by_In, filter_In. now split.
Qed.
(** [docId] stays a key of table [documents] under every operation. *)
Lemma apply_keeps_primary_key (op : operation) (db : t) :
  List.NoDup (map Document.docId (documents db)) ->
  List.NoDup (map Document.docId (documents (apply op db))).
Proof.
  intros Hnd.
  destruct op as [now item|r|r|id chk e lm|id chk e lm|id chk]; simpl;
    try (rewrite update_where_keys; [exact Hnd|reflexivity]).
  unfold upsertDiscovered.
  destruct (Sql.get_where _ _ _) eqn:Hget; simpl.
  - rewrite update_where_keys; [exact Hnd|reflexivity].
  - apply get_where_None in Hget. rewrite map_app. simpl.
    apply List.NoDup_app; [exact Hnd|repeat constructor; simpl; tauto|].
    intros a Ha [<-|[]]. contradiction.
Qed.
End DocumentFacts.

Section DocumentTheorems.
Import SqliteStore.

(** C4. Every store operation leaves each stored document in its row
    with attempt counters at least as large as before;
    [markDownloadResult] stores the result's attempt number when it
    exceeds the stored counter and the stored counter plus one otherwise,
    and [markExtractionResult] does the same for [attemptsExtract]. *)
Theorem attempts_never_decrease (op : operation) (db : t) (i : nat)
    (d : Document.row) :
  nth_error (documents db) i = Some d ->
  exists d',
    nth_error (documents (apply op db)) i = Some d'
    /\ Document.docId d' = Document.docId d
    /\ Document.attemptsDownload d <= Document.attemptsDownload d'
    /\ Document.attemptsExtract d <= Document.attemptsExtract d'
    /\ (forall r, op = MarkDownloadResult r ->
          DownloadResult.docId r = Document.docId d ->
          Document.attemptsDownload d' =
            if DownloadResult.attempt r >? Document.attemptsDownload d
            then DownloadResult.attempt r
            else Document.attemptsDownload d + 1)
    /\ (forall r, op = MarkExtractionResult r ->
          ExtractionResult.docId r = Document.docId d ->
          Document.attemptsExtract d' =
            if ExtractionResult.attempt r >? Document.attemptsExtract d
            then ExtractionResult.attempt r
            else Document.attemptsExtract d + 1).
Proof.
  intros Hd.
  assert (Hupd : forall k set,
    nth_error (Sql.update_where Document.docId k set (documents db)) i =
    Some (if String.eqb (Document.docId d) k then set d else d)).
  { intros k set. now rewrite update_where_nth, Hd. }
  destruct op as [now item|r|r|id chk e lm|id chk e lm|id chk]; simpl.
  - unfold upsertDiscovered.
    destruct (Sql.get_where _ _ _); simpl.
    + rewrite Hupd. eexists; split; [reflexivity|].
      destruct (String.eqb _ _); simpl; repeat split; try lia; discriminate.
    + exists d. rewrite nth_error_app1 by (apply nth_error_Some; congruence).
      repeat split; try lia; try assumption; discriminate.
  - rewrite Hupd. eexists; split; [reflexivity|].
    destruct (String.eqb_spec (Document.docId d) (DownloadResult.docId r)) as [E|E];
      simpl; repeat split; try lia; try discriminate.
    + apply bump_attempts_ge.
    + intros r' [= <-] _. reflexivity.
    + intros r' [= <-] E'. congruence.
  - rewrite Hupd. eexists; split; [reflexivity|].
    destruct (String.eqb_spec (Document.docId d) (ExtractionResult.docId r)) as [E|E];
      simpl; repeat split; try lia; try discriminate.
    + apply bump_attempts_ge.
    + intros r' [= <-] _. reflexivity.
    + intros r' [= <-] E'. congruence.
  - rewrite Hupd. eexists; split; [reflexivity|].
    destruct (String.eqb _ _); simpl; repeat split; try lia; discriminate.
  - rewrite Hupd. eexists; split; [reflexivity|].
    destruct (String.eqb _ _); simpl; repeat split; try lia; discriminate.
  - rewrite Hupd. eexists; split; [reflexivity|].
    destruct (String.eqb _ _); simpl; repeat split; try lia; discriminate.
Qed.

(** C8 (as amended). [upsertDiscovered] on a [docId] that is already
    stored adds no row and changes only that row: [url], [title],
    [year], [month], [sourcePageUrl], [lastSeenAt] and [updatedAt] are
    refreshed; [firstSeenAt], [lastStatus] (whatever it was, [NULL]
    included) and every download and extraction field stay as they were.
    On a new [docId] one row with [lastStatus = 'discovered'] is
    appended.  Table [extract_jobs] is untouched. *)
Theorem upsertDiscovered_frame (now : string) (item : DocumentDiscoveredItem.t)
    (db : t) :
  let db' := upsertDiscovered now item db in
  extract_jobs db' = extract_jobs db
  /\ (In (DocumentDiscoveredItem.docId item) (map Document.docId (documents db)) ->
      length (documents db') = length (documents db)
      /\ forall i d, nth_error (documents db) i = Some d ->
           exists d',
             nth_error (documents db') i = Some d'
             /\ (Document.docId d <> DocumentDiscoveredItem.docId item -> d' = d)
             /\ (Document.docId d = DocumentDiscoveredItem.docId item ->
                 Document.url d' = DocumentDiscoveredItem.url item
                 /\ Document.title d' = DocumentDiscoveredItem.title item
                 /\ Document.year d' = DocumentDiscoveredItem.year item
                 /\ Document.month d' = DocumentDiscoveredItem.month item
                 /\ Document.sourcePageUrl d' = DocumentDiscoveredItem.sourcePageUrl item
                 /\ Document.lastSeenAt d' =
                      (if String.eqb (DocumentDiscoveredItem.discoveredAt item) ""
                       then now else DocumentDiscoveredItem.discoveredAt item)
                 /\ Document.updatedAt d' = now
                 /\ Document.docId d' = Document.docId d
                 /\ Document.firstSeenAt d' = Document.firstSeenAt d
                 /\ Document.lastStatus d' = Document.lastStatus d
                 /\ Document.sha256 d' = Document.sha256 d
                 /\ Document.bytes d' = Document.bytes d
                 /\ Document.contentType d' = Document.contentType d
                 /\ Document.rawLocation d' = Document.rawLocation d
                 /\ Document.extractedTextLocation d' = Document.extractedTextLocation d
                 /\ Document.extractedTablesLocation d' = Document.extractedTablesLocation d
                 /\ Document.error d' = Document.error d
                 /\ Document.etag d' = Document.etag d
                 /\ Document.lastModified d' = Document.lastModified d
                 /\ Document.lastCheckedAt d' = Document.lastCheckedAt d
                 /\ Document.lastDownloadAt d' = Document.lastDownloadAt d
                 /\ Document.attemptsDownload d' = Document.attemptsDownload d
                 /\ Document.attemptsExtract d' = Document.attemptsExtract d))
  /\ (~ In (DocumentDiscoveredItem.docId item) (map Document.docId (documents db)) ->
      exists d',
        documents db' = documents db ++ [d']
        /\ Document.docId d' = DocumentDiscoveredItem.docId item
        /\ Document.lastStatus d' = Some Document.discovered
        /\ Document.firstSeenAt d' = DocumentDiscoveredItem.discoveredAt item
        /\ Document.attemptsDownload d' = 0
        /\ Document.attemptsExtract d' = 0).
Proof.
  intros db'. subst db'. unfold upsertDiscovered.
  destruct (Sql.get_where Document.docId _ (documents db)) as [hit|] eqn:Hget;
    simpl in *.
  - split; [reflexivity|]. split.
    + intros _. split; [apply update_where_length|].
      intros i d Hd. rewrite update_where_nth, Hd. simpl.
      eexists; split; [reflexivity|].
      destruct (String.eqb_spec (Document.docId d) (DocumentDiscoveredItem.docId item))
        as [E|E].
      * split; [congruence|]. intros _. simpl. unfold or_else. repeat split.
      * split; [reflexivity|congruence].
    + intros Hn. apply get_where_None in Hn. simpl in Hn. congruence.
  - split; [reflexivity|]. split.
    + intros Hin. apply get_where_None in Hget. contradiction.
    + intros _. eexists; split; [reflexivity|]. simpl. repeat split.
Qed.

(** C2 (as amended). Without [force], [listPendingDownloads] returns the
    projection of rows that are stored, satisfy the eligibility clause
    (in which the 404 marker is matched as SQLite's LIKE does, ignoring
    ASCII case) and are ordered by [updatedAt] ascending; it returns at
    most [lim] of them when [lim >= 0]; every eligible document is
    returned when [lim] is negative or at least the number of eligible
    documents; and an eligible document that is cut off is not older
    than any returned one. *)
Theorem listPendingDownloads_eligible_oldest_first (lim maxAttempts : Z) (db : t) :
  let rows := pending_download_rows lim false maxAttempts db in
  listPendingDownloads lim false maxAttempts db = map download_work_item rows
  /\ (forall d, In d rows ->
        In d (documents db) /\ eligible_for_download maxAttempts d)
  /\ StronglySorted (Sql.key_le Document.updatedAt) rows
  /\ (0 <= lim -> Z.of_nat (length rows) <= lim)
  /\ (forall d,
        lim < 0
        \/ Z.of_nat (length (List.filter (pending_download maxAttempts) (documents db)))
           <= lim ->
        In d (documents db) -> eligible_for_download maxAttempts d -> In d rows)
  /\ (forall kept cut,
        In kept rows -> In cut (documents db) ->
        eligible_for_download maxAttempts cut -> ~ In cut rows ->
        String.leb (Document.updatedAt kept) (Document.updatedAt cut) = true).
Proof.
  intros rows. subst rows. split; [reflexivity|]. split; [|split; [|split; [|split]]].
  - intros d Hin. apply pending_download_rows_In in Hin as [Hin Hp].
    split; [exact Hin|]. now apply pending_download_iff.
  - apply limit_sorted, order_by_sorted.
  - apply limit_length.
  - intros d Hlim Hin He. apply pending_download_rows_all; auto.
    now apply pending_download_iff.
  - intros kept cut Hk Hc He Hn. unfold pending_download_rows in *.
    eapply (limit_keeps_least Document.updatedAt); eauto using order_by_sorted.
    apply order_by_In, filter_In. split; [exact Hc|]. now apply pending_download_iff.
Qed.

(** C3 (as amended). A stored document with [lastStatus = 'downloaded_ok']
    and both [sha256] and [rawLocation] set is not returned by non-force
    [listPendingDownloads].  [markRemoteChanged] sets its [lastStatus] to
    ['discovered'] and its [error] to ['remote_changed'] and leaves
    [attemptsDownload] as it was; afterwards the document is returned
    provided its [attemptsDownload] is below [maxAttempts] (and [lim]
    does not cut it off). *)
Theorem markRemoteChanged_reopens_download (lim maxAttempts : Z) (db : t)
    (d : Document.row) (checkedAt : string) (etag lastModified : option string) :
  List.NoDup (map Document.docId (documents db)) ->
  In d (documents db) ->
  Document.lastStatus d = Some Document.downloaded_ok ->
  Document.sha256 d <> None ->
  Document.rawLocation d <> None ->
  let db' := markRemoteChanged (Document.docId d) checkedAt etag lastModified db in
  ~ In (Document.docId d)
      (map DownloadWorkItem.docId (listPendingDownloads lim false maxAttempts db))
  /\ (exists d',
        In d' (documents db')
        /\ Document.docId d' = Document.docId d
        /\ Document.lastStatus d' = Some Document.discovered
        /\ Document.error d' = Some "remote_changed"%string
        /\ Document.attemptsDownload d' = Document.attemptsDownload d)
  /\ (Document.attemptsDownload d < maxAttempts ->
      lim < 0 \/ Z.of_nat (length (documents db)) <= lim ->
      In (Document.docId d)
        (map DownloadWorkItem.docId (listPendingDownloads lim false maxAttempts db'))).
Proof.
  intros Hnd Hin Hs Hsha Hraw db'.
  assert (Hd' : In (set_remote_changed checkedAt etag lastModified d) (documents db')).
  { subst db'. unfold markRemoteChanged, Sql.update_where. simpl.
    apply in_map_iff. exists d. now rewrite String.eqb_refl. }
  split; [|split].
  - unfold listPendingDownloads.
    intros Hm. apply in_map_iff in Hm as (w & Ex & Hw).
    apply in_map_iff in Hw as (x & <- & Hx). simpl in Ex.
    apply pending_download_rows_In in Hx as [Hx Hp].
    assert (x = d) by (eapply key_unique; eauto). subst x.
    apply pending_download_iff in Hp as [[H|[H|[[H _]|[_ [H|H]]]]] _]; congruence.
  - eexists; split; [exact Hd'|]. simpl. repeat split.
  - intros Ha Hlim. unfold listPendingDownloads.
    apply in_map_iff.
    exists (download_work_item (set_remote_changed checkedAt etag lastModified d)).
    split; [reflexivity|]. apply in_map.
    apply pending_download_rows_all; [| exact Hd' |].
    + destruct Hlim as [Hlim|Hlim]; [now left|right].
      pose proof (filter_length_le (pending_download maxAttempts) (documents db')) as Hle.
      subst db'. unfold markRemoteChanged in *. simpl in *.
      rewrite update_where_length in Hle. lia.
    + apply pending_download_iff. split; [|exact Ha]. right; left. reflexivity.
Qed.
End DocumentTheorems.

(** ** The extract job table *)

Section ExtractJobFacts.
Import SqliteStore.

Lemma lease_rows_spec (leaseUntil : string) (rows table : list ExtractJob.row) :
  lease_rows leaseUntil rows table =
  map (fun j =>
         if existsb (fun row => String.eqb (ExtractJob.jobId j) (ExtractJob.jobId row)) rows
         then set_leased leaseUntil j else j)
      table.
Proof.
  unfold lease_rows. revert table.
  induction rows as [|row rows IH]; intros table; simpl.
  - symmetry. apply map_id.
  - rewrite IH. unfold Sql.update_where. rewrite map_map. apply map_ext.
    intros j. destruct (String.eqb (ExtractJob.jobId j) (ExtractJob.jobId row)); simpl.
    + now destruct (existsb _ rows).
    + reflexivity.
Qed.

Lemma claim_fst (now : string) (lim : Z) (leaseUntil : string) (db : t) :
  fst (claimPendingExtractJobs now lim leaseUntil db) =
  map (claimed_job leaseUntil) (claim_rows now lim db).
Proof.
  unfold claimPendingExtractJobs. now destruct (claim_rows now lim db).
Qed.

Lemma claim_snd (now : string) (lim : Z) (leaseUntil : string) (db : t) :
  extract_jobs (snd (claimPendingExtractJobs now lim leaseUntil db)) =
  lease_rows leaseUntil (claim_rows now lim db) (extract_jobs db).
Proof.
  unfold claimPendingExtractJobs. now destruct (claim_rows now lim db).
Qed.

Lemma claim_rows_In (now : string) (lim : Z) (db : t) (j : ExtractJob.row) :
  In j (claim_rows now lim db) -> In j (extract_jobs db) /\ claimable now j = true.
Proof.
  unfold claim_rows. intros Hin.
  now apply limit_incl, order_by_In, filter_In in Hin.
Qed.

Lemma claimable_iff (now : string) (j : ExtractJob.row) :
  claimable now j = true <->
  ExtractJob.status j = ExtractJob.queued
  \/ (ExtractJob.status j = ExtractJob.leased
      /\ exists l, ExtractJob.leaseUntil j = Some l /\ String.ltb l now = true).
Proof.
  unfold claimable.
  destruct (ExtractJob.status j); [|destruct (ExtractJob.leaseUntil j) as [l|]| |];
    split; intros Hc; auto; try discriminate;
    try (destruct Hc as [Hc|[Hc _]]; discriminate).
  - right. split; [reflexivity|]. now exists l.
  - destruct Hc as [Hc|[_ (l' & [= <-] & Hl)]]; [discriminate|exact Hl].
  - destruct Hc as [Hc|[_ (l' & Hl & _)]]; discriminate.
Qed.

(** C1. Every job returned by [claimPendingExtractJobs] was stored as
    ['queued'], or as ['leased'] with a [leaseUntil] strictly before the
    clock reading of the call; it is returned with the new [leaseUntil],
    and its row is afterwards ['leased'] until the new [leaseUntil].  A
    following call whose clock reading is not past that [leaseUntil]
    does not return the job; for one whose clock reading is past it the
    row satisfies the claim query again, and the job is returned unless
    the limit cuts it off.  The call adds and removes no row, so each
    [jobId] keeps its single row. *)
Theorem claimPendingExtractJobs_lease_exclusive (now : string) (lim : Z)
    (leaseUntil : string) (db : t) (c : ClaimedExtractJob.t) :
  In c (fst (claimPendingExtractJobs now lim leaseUntil db)) ->
  let db' := snd (claimPendingExtractJobs now lim leaseUntil db) in
  (exists j,
      In j (extract_jobs db)
      /\ ExtractJob.jobId j = ClaimedExtractJob.jobId c
      /\ (ExtractJob.status j = ExtractJob.queued
          \/ (ExtractJob.status j = ExtractJob.leased
              /\ exists l, ExtractJob.leaseUntil j = Some l
                           /\ String.ltb l now = true)))
  /\ ClaimedExtractJob.leaseUntil c = leaseUntil
  /\ (exists j', In j' (extract_jobs db')
                 /\ ExtractJob.jobId j' = ClaimedExtractJob.jobId c)
  /\ (forall j', In j' (extract_jobs db') ->
        ExtractJob.jobId j' = ClaimedExtractJob.jobId c ->
        ExtractJob.status j' = ExtractJob.leased
        /\ ExtractJob.leaseUntil j' = Some leaseUntil)
  /\ (forall now2 lim2 leaseUntil2,
        String.ltb leaseUntil now2 = false ->
        ~ In (ClaimedExtractJob.jobId c)
            (map ClaimedExtractJob.jobId
               (fst (claimPendingExtractJobs now2 lim2 leaseUntil2 db'))))
  /\ (forall now2 lim2 leaseUntil2,
        String.ltb leaseUntil now2 = true ->
        lim2 < 0 \/ Z.of_nat (length (extract_jobs db')) <= lim2 ->
        In (ClaimedExtractJob.jobId c)
          (map ClaimedExtractJob.jobId
             (fst (claimPendingExtractJobs now2 lim2 leaseUntil2 db'))))
  /\ (forall now2 j',
        String.ltb leaseUntil now2 = true ->
        In j' (extract_jobs db') ->
        ExtractJob.jobId j' = ClaimedExtractJob.jobId c ->
        claimable now2 j' = true)
  /\ map ExtractJob.jobId (extract_jobs db') = map ExtractJob.jobId (extract_jobs db)
  /\ documents db' = documents db.
Proof.
  intros Hc db'. rewrite claim_fst in Hc.
  apply in_map_iff in Hc as (j & <- & Hj).
  pose proof (claim_rows_In _ _ _ _ Hj) as [Hin Hcl].
  assert (Hjobs : extract_jobs db' =
            map (fun r =>
                   if existsb (fun row => String.eqb (ExtractJob.jobId r) (ExtractJob.jobId row))
                        (claim_rows now lim db)
                   then set_leased leaseUntil r else r) (extract_jobs db)).
  { subst db'. now rewrite claim_snd, lease_rows_spec. }
  assert (Hsel : forall r, ExtractJob.jobId r = ExtractJob.jobId j ->
            existsb (fun row => String.eqb (ExtractJob.jobId r) (ExtractJob.jobId row))
              (claim_rows now lim db) = true).
  { intros r E. apply existsb_exists. exists j. split; [exact Hj|].
    now apply String.eqb_eq. }
  assert (Hleased : forall j', In j' (extract_jobs db') ->
            ExtractJob.jobId j' = ExtractJob.jobId j ->
            ExtractJob.status j' = ExtractJob.leased
            /\ ExtractJob.leaseUntil j' = Some leaseUntil).
  { intros j' Hj' E. rewrite Hjobs in Hj'.
    apply in_map_iff in Hj' as (r & Er & Hr).
    destruct (existsb _ _) eqn:Ex in Er; subst j'; simpl in *; [now split|].
    rewrite (Hsel r E) in Ex. discriminate. }
  assert (Hkept : In (set_leased leaseUntil j) (extract_jobs db')).
  { rewrite Hjobs. apply in_map_iff. exists j. split; [|exact Hin].
    now rewrite (Hsel j eq_refl). }
  simpl. repeat split.
  - exists j. split; [exact Hin|]. split; [reflexivity|]. now apply claimable_iff.
  - exists (set_leased leaseUntil j). now split.
  - now apply Hleased.
  - now apply Hleased.
  - intros now2 lim2 leaseUntil2 Hnot Hm. rewrite claim_fst, map_map in Hm.
    apply in_map_iff in Hm as (j2 & E2 & Hj2). simpl in E2.
    apply claim_rows_In in Hj2 as [Hin2 Hcl2].
    destruct (Hleased j2 Hin2 E2) as [Hst Hlu].
    unfold claimable in Hcl2. rewrite Hst, Hlu in Hcl2. congruence.
  - intros now2 lim2 leaseUntil2 Hexp Hlim. rewrite claim_fst, map_map.
    apply in_map_iff. exists (set_leased leaseUntil j). split; [reflexivity|].
    unfold claim_rows. rewrite limit_all.
    + apply order_by_In, filter_In. split; [exact Hkept|]. exact Hexp.
    + destruct Hlim as [Hlim|Hlim]; [now left|right].
      rewrite order_by_length.
      pose proof (filter_length_le (claimable now2) (extract_jobs db')). lia.
  - intros now2 j' Hexp Hj' E. destruct (Hleased j' Hj' E) as [Hst Hlu].
    unfold claimable. now rewrite Hst, Hlu.
  - rewrite Hjobs, map_map. apply map_ext. intros r. now destruct (existsb _ _).
  - subst db'. unfold claimPendingExtractJobs. now destruct (claim_rows now lim db).
Qed.

(** *** enqueueExtractJob *)

Lemma enqueue_existing (job : ExtractJobRecord.t) (db : t) :
  In (ExtractJobRecord.jobId job) (map ExtractJob.jobId (extract_jobs db)) ->
  enqueueExtractJob job db = db.
Proof.
  intros Hin. unfold enqueueExtractJob.
  destruct (Sql.get_where _ _ _) eqn:Hget; [reflexivity|].
  apply get_where_None in Hget. contradiction.
Qed.

Lemma enqueue_documents (job : ExtractJobRecord.t) (db : t) :
  documents (enqueueExtractJob job db) = documents db.
Proof. unfold enqueueExtractJob. now destruct (Sql.get_where _ _ _). Qed.

Lemma enqueue_extends (job : ExtractJobRecord.t) (db : t) :
  exists added,
    extract_jobs (enqueueExtractJob job db) = extract_jobs db ++ added
    /\ (added = [] \/ added = [queued_row job])
    /\ In (ExtractJobRecord.jobId job)
         (map ExtractJob.jobId (extract_jobs (enqueueExtractJob job db))).
Proof.
  unfold enqueueExtractJob.
  destruct (Sql.get_where _ _ _) as [hit|] eqn:Hget.
  - exists []. rewrite app_nil_r. repeat split; auto.
    apply get_where_Some in Hget as [Hin <-]. now apply in_map.
  - exists [queued_row job]. simpl. repeat split; auto.
    rewrite map_app. apply in_or_app. right. now left.
Qed.

Lemma enqueue_NoDup (job : ExtractJobRecord.t) (db : t) :
  List.NoDup (map ExtractJob.jobId (extract_jobs db)) ->
  List.NoDup (map ExtractJob.jobId (extract_jobs (enqueueExtractJob job db))).
Proof.
  intros Hnd. unfold enqueueExtractJob.
  destruct (Sql.get_where _ _ _) as [hit|] eqn:Hget; [exact Hnd|].
  apply get_where_None in Hget. simpl. rewrite map_app. simpl.
  apply List.NoDup_app; [exact Hnd|repeat constructor; simpl; tauto|].
  intros a Ha [<-|[]]. contradiction.
Qed.
End ExtractJobFacts.

(** ** The asynchronous extraction orchestrator *)

Section OrchestratorFacts.
Import SqliteStore AsyncExtract.
Context `{Sha256} {Q : Type} `{AsyncTableQueue Q}.

Lemma find_app_l {A : Type} (f : A -> bool) (l1 l2 : list A) (x : A) :
  find f l1 = Some x -> find f (l1 ++ l2) = Some x.
Proof.
  induction l1 as [|y l1 IH]; simpl; [discriminate|].
  destruct (f y); auto.
Qed.

Lemma one_row_per_key {A : Type} (key : A -> string) (rows : list A) (k : string) :
  List.NoDup (map key rows) -> In k (map key rows) ->
  length (List.filter (fun r => String.eqb (key r) k) rows) = 1%nat.
Proof.
  induction rows as [|x rows IH]; simpl; [contradiction|].
  intros Hnd Hin. inversion Hnd as [|? ? Hx Hnd']; subst.
  destruct (String.eqb_spec (key x) k) as [E|E].
  - simpl. f_equal. apply length_zero_iff_nil.
    destruct (List.filter _ rows) as [|y ys] eqn:Ef; [reflexivity|].
    assert (Hy : In y (List.filter (fun r => String.eqb (key r) k) rows))
      by (rewrite Ef; now left).
    apply filter_In in Hy as [Hy Ey]. apply String.eqb_eq in Ey.
    exfalso. apply Hx. rewrite E, <- Ey. now apply in_map.
  - destruct Hin as [Hin|Hin]; [contradiction|]. now apply IH.
Qed.

Lemma substring_0_length (n : nat) (s : string) :
  (String.length (String.substring 0 n s) <= n)%nat.
Proof.
  revert s. induction n as [|n IH]; intros [|c s]; simpl; try lia.
  specialize (IH s). lia.
Qed.

Lemma submit_item_jobs (runId submittedAt : string) (item : ExtractWorkItem.t)
    (st : SqliteStore.t * Q) :
  let st' := submit_item runId submittedAt item st in
  documents (fst st') = documents (fst st)
  /\ (exists added, extract_jobs (fst st') = extract_jobs (fst st) ++ added)
  /\ In (createExtractJobId (ExtractWorkItem.docId item) (ExtractWorkItem.rawLocation item))
       (map ExtractJob.jobId (extract_jobs (fst st')))
  /\ (List.NoDup (map ExtractJob.jobId (extract_jobs (fst st))) ->
      List.NoDup (map ExtractJob.jobId (extract_jobs (fst st')))).
Proof.
  unfold submit_item. simpl. split; [apply enqueue_documents|].
  destruct (enqueue_extends
    {| ExtractJobRecord.jobId :=
         createExtractJobId (ExtractWorkItem.docId item) (ExtractWorkItem.rawLocation item);
       ExtractJobRecord.runId := runId;
       ExtractJobRecord.docId := ExtractWorkItem.docId item;
       ExtractJobRecord.rawPdfPath := ExtractWorkItem.rawLocation item;
       ExtractJobRecord.fileSha256 := None;
       ExtractJobRecord.attempt := ExtractWorkItem.attempt item;
       ExtractJobRecord.submittedAt := submittedAt |} (fst st))
    as (added & E & _ & Hin).
  split; [now exists added|]. split; [exact Hin|]. apply enqueue_NoDup.
Qed.

Lemma submit_items_jobs (runId : string) (clock : nat -> string)
    (pending : list ExtractWorkItem.t) :
  forall (i : nat) (st : SqliteStore.t * Q),
    let st' := submit_items runId clock i pending st in
    documents (fst st') = documents (fst st)
    /\ (exists added, extract_jobs (fst st') = extract_jobs (fst st) ++ added)
    /\ (forall item, In item pending ->
          In (createExtractJobId (ExtractWorkItem.docId item)
                (ExtractWorkItem.rawLocation item))
             (map ExtractJob.jobId (extract_jobs (fst st'))))
    /\ (List.NoDup (map ExtractJob.jobId (extract_jobs (fst st))) ->
        List.NoDup (map ExtractJob.jobId (extract_jobs (fst st')))).
Proof.
  induction pending as [|item rest IH]; intros i st; simpl.
  - repeat split; auto; [exists []; now rewrite app_nil_r|contradiction].
  - destruct (submit_item_jobs runId (clock i) item st) as (Hd & (a1 & Ha1) & Hin1 & Hnd1).
    destruct (IH (S i) (submit_item runId (clock i) item st))
      as (Hd' & (a2 & Ha2) & Hin2 & Hnd2).
    split; [congruence|]. split; [|split].
    + exists (a1 ++ a2). now rewrite Ha2, Ha1, app_assoc.
    + intros it [<-|Hit]; [|now apply Hin2].
      rewrite Ha2, map_app. apply in_or_app. now left.
    + auto.
Qed.

(** C7. The [jobId] of a pair [(docId, rawPdfPath)] is a function of the
    pair, at most 24 characters of its digest.  Once [submitExtractJobs]
    has covered the pair, table [extract_jobs] holds exactly one row
    under that [jobId], and a second [submitExtractJobs], whatever
    its run id, clock or arguments, leaves that row as the first call
    stored it.  Submitting does not change table [documents], so a
    second call with the same arguments covers the same pairs. *)
Theorem submitExtractJobs_idempotent
    (runId1 runId2 : string) (force1 force2 : option bool)
    (lim1 lim2 max1 max2 : Z) (clock1 clock2 : nat -> string)
    (st0 : SqliteStore.t * Q) (item : ExtractWorkItem.t) :
  List.NoDup (map ExtractJob.jobId (extract_jobs (fst st0))) ->
  In item
    (listPendingExtracts lim1 (match force1 with Some b => b | None => false end)
       max1 (fst st0)) ->
  let st1 := snd (submitExtractJobs runId1 force1 lim1 max1 clock1 st0) in
  let st2 := snd (submitExtractJobs runId2 force2 lim2 max2 clock2 st1) in
  let jobId :=
    createExtractJobId (ExtractWorkItem.docId item) (ExtractWorkItem.rawLocation item) in
  documents (fst st1) = documents (fst st0)
  /\ (String.length jobId <= 24)%nat
  /\ exists row,
       getExtractJob jobId (fst st1) = Some row
       /\ getExtractJob jobId (fst st2) = Some row
       /\ ExtractJob.jobId row = jobId
       /\ length (List.filter (fun j => String.eqb (ExtractJob.jobId j) jobId)
                    (extract_jobs (fst st1))) = 1%nat
       /\ length (List.filter (fun j => String.eqb (ExtractJob.jobId j) jobId)
                    (extract_jobs (fst st2))) = 1%nat.
Proof.
  intros Hnd Hitem st1 st2 jobId. unfold submitExtractJobs in st1, st2.
  simpl in st1, st2.
  destruct (submit_items_jobs runId1 clock1
              (listPendingExtracts lim1
                 (match force1 with Some b => b | None => false end) max1 (fst st0))
              0%nat st0) as (Hd1 & _ & Hin1 & Hnd1).
  fold st1 in Hd1, Hin1, Hnd1.
  destruct (submit_items_jobs runId2 clock2
              (listPendingExtracts lim2
                 (match force2 with Some b => b | None => false end) max2 (fst st1))
              0%nat st1) as (_ & (added & Ha2) & _ & Hnd2).
  fold st2 in Ha2, Hnd2.
  specialize (Hin1 item Hitem). fold jobId in Hin1.
  split; [exact Hd1|]. split; [apply substring_0_length|].
  destruct (getExtractJob jobId (fst st1)) as [row|] eqn:Hget.
  - exists row. unfold getExtractJob in *. split; [reflexivity|].
    split; [|split; [|split]].
    + rewrite Ha2. unfold Sql.get_where in *. now apply find_app_l.
    + now apply get_where_Some in Hget.
    + apply one_row_per_key; auto.
    + apply one_row_per_key; auto.
      rewrite Ha2, map_app. apply in_or_app. now left.
  - unfold getExtractJob in Hget. apply get_where_None in Hget. contradiction.
Qed.
End OrchestratorFacts.

Section CollectFacts.
Import SqliteStore AsyncExtract.
Context `{Sha256} {Q : Type} `{AsyncTableQueue Q}.

(** One iteration of the loop of [collectExtractResults] on a message
    whose [jobId] names a stored extract job: what becomes of the
    document and the job it names, and of the counters; a ["no_tables"]
    message has exactly the effect of the same message with status
    ["ok"]. *)
Lemma collect_message_effect (queued : QueuedExtractResult.t)
    (db : SqliteStore.t) (q : Q) (s : summary) (job : ExtractJob.row) :
  getExtractJob (ExtractResultMessageV1.jobId (QueuedExtractResult.message queued)) db
    = Some job ->
  let message := QueuedExtractResult.message queued in
  let st' := collect_message queued (db, q, s) in
  let db' := fst (fst st') in
  let s' := snd st' in
  (ExtractResultMessageV1.status message <> ExtractResultMessageV1.failed ->
     (forall i d, nth_error (documents db) i = Some d ->
        Document.docId d = ExtractResultMessageV1.docId message ->
        exists d',
          nth_error (documents db') i = Some d'
          /\ Document.lastStatus d' = Some Document.extracted_ok
          /\ Document.extractedTablesLocation d' =
               match ExtractResultMessageV1.tablesLocation message with
               | Some location => Some location
               | None => Document.extractedTablesLocation d
               end)
     /\ (forall i j, nth_error (extract_jobs db) i = Some j ->
           ExtractJob.jobId j = ExtractResultMessageV1.jobId message ->
           exists j',
             nth_error (extract_jobs db') i = Some j'
             /\ ExtractJob.status j' = ExtractJob.completed)
     /\ processed s' = processed s + 1
     /\ ok s' = ok s + 1
     /\ failed s' = failed s)
  /\ (ExtractResultMessageV1.status message = ExtractResultMessageV1.failed ->
     (forall i d, nth_error (documents db) i = Some d ->
        Document.docId d = ExtractResultMessageV1.docId message ->
        exists d',
          nth_error (documents db') i = Some d'
          /\ Document.lastStatus d' = Some Document.extracted_failed)
     /\ (forall i j, nth_error (extract_jobs db) i = Some j ->
           ExtractJob.jobId j = ExtractResultMessageV1.jobId message ->
           exists j',
             nth_error (extract_jobs db') i = Some j'
             /\ ExtractJob.status j' = ExtractJob.failed)
     /\ processed s' = processed s + 1
     /\ ok s' = ok s
     /\ failed s' = failed s + 1)
  /\ (forall st,
        collect_message
          (QueuedExtractResult.mk (QueuedExtractResult.queueMessageId queued)
             (ExtractResultMessageV1.with_status ExtractResultMessageV1.no_tables message))
          st =
        collect_message
          (QueuedExtractResult.mk (QueuedExtractResult.queueMessageId queued)
             (ExtractResultMessageV1.with_status ExtractResultMessageV1.ok message))
          st).
Proof.
  intros Hjob message st' db' s'.
  subst st' db' s'. unfold collect_message. rewrite Hjob. fold message. simpl.
  unfold markExtractionResult, completeExtractJob, mapResultMessageToExtractionResult,
    is_failed. simpl.
  split; [|split].
  - intros Hst.
    destruct (ExtractResultMessageV1.status message) eqn:Es; [| |congruence]; simpl.
    + repeat split.
      * intros i d Hd E. rewrite update_where_nth, Hd. simpl.
        rewrite E, String.eqb_refl. eexists; split; [reflexivity|]. simpl.
        split; [reflexivity|]. now destruct (ExtractResultMessageV1.tablesLocation message).
      * intros i j Hj E. rewrite update_where_nth, Hj. simpl.
        rewrite E, String.eqb_refl. eexists; split; reflexivity.
    + repeat split.
      * intros i d Hd E. rewrite update_where_nth, Hd. simpl.
        rewrite E, String.eqb_refl. eexists; split; [reflexivity|]. simpl.
        split; [reflexivity|]. now destruct (ExtractResultMessageV1.tablesLocation message).
      * intros i j Hj E. rewrite update_where_nth, Hj. simpl.
        rewrite E, String.eqb_refl. eexists; split; reflexivity.
  - intros Hst. rewrite Hst. simpl. repeat split.
    + intros i d Hd E. rewrite update_where_nth, Hd. simpl.
      rewrite E, String.eqb_refl. eexists; split; reflexivity.
    + intros i j Hj E. rewrite update_where_nth, Hj. simpl.
      rewrite E, String.eqb_refl. eexists; split; reflexivity.
  - intros [[db0 q0] s0]. reflexivity.
Qed.

Lemma getExtractJob_known (k : string) (db : SqliteStore.t) :
  existsb (String.eqb k) (map ExtractJob.jobId (extract_jobs db)) = true <->
  exists job, getExtractJob k db = Some job.
Proof.
  unfold getExtractJob. rewrite existsb_exists. split.
  - intros (k' & Hin & E). apply String.eqb_eq in E. subst k'.
    destruct (Sql.get_where ExtractJob.jobId k (extract_jobs db)) as [job|] eqn:Hget;
      [now exists job|].
    apply get_where_None in Hget. contradiction.
  - intros (job & Hget). apply get_where_Some in Hget as [Hin <-].
    exists (ExtractJob.jobId job). split; [now apply in_map|apply String.eqb_refl].
Qed.

Lemma collect_message_totals (queued : QueuedExtractResult.t)
    (db : SqliteStore.t) (q : Q) (s : summary) :
  let message := QueuedExtractResult.message queued in
  let known :=
    existsb (String.eqb (ExtractResultMessageV1.jobId message))
      (map ExtractJob.jobId (extract_jobs db)) in
  let st' := collect_message queued (db, q, s) in
  map ExtractJob.jobId (extract_jobs (fst (fst st'))) =
    map ExtractJob.jobId (extract_jobs db)
  /\ processed (snd st') = processed s + (if known then 1 else 0)
  /\ ok (snd st') = ok s + (if (known && negb (is_failed message))%bool then 1 else 0)
  /\ failed (snd st') = failed s + (if (known && is_failed message)%bool then 1 else 0).
Proof.
  intros message known st'. subst st'. unfold collect_message. fold message.
  destruct (getExtractJob (ExtractResultMessageV1.jobId message) db) as [job|] eqn:Hget.
  - assert (Hk : known = true) by (apply getExtractJob_known; eauto).
    rewrite Hk. simpl. split.
    + unfold completeExtractJob. simpl. now apply update_where_keys.
    + destruct (is_failed message); simpl; repeat split; lia.
  - assert (Hk : known = false).
    { destruct known eqn:E; [|reflexivity].
      apply getExtractJob_known in E as (job & Hjob).
      rewrite Hjob in Hget. discriminate. }
    rewrite Hk. simpl. repeat split; lia.
Qed.

(** *** The whole batch *)

(** One iteration keeps every document and every job in its place. *)
Lemma collect_message_ids (queued : QueuedExtractResult.t)
    (db : SqliteStore.t) (q : Q) (s : summary) :
  let db' := fst (fst (collect_message queued (db, q, s))) in
  map Document.docId (documents db') = map Document.docId (documents db)
  /\ map ExtractJob.jobId (extract_jobs db') = map ExtractJob.jobId (extract_jobs db).
Proof.
  cbv zeta. unfold collect_message.
  destruct (getExtractJob _ db) as [job|]; [|split; reflexivity].
  cbn [fst]. unfold completeExtractJob, markExtractionResult.
  cbn [documents extract_jobs with_documents with_extract_jobs].
  split; apply update_where_keys; intros r; reflexivity.
Qed.

(** One iteration leaves alone the documents it does not name (all of
    them when the job is unknown) and the jobs it does not name. *)
Lemma collect_message_keeps (queued : QueuedExtractResult.t)
    (db : SqliteStore.t) (q : Q) (s : summary) :
  let message := QueuedExtractResult.message queued in
  let db' := fst (fst (collect_message queued (db, q, s))) in
  (forall i d, nth_error (documents db) i = Some d ->
     (getExtractJob (ExtractResultMessageV1.jobId message) db <> None ->
      ExtractResultMessageV1.docId message <> Document.docId d) ->
     nth_error (documents db') i = Some d)
  /\ (forall i j, nth_error (extract_jobs db) i = Some j ->
        ExtractResultMessageV1.jobId message <> ExtractJob.jobId j ->
        nth_error (extract_jobs db') i = Some j).
Proof.
  cbv zeta. unfold collect_message.
  destruct (getExtractJob _ db) as [job|]; [|split; intros; assumption].
  cbn [fst]. unfold completeExtractJob, markExtractionResult.
  cbn [documents extract_jobs with_documents with_extract_jobs]. split.
  - intros i d Hd Hne. rewrite update_where_nth, Hd. cbn [option_map].
    assert (E : ExtractionResult.docId
                  (mapResultMessageToExtractionResult
                     (QueuedExtractResult.message queued) (ExtractJob.attempt job))
                = ExtractResultMessageV1.docId (QueuedExtractResult.message queued)).
    { unfold mapResultMessageToExtractionResult.
      destruct (ExtractResultMessageV1.status _); reflexivity. }
    rewrite E.
    destruct (String.eqb_spec (Document.docId d)
                (ExtractResultMessageV1.docId (QueuedExtractResult.message queued)))
      as [Eq|_]; [|reflexivity].
    exfalso. apply Hne; [discriminate|now symmetry].
  - intros i j Hj Hne. rewrite update_where_nth, Hj. cbn [option_map].
    destruct (String.eqb_spec (ExtractJob.jobId j)
                (ExtractResultMessageV1.jobId (QueuedExtractResult.message queued)))
      as [Eq|_]; [|reflexivity].
    exfalso. apply Hne. now symmetry.
Qed.

(** The loop of [collectExtractResults] over [ms]: ids stay in place, a
    document or job that no message of [ms] names is as before, and the
    counters grow by the messages whose job is stored. *)
Lemma collect_fold (ms : list QueuedExtractResult.t) :
  forall (db : SqliteStore.t) (q : Q) (s : summary),
    let known (m : QueuedExtractResult.t) :=
      existsb
        (String.eqb (ExtractResultMessageV1.jobId (QueuedExtractResult.message m)))
        (map ExtractJob.jobId (extract_jobs db)) in
    let counted (p : ExtractResultMessageV1.t -> bool) :=
      Z.of_nat
        (length
           (List.filter
              (fun m => (known m && p (QueuedExtractResult.message m))%bool) ms)) in
    let st' := fold_left (fun acc queued => collect_message queued acc) ms (db, q, s) in
    let db' := fst (fst st') in
    map Document.docId (documents db') = map Document.docId (documents db)
    /\ map ExtractJob.jobId (extract_jobs db') = map ExtractJob.jobId (extract_jobs db)
    /\ (forall i d, nth_error (documents db) i = Some d ->
          (forall m, In m ms -> known m = true ->
             ExtractResultMessageV1.docId (QueuedExtractResult.message m)
             <> Document.docId d) ->
          nth_error (documents db') i = Some d)
    /\ (forall i j, nth_error (extract_jobs db) i = Some j ->
          (forall m, In m ms ->
             ExtractResultMessageV1.jobId (QueuedExtractResult.message m)
             <> ExtractJob.jobId j) ->
          nth_error (extract_jobs db') i = Some j)
    /\ processed (snd st') = processed s + counted (fun _ => true)
    /\ ok (snd st') = ok s + counted (fun m => negb (is_failed m))
    /\ failed (snd st') = failed s + counted is_failed.
Proof.
  induction ms as [|m ms IH]; intros db q s; cbv zeta.
  - cbn. repeat split; try lia; intros; assumption.
  - cbn [fold_left].
    destruct (collect_message_ids m db q s) as (Hdocs & Hjobs).
    destruct (collect_message_keeps m db q s) as (Hkd & Hkj).
    destruct (collect_message_totals m db q s) as (_ & Hp & Ho & Hf).
    destruct (collect_message m (db, q, s)) as [[db1 q1] s1].
    cbn [fst snd] in Hdocs, Hjobs, Hkd, Hkj, Hp, Ho, Hf.
    specialize (IH db1 q1 s1). cbv zeta in IH. rewrite Hjobs in IH.
    destruct IH as (Hdocs' & Hjobs' & Hkd' & Hkj' & Hp' & Ho' & Hf').
    split; [congruence|]. split; [congruence|]. split.
    { intros i d Hd Hne. apply Hkd'.
      - apply Hkd; [exact Hd|]. intros Hknown. apply Hne; [now left|].
        destruct (getExtractJob _ db) as [job|] eqn:Hget; [|contradiction].
        apply getExtractJob_known. now exists job.
      - intros m' Hm'. apply Hne. now right. }
    split.
    { intros i j Hj Hne. apply Hkj'.
      - apply Hkj; [exact Hj|]. apply Hne. now left.
      - intros m' Hm'. apply Hne. now right. }
    rewrite Hp', Ho', Hf', Hp, Ho, Hf. cbn [List.filter].
    destruct (existsb _ (map ExtractJob.jobId (extract_jobs db)));
      destruct (is_failed (QueuedExtractResult.message m));
      cbn [andb negb length]; repeat split; lia.
Qed.

(** C10. [collectExtractResults] on a batch in which [queued] names a
    stored extract job.  When no later message of the batch with a stored
    job names the same document, the document ends with
    [lastStatus = 'extracted_ok'] for status ["ok"] and for status
    ["no_tables"] alike, with the message's [tablesLocation] when it has
    one, and with ['extracted_failed'] only for status ["failed"].  When
    no later message names the same job, the job ends ['completed'] for
    ["ok"] and ["no_tables"], ['failed'] only for ["failed"].  In the
    returned summary the message adds one to [processed], and one to
    [ok] unless its status is ["failed"], when it adds one to [failed];
    the other messages count when their job is stored.  And a batch in
    which some messages say ["ok"] where another batch says
    ["no_tables"] gives the same summary, store and queue. *)
Theorem collect_no_tables_like_ok (lim : Z) (st : SqliteStore.t * Q)
    (before : list QueuedExtractResult.t) (queued : QueuedExtractResult.t)
    (after : list QueuedExtractResult.t) (job : ExtractJob.row) :
  fst (consumeResults lim (snd st)) = (before ++ queued :: after)%list ->
  getExtractJob (ExtractResultMessageV1.jobId (QueuedExtractResult.message queued)) (fst st)
    = Some job ->
  let message := QueuedExtractResult.message queued in
  let known (m : QueuedExtractResult.t) :=
    existsb
      (String.eqb (ExtractResultMessageV1.jobId (QueuedExtractResult.message m)))
      (map ExtractJob.jobId (extract_jobs (fst st))) in
  let counted (p : ExtractResultMessageV1.t -> bool) (ms : list QueuedExtractResult.t) :=
    Z.of_nat
      (length
         (List.filter
            (fun m => (known m && p (QueuedExtractResult.message m))%bool) ms)) in
  let result := collectExtractResults lim st in
  let db' := fst (snd result) in
  let total := fst result in
  ((forall m, In m after -> known m = true ->
      ExtractResultMessageV1.docId (QueuedExtractResult.message m)
      <> ExtractResultMessageV1.docId message) ->
   forall i d, nth_error (documents (fst st)) i = Some d ->
     Document.docId d = ExtractResultMessageV1.docId message ->
     exists d',
       nth_error (documents db') i = Some d'
       /\ Document.docId d' = Document.docId d
       /\ Document.lastStatus d' =
            Some (match ExtractResultMessageV1.status message with
                  | ExtractResultMessageV1.ok => Document.extracted_ok
                  | ExtractResultMessageV1.no_tables => Document.extracted_ok
                  | ExtractResultMessageV1.failed => Document.extracted_failed
                  end)
       /\ (ExtractResultMessageV1.status message <> ExtractResultMessageV1.failed ->
           forall location,
             ExtractResultMessageV1.tablesLocation message = Some location ->
             Document.extractedTablesLocation d' = Some location))
  /\ ((forall m, In m after ->
         ExtractResultMessageV1.jobId (QueuedExtractResult.message m)
         <> ExtractResultMessageV1.jobId message) ->
      forall i j, nth_error (extract_jobs (fst st)) i = Some j ->
        ExtractJob.jobId j = ExtractResultMessageV1.jobId message ->
        exists j',
          nth_error (extract_jobs db') i = Some j'
          /\ ExtractJob.jobId j' = ExtractJob.jobId j
          /\ ExtractJob.status j' =
               match ExtractResultMessageV1.status message with
               | ExtractResultMessageV1.ok => ExtractJob.completed
               | ExtractResultMessageV1.no_tables => ExtractJob.completed
               | ExtractResultMessageV1.failed => ExtractJob.failed
               end)
  /\ processed total = counted (fun _ => true) before + 1 + counted (fun _ => true) after
  /\ ok total =
       counted (fun m => negb (is_failed m)) before
       + (match ExtractResultMessageV1.status message with
          | ExtractResultMessageV1.ok => 1
          | ExtractResultMessageV1.no_tables => 1
          | ExtractResultMessageV1.failed => 0
          end)
       + counted (fun m => negb (is_failed m)) after
  /\ failed total =
       counted is_failed before
       + (match ExtractResultMessageV1.status message with
          | ExtractResultMessageV1.ok => 0
          | ExtractResultMessageV1.no_tables => 0
          | ExtractResultMessageV1.failed => 1
          end)
       + counted is_failed after
  /\ (forall st2,
        fst st2 = fst st ->
        snd (consumeResults lim (snd st2)) = snd (consumeResults lim (snd st)) ->
        Forall2
          (fun a b =>
             a = b
             \/ exists queueMessageId m,
                  a = QueuedExtractResult.mk queueMessageId
                        (ExtractResultMessageV1.with_status ExtractResultMessageV1.ok m)
                  /\ b = QueuedExtractResult.mk queueMessageId
                           (ExtractResultMessageV1.with_status
                              ExtractResultMessageV1.no_tables m))
          (fst (consumeResults lim (snd st2))) (fst (consumeResults lim (snd st))) ->
        collectExtractResults lim st2 = collectExtractResults lim st).
Proof.
  intros Hbatch Hjob message known counted result db' total.
  destruct st as [db0 q0]. cbn [fst snd] in *.
  assert (Hsame : forall ms2 ms,
            Forall2
              (fun a b =>
                 a = b
                 \/ exists queueMessageId m,
                      a = QueuedExtractResult.mk queueMessageId
                            (ExtractResultMessageV1.with_status ExtractResultMessageV1.ok m)
                      /\ b = QueuedExtractResult.mk queueMessageId
                               (ExtractResultMessageV1.with_status
                                  ExtractResultMessageV1.no_tables m)) ms2 ms ->
            forall acc,
              fold_left (fun acc queued => collect_message queued acc) ms2 acc
              = fold_left (fun acc queued => collect_message queued acc) ms acc).
  { induction 1 as [|a b ms2 ms Hab Hrest IH]; intros acc; [reflexivity|].
    cbn [fold_left]. rewrite <- IH. f_equal.
    destruct Hab as [->|(id & m & -> & ->)]; [reflexivity|].
    destruct acc as [[db q] s]. reflexivity. }
  assert (Hlast : forall st2,
            fst st2 = db0 ->
            snd (consumeResults lim (snd st2)) = snd (consumeResults lim q0) ->
            Forall2
              (fun a b =>
                 a = b
                 \/ exists queueMessageId m,
                      a = QueuedExtractResult.mk queueMessageId
                            (ExtractResultMessageV1.with_status ExtractResultMessageV1.ok m)
                      /\ b = QueuedExtractResult.mk queueMessageId
                               (ExtractResultMessageV1.with_status
                                  ExtractResultMessageV1.no_tables m))
              (fst (consumeResults lim (snd st2))) (fst (consumeResults lim q0)) ->
            collectExtractResults lim st2 = collectExtractResults lim (db0, q0)).
  { intros [db2 q2] Edb Eq Hall. cbn [fst snd] in Edb, Eq, Hall. subst db2.
    unfold collectExtractResults. cbn [fst snd].
    destruct (consumeResults lim q2) as [ms2 q2'].
    destruct (consumeResults lim q0) as [ms q0'].
    cbn [fst snd] in Eq, Hall. subst q2'.
    now rewrite (Hsame ms2 ms Hall). }
  revert Hlast. subst result db' total. unfold collectExtractResults. cbn [fst snd].
  revert Hbatch.
  destruct (consumeResults lim q0) as [messages q1]. cbn [fst snd]. intros ->.
  rewrite fold_left_app. cbn [fold_left].
  pose (zero := {| processed := 0; ok := 0; failed := 0 |}).
  fold zero.
  destruct (collect_fold before db0 q1 zero)
    as (Hdocs1 & Hjobs1 & _ & _ & Hp1 & Ho1 & Hf1).
  destruct (fold_left (fun acc queued => collect_message queued acc) before (db0, q1, zero))
    as [[db1 q2] s1].
  cbn [fst snd] in Hdocs1, Hjobs1, Hp1, Ho1, Hf1.
  assert (Hknown : exists job1,
            getExtractJob (ExtractResultMessageV1.jobId message) db1 = Some job1).
  { apply getExtractJob_known. rewrite Hjobs1. apply getExtractJob_known.
    now exists job. }
  destruct Hknown as (job1 & Hjob1).
  pose proof (collect_message_effect queued db1 q2 s1 job1 Hjob1) as Hstep.
  destruct (collect_message_ids queued db1 q2 s1) as (Hdocs2 & Hjobs2).
  cbv zeta in Hstep. fold message in Hstep.
  destruct (collect_message queued (db1, q2, s1)) as [[db2 q3] s2].
  cbn [fst snd] in Hstep, Hdocs2, Hjobs2.
  destruct Hstep as (Hnotfailed & Hfailed & _).
  destruct (collect_fold after db2 q3 s2)
    as (_ & _ & Hkd3 & Hkj3 & Hp3 & Ho3 & Hf3).
  destruct (fold_left (fun acc queued => collect_message queued acc) after (db2, q3, s2))
    as [[db3 q4] s3].
  cbn [fst snd] in Hkd3, Hkj3, Hp3, Ho3, Hf3.
  rewrite Hjobs2, Hjobs1 in Hkd3, Hp3, Ho3, Hf3.
  cbn [fst snd]. intros Hlast.
  subst known counted. cbv beta zeta in *.
  assert (Hs2 : processed s2 = processed s1 + 1
                /\ ok s2 = ok s1
                           + match ExtractResultMessageV1.status message with
                             | ExtractResultMessageV1.failed => 0
                             | _ => 1
                             end
                /\ failed s2 = failed s1
                               + match ExtractResultMessageV1.status message with
                                 | ExtractResultMessageV1.failed => 1
                                 | _ => 0
                                 end).
  { destruct (ExtractResultMessageV1.status message) eqn:Es.
    - destruct (Hnotfailed ltac:(discriminate)) as (_ & _ & Hp & Ho & Hf).
      repeat split; lia.
    - destruct (Hnotfailed ltac:(discriminate)) as (_ & _ & Hp & Ho & Hf).
      repeat split; lia.
    - destruct (Hfailed eq_refl) as (_ & _ & Hp & Ho & Hf). repeat split; lia. }
  destruct Hs2 as (Hp2 & Ho2 & Hf2).
  split.
  { intros Hafter i d Hd Ed.
    assert (Hd1 : exists d1, nth_error (documents db1) i = Some d1
                             /\ Document.docId d1 = Document.docId d).
    { pose proof (f_equal (fun l => nth_error l i) Hdocs1) as E. cbv beta in E.
      rewrite !nth_error_map, Hd in E.
      destruct (nth_error (documents db1) i) as [d1|]; [|discriminate].
      exists d1. split; [reflexivity|]. now injection E. }
    destruct Hd1 as (d1 & Hd1 & Ed1).
    assert (Hd2 : exists d2,
              nth_error (documents db2) i = Some d2
              /\ Document.lastStatus d2 =
                   Some (match ExtractResultMessageV1.status message with
                         | ExtractResultMessageV1.failed => Document.extracted_failed
                         | _ => Document.extracted_ok
                         end)
              /\ (ExtractResultMessageV1.status message <> ExtractResultMessageV1.failed ->
                  forall location,
                    ExtractResultMessageV1.tablesLocation message = Some location ->
                    Document.extractedTablesLocation d2 = Some location)).
    { destruct (ExtractResultMessageV1.status message) eqn:Es.
      - destruct (Hnotfailed ltac:(discriminate)) as (Hdoc & _).
        destruct (Hdoc i d1 Hd1 ltac:(congruence)) as (d2 & Hd2 & Hst & Hloc).
        exists d2. split; [exact Hd2|]. split; [exact Hst|].
        intros _ location El. now rewrite El in Hloc.
      - destruct (Hnotfailed ltac:(discriminate)) as (Hdoc & _).
        destruct (Hdoc i d1 Hd1 ltac:(congruence)) as (d2 & Hd2 & Hst & Hloc).
        exists d2. split; [exact Hd2|]. split; [exact Hst|].
        intros _ location El. now rewrite El in Hloc.
      - destruct (Hfailed eq_refl) as (Hdoc & _).
        destruct (Hdoc i d1 Hd1 ltac:(congruence)) as (d2 & Hd2 & Hst).
        exists d2. split; [exact Hd2|]. split; [exact Hst|].
        intros Hne. contradiction. }
    destruct Hd2 as (d2 & Hd2 & Hst & Hloc).
    assert (Ed2 : Document.docId d2 = Document.docId d).
    { pose proof (f_equal (fun l => nth_error l i) Hdocs2) as E. cbv beta in E.
      rewrite !nth_error_map, Hd1, Hd2 in E. cbn in E. injection E as E. congruence. }
    exists d2. split.
    - apply Hkd3; [exact Hd2|]. intros m Hm Hk. rewrite Ed2, Ed. now apply Hafter.
    - split; [exact Ed2|]. split; [|exact Hloc].
      rewrite Hst. now destruct (ExtractResultMessageV1.status message). }
  split.
  { intros Hafter i j Hj Ej.
    assert (Hj1 : exists j1, nth_error (extract_jobs db1) i = Some j1
                             /\ ExtractJob.jobId j1 = ExtractJob.jobId j).
    { pose proof (f_equal (fun l => nth_error l i) Hjobs1) as E. cbv beta in E.
      rewrite !nth_error_map, Hj in E.
      destruct (nth_error (extract_jobs db1) i) as [j1|]; [|discriminate].
      exists j1. split; [reflexivity|]. now injection E. }
    destruct Hj1 as (j1 & Hj1 & Ej1).
    assert (Hj2 : exists j2,
              nth_error (extract_jobs db2) i = Some j2
              /\ ExtractJob.status j2 =
                   match ExtractResultMessageV1.status message with
                   | ExtractResultMessageV1.failed => ExtractJob.failed
                   | _ => ExtractJob.completed
                   end).
    { destruct (ExtractResultMessageV1.status message) eqn:Es.
      - destruct (Hnotfailed ltac:(discriminate)) as (_ & Hjobs & _).
        exact (Hjobs i j1 Hj1 ltac:(congruence)).
      - destruct (Hnotfailed ltac:(discriminate)) as (_ & Hjobs & _).
        exact (Hjobs i j1 Hj1 ltac:(congruence)).
      - destruct (Hfailed eq_refl) as (_ & Hjobs & _).
        exact (Hjobs i j1 Hj1 ltac:(congruence)). }
    destruct Hj2 as (j2 & Hj2 & Hst).
    assert (Ej2 : ExtractJob.jobId j2 = ExtractJob.jobId j).
    { pose proof (f_equal (fun l => nth_error l i) Hjobs2) as E. cbv beta in E.
      rewrite !nth_error_map, Hj1, Hj2 in E. cbn in E. injection E as E. congruence. }
    exists j2. split.
    - apply Hkj3; [exact Hj2|]. intros m Hm. rewrite Ej2, Ej. now apply Hafter.
    - split; [exact Ej2|].
      rewrite Hst. now destruct (ExtractResultMessageV1.status message). }
  subst zero. cbn [processed ok failed] in *.
  split; [lia|]. split.
  { rewrite Ho3, Ho2, Ho1.
    destruct (ExtractResultMessageV1.status message); lia. }
  split.
  { rewrite Hf3, Hf2, Hf1.
    destruct (ExtractResultMessageV1.status message); lia. }
  exact Hlast.
Qed.

(** *** The totals over a whole batch *)

(** X15. The summary [collectExtractResults] returns: [processed] counts
    the consumed messages that name a stored job, [ok] counts the consumed
    messages that name a stored job and are not ["failed"] (so
    ["no_tables"] messages are among them), [failed] those that are. *)
Theorem collectExtractResults_totals (lim : Z) (st : SqliteStore.t * Q) :
  let messages := fst (consumeResults lim (snd st)) in
  let known (queued : QueuedExtractResult.t) :=
    existsb
      (String.eqb (ExtractResultMessageV1.jobId (QueuedExtractResult.message queued)))
      (map ExtractJob.jobId (extract_jobs (fst st))) in
  let total := fst (collectExtractResults lim st) in
  processed total = Z.of_nat (length (List.filter known messages))
  /\ ok total =
       Z.of_nat
         (length
            (List.filter
               (fun queued =>
                  (known queued && negb (is_failed (QueuedExtractResult.message queued)))%bool)
               messages))
  /\ failed total =
       Z.of_nat
         (length
            (List.filter
               (fun queued =>
                  (known queued && is_failed (QueuedExtractResult.message queued))%bool)
               messages)).
Proof.
  intros messages known total. subst total messages. unfold collectExtractResults.
  destruct st as [db0 q0]. simpl fst in *. simpl snd.
  destruct (consumeResults lim q0) as [messages q1]. simpl fst.
  assert (Hfold : forall ms db q s,
    map ExtractJob.jobId (extract_jobs db) = map ExtractJob.jobId (extract_jobs db0) ->
    let r := fold_left (fun acc queued => collect_message queued acc) ms (db, q, s) in
    processed (snd r) = processed s + Z.of_nat (length (List.filter known ms))
    /\ ok (snd r) =
         ok s + Z.of_nat
                  (length
                     (List.filter
                        (fun queued =>
                           (known queued
                            && negb (is_failed (QueuedExtractResult.message queued)))%bool)
                        ms))
    /\ failed (snd r) =
         failed s + Z.of_nat
                      (length
                         (List.filter
                            (fun queued =>
                               (known queued
                                && is_failed (QueuedExtractResult.message queued))%bool)
                            ms))).
  { induction ms as [|m ms IH]; intros db q s Hkeys; cbv zeta.
    - simpl. repeat split; lia.
    - cbn [fold_left].
      destruct (collect_message_totals m db q s) as (Hk & Hp & Ho & Hf).
      destruct (collect_message m (db, q, s)) as [[db1 q1'] s1] eqn:E1.
      simpl in Hk, Hp, Ho, Hf. rewrite Hkeys in Hp, Ho, Hf.
      fold (known m) in Hp, Ho, Hf.
      destruct (IH db1 q1' s1) as (Hp' & Ho' & Hf'); [congruence|].
      cbv zeta in Hp', Ho', Hf'. rewrite Hp', Ho', Hf', Hp, Ho, Hf.
      cbn [List.filter].
      destruct (known m), (is_failed (QueuedExtractResult.message m));
        simpl; repeat split; lia. }
  destruct (Hfold messages db0 q1 {| processed := 0; ok := 0; failed := 0 |} eq_refl)
    as (Hp & Ho & Hf).
  destruct (fold_left _ messages _) as [[db q] s]. simpl in *. repeat split; lia.
Qed.
End CollectFacts.

(** ** The local queue *)

Section QueueFacts.
Import LocalSqliteQueueAdapter.
Context `{JsonParser}.

#[local] Abbreviation id_of := QueueMessage.queueMessageId.

Lemma has_id_true (rows : list QueueMessage.row) (r : QueueMessage.row) :
  has_id rows r = true <-> exists row, In row rows /\ id_of row = id_of r.
Proof.
  unfold has_id. rewrite existsb_exists. split; intros (row & Hin & E); exists row.
  - apply String.eqb_eq in E. auto.
  - split; [exact Hin|]. now apply String.eqb_eq.
Qed.

Lemma is_pending_iff (r : QueueMessage.row) :
  is_pending r = true <-> QueueMessage.status r = QueueMessage.pending.
Proof.
  unfold is_pending. destruct (QueueMessage.status r); simpl; split; congruence.
Qed.

Lemma pending_rows_In (lim : Z) (table : list QueueMessage.row) (row : QueueMessage.row) :
  In row (pending_rows lim table) ->
  In row table /\ QueueMessage.status row = QueueMessage.pending.
Proof.
  unfold pending_rows. intros Hin.
  apply limit_incl, order_by_In, filter_In in Hin as [Hin Hp].
  split; [exact Hin|]. now apply is_pending_iff.
Qed.

Lemma queue_lease_rows_spec (rows table : list QueueMessage.row) :
  lease_rows rows table =
  map (fun r => if has_id rows r then QueueMessage.set_status QueueMessage.leased r else r)
    table.
Proof.
  unfold lease_rows, has_id. revert table.
  induction rows as [|row rows IH]; intros table; simpl.
  - symmetry. apply map_id.
  - rewrite IH. unfold mark, Sql.update_where. rewrite map_map. apply map_ext.
    intros r. destruct (String.eqb (id_of r) (id_of row)); simpl.
    + now destruct (existsb _ rows).
    + reflexivity.
Qed.

(** The rows [deliver] has marked ['failed'] when it stops. *)
Lemma deliver_table {R : Type} (guard : Json.value -> bool)
    (projector : string -> Json.value -> R) (rows : list QueueMessage.row) :
  forall table,
  exists marked,
    incl marked rows
    /\ snd (deliver guard projector rows table) =
       map (fun r => if has_id marked r
                     then QueueMessage.set_status QueueMessage.failed r else r) table.
Proof.
  induction rows as [|row rows IH]; intros table; simpl.
  - exists []. split; [apply incl_refl|]. symmetry. apply map_id.
  - destruct (JSON_parse (QueueMessage.payload row)) as [parsed|].
    + destruct (guard parsed).
      * destruct (IH table) as (marked & Hincl & E).
        destruct (deliver guard projector rows table) as [out table'].
        exists marked. split; [now apply incl_tl|exact E].
      * destruct (IH (mark QueueMessage.failed (id_of row) table))
          as (marked & Hincl & E).
        exists (row :: marked). split.
        { intros x [<-|Hx]; [now left|right; now apply Hincl]. }
        rewrite E. unfold mark, Sql.update_where, has_id. rewrite map_map.
        apply map_ext. intros r. simpl.
        destruct (String.eqb (id_of r) (id_of row)); simpl; [|reflexivity].
        now destruct (existsb _ marked).
    + exists []. split; [apply incl_nil_l|]. symmetry. apply map_id.
Qed.


Lemma consume_table {R : Type} (lim : Z) (guard : Json.value -> bool)
    (projector : string -> Json.value -> R) (table : list QueueMessage.row) :
  exists marked,
    incl marked (pending_rows lim table)
    /\ snd (consumeAndLease lim guard projector table) =
       map (fun r => if has_id marked r
                     then QueueMessage.set_status QueueMessage.failed r else r)
         (map (fun r => if has_id (pending_rows lim table) r
                        then QueueMessage.set_status QueueMessage.leased r else r)
            table).
Proof.
  unfold consumeAndLease.
  destruct (pending_rows lim table) as [|row rows] eqn:Ep.
  - exists []. split; [apply incl_refl|]. simpl. now rewrite !map_id.
  - destruct (deliver_table guard projector (row :: rows)
                (lease_rows (row :: rows) table)) as (marked & Hincl & E).
    exists marked. split; [exact Hincl|].
    now rewrite E, queue_lease_rows_spec.
Qed.



(** A row that has left ['pending'] is not seen by any later
    [consumeAndLease]: no statement of the adapter sets a row back to
    ['pending']. *)
Lemma not_pending_consume {R : Type} (k : string) (lim : Z)
    (guard : Json.value -> bool) (projector : string -> Json.value -> R)
    (table : list QueueMessage.row) :
  (forall r, In r table -> id_of r = k ->
             In k (map id_of (pending_rows lim table))
             \/ QueueMessage.status r <> QueueMessage.pending) ->
  forall r, In r (snd (consumeAndLease lim guard projector table)) -> id_of r = k ->
            QueueMessage.status r <> QueueMessage.pending.
Proof.
  intros Hq r' Hr' Ek.
  destruct (consume_table lim guard projector table) as (marked & Hincl & E).
  rewrite E, map_map in Hr'. apply in_map_iff in Hr'. destruct Hr' as (r & Er & Hr).
  assert (Ek' : id_of r = k).
  { rewrite <- Ek, <- Er.
    destruct (has_id (pending_rows lim table) r); destruct (has_id marked _); reflexivity. }
  destruct (has_id (pending_rows lim table) r) eqn:Eh.
  - subst r'. destruct (has_id marked _); discriminate.
  - destruct (Hq r Hr Ek') as [Hsel|Hst].
    + exfalso. apply in_map_iff in Hsel. destruct Hsel as (row & Erow & Hrow).
      assert (has_id (pending_rows lim table) r = true) as Hyes.
      { apply has_id_true. exists row. split; [exact Hrow|congruence]. }
      congruence.
    + subst r'. destruct (has_id marked r); [discriminate|exact Hst].
Qed.

Lemma not_pending_later (k : string) (table t : list QueueMessage.row) :
  later table t ->
  (forall r, In r table -> id_of r = k -> QueueMessage.status r <> QueueMessage.pending) ->
  forall r, In r t -> id_of r = k -> QueueMessage.status r <> QueueMessage.pending.
Proof.
  induction 1 as [|R lim guard projector t Hl IH|qid t Hl IH]; intros Hq.
  - exact Hq.
  - apply not_pending_consume. intros r Hr Ek. right. exact (IH Hq r Hr Ek).
  - intros r Hr. apply filter_In in Hr. destruct Hr as [Hr _]. exact (IH Hq r Hr).
Qed.

Lemma not_pending_not_selected (k : string) (lim : Z) (table : list QueueMessage.row) :
  (forall r, In r table -> id_of r = k -> QueueMessage.status r <> QueueMessage.pending) ->
  ~ In k (map id_of (pending_rows lim table)).
Proof.
  intros Hq Hin. apply in_map_iff in Hin. destruct Hin as (row & E & Hrow).
  apply pending_rows_In in Hrow. destruct Hrow as [Hrow Hst].
  exact (Hq row Hrow E Hst).
Qed.




End QueueFacts.

(** ** The download runner *)

Section DownloadFacts.
Import Downloader.
Context `{Sha256}.

Lemma append_length (a b : string) :
  String.length (a +:+ b) = (String.length a + String.length b)%nat.
Proof. induction a as [|c a IH]; simpl; [reflexivity|]. now rewrite IH. Qed.

Lemma temp_path_neq (outputPath : string) : temp_path outputPath <> outputPath.
Proof.
  unfold temp_path. intros E. apply (f_equal String.length) in E.
  rewrite append_length in E. simpl in E. lia.
Qed.

(** What one attempt does to the files: the final path holds what it held
    before or the complete body of a response whose stream ended normally,
    a throwing attempt leaves it alone, no third path is touched, and an
    attempt that reached the stream leaves nothing under [.part]. *)
Lemma downloadAttempt_files (env : attempt_env)
    (url outputPath : string) (fs : file_system) :
  let out := fst (downloadAttempt env url outputPath fs) in
  let fs' := snd (downloadAttempt env url outputPath fs) in
  (fs' = fs \/ fs' !! temp_path outputPath = None)
  /\ (fs !! temp_path outputPath = None -> fs' !! temp_path outputPath = None)
  /\ (fs' !! outputPath = fs !! outputPath
      \/ exists response body r,
           fetched env = FetchResolves response
           /\ Http.ok response = true
           /\ Http.body response = Some body
           /\ Http.failure body = None
           /\ fs' !! outputPath = Some (Http.content body)
           /\ out = Returned r
           /\ sha256 r = Some (sha256_hex (Http.content body))
           /\ bytes r = Some (Z.of_nat (length (Http.content body))))
  /\ (forall message, out = Thrown message -> fs' !! outputPath = fs !! outputPath)
  /\ (forall p, p <> temp_path outputPath -> p <> outputPath -> fs' !! p = fs !! p)
  /\ (forall response body,
        fetched env = FetchResolves response ->
        Http.ok response = true ->
        Http.body response = Some body ->
        mkdir_error env = None ->
        open_error env = None ->
        match Http.failure body, rename_error env with
        | Some e, _ => out = Thrown e /\ fs' !! temp_path outputPath = None
        | None, Some e => out = Thrown e /\ fs' !! temp_path outputPath = None
        | None, None =>
            (exists r, out = Returned r)
            /\ fs' !! temp_path outputPath = None
            /\ fs' !! outputPath = Some (Http.content body)
        end).
Proof.
  pose proof (temp_path_neq outputPath) as Hneq.
  unfold downloadAttempt, pipeline_to_file, renameSync, unlink_if_exists.
  destruct (fetched env) as [message|response] eqn:Ef; simpl.
  { split_and!; auto. discriminate. }
  destruct (Http.ok response) eqn:Eok; simpl.
  2: { split_and!; auto. intros r b [= <-]. congruence. }
  destruct (Http.body response) as [b|] eqn:Eb; simpl.
  2: { split_and!; auto. intros r b [= <-]. congruence. }
  destruct (mkdir_error env) as [e|]; simpl; [split_and!; auto; discriminate|].
  destruct (open_error env) as [e|]; simpl.
  { destruct (fs !! temp_path outputPath) eqn:Et; simpl.
    - split_and!; try discriminate.
      + right. apply lookup_delete_eq.
      + left. now rewrite lookup_delete_ne.
      + intros _ _. now rewrite lookup_delete_ne.
      + intros p Hp _. rewrite lookup_delete_ne; auto.
    - split_and!; auto; discriminate. }
  destruct (Http.failure b) as [e|] eqn:Efail; simpl.
  { rewrite lookup_insert_eq. simpl. split_and!.
    - right. apply lookup_delete_eq.
    - intros _. apply lookup_delete_eq.
    - left. rewrite lookup_delete_ne, lookup_insert_ne; auto.
    - intros _ _. rewrite lookup_delete_ne, lookup_insert_ne; auto.
    - intros p Hp _. rewrite lookup_delete_ne, lookup_insert_ne; auto.
    - intros r b' [= <-] _ Eb' _ _. rewrite Eb in Eb'. injection Eb' as <-.
      rewrite Efail. split; [reflexivity|apply lookup_delete_eq]. }
  destruct (rename_error env) as [e|]; simpl.
  { rewrite lookup_insert_eq. simpl. split_and!.
    - right. apply lookup_delete_eq.
    - intros _. apply lookup_delete_eq.
    - left. rewrite lookup_delete_ne, lookup_insert_ne; auto.
    - intros _ _. rewrite lookup_delete_ne, lookup_insert_ne; auto.
    - intros p Hp _. rewrite lookup_delete_ne, lookup_insert_ne; auto.
    - intros r b' [= <-] _ Eb' _ _. rewrite Eb in Eb'. injection Eb' as <-.
      rewrite Efail. split; [reflexivity|apply lookup_delete_eq]. }
  rewrite lookup_insert_eq. simpl. split_and!.
  - right. rewrite lookup_insert_ne, lookup_delete_eq; auto.
  - intros _. rewrite lookup_insert_ne, lookup_delete_eq; auto.
  - right. exists response, b. eexists. split_and!; eauto.
    apply lookup_insert_eq.
  - discriminate.
  - intros p Hp Hp'. rewrite lookup_insert_ne, lookup_delete_ne, lookup_insert_ne; auto.
  - intros r b' [= <-] _ Eb' _ _. rewrite Eb in Eb'. injection Eb' as <-.
    rewrite Efail. split; [eauto|]. split.
    + rewrite lookup_insert_ne, lookup_delete_eq; auto.
    + apply lookup_insert_eq.
Qed.

(** Where a [.part] file can survive: [downloadAttempt] touches the file
    system only after [mkdirSync] has returned, so an attempt that ends
    earlier (fetch rejected, response not ok, response without body,
    [mkdirSync] throwing) leaves every file as it found it; an attempt
    that gets further leaves nothing at [<outputPath>.part]. *)
Lemma downloadAttempt_partial_file (env : attempt_env)
    (url outputPath : string) (fs : file_system) :
  let fs' := snd (downloadAttempt env url outputPath fs) in
  let ends_before_stream :=
    match fetched env with
    | FetchRejects _ => True
    | FetchResolves response =>
        Http.ok response = false \/ Http.body response = None \/ mkdir_error env <> None
    end in
  (fs' !! temp_path outputPath <> None <->
     fs !! temp_path outputPath <> None /\ ends_before_stream)
  /\ (ends_before_stream -> fs' = fs)
  /\ (~ ends_before_stream -> fs' !! temp_path outputPath = None).
Proof.
  pose proof (temp_path_neq outputPath) as Hneq.
  assert (Hlate : forall (P : Prop) (x : option (list Byte.byte)) (f f0 : file_system),
            ~ P -> f !! temp_path outputPath = None ->
            (f !! temp_path outputPath <> None <-> x <> None /\ P)
            /\ (P -> f = f0) /\ (~ P -> f !! temp_path outputPath = None)).
  { intros P x f f0 HP Hf. split; [|split].
    - split; [intros Hx; now rewrite Hf in Hx|intros [_ HP']; contradiction].
    - intros HP'. contradiction.
    - intros _. exact Hf. }
  assert (Hearly : forall (P : Prop) (f : file_system), P ->
            (f !! temp_path outputPath <> None <-> f !! temp_path outputPath <> None /\ P)
            /\ (P -> f = f) /\ (~ P -> f !! temp_path outputPath = None)).
  { intros P f HP. split; [|split].
    - split; [intros Hx; now split|now intros [Hx _]].
    - reflexivity.
    - intros HP'. contradiction. }
  unfold downloadAttempt, pipeline_to_file, renameSync, unlink_if_exists. cbv zeta.
  destruct (fetched env) as [message|response]; simpl.
  { apply Hearly. exact I. }
  destruct (Http.ok response); simpl.
  2: { apply Hearly. now left. }
  destruct (Http.body response) as [b|]; simpl.
  2: { apply Hearly. right. now left. }
  destruct (mkdir_error env) as [e|]; simpl.
  { apply Hearly. right. right. discriminate. }
  assert (Hnot : ~ (true = false \/ Some b = None \/ @None string <> None)).
  { intros [Hx|[Hx|Hx]]; [discriminate|discriminate|now apply Hx]. }
  destruct (open_error env) as [e|]; simpl.
  { destruct (fs !! temp_path outputPath) eqn:Et; simpl.
    - apply Hlate; [exact Hnot|apply lookup_delete_eq].
    - apply Hlate; [exact Hnot|exact Et]. }
  destruct (Http.failure b) as [e|]; simpl.
  { rewrite lookup_insert_eq. simpl. apply Hlate; [exact Hnot|apply lookup_delete_eq]. }
  destruct (rename_error env) as [e|]; simpl.
  { rewrite lookup_insert_eq. simpl. apply Hlate; [exact Hnot|apply lookup_delete_eq]. }
  rewrite lookup_insert_eq. simpl. apply Hlate; [exact Hnot|].
  rewrite lookup_insert_ne, lookup_delete_eq; auto.
Qed.

(** C6. [downloadAttempt] writes the body under [<outputPath>.part] and
    renames it to [outputPath] only when the stream has ended without
    error; an error of the stream or of the rename is rethrown after the
    [.part] file has been deleted.  A file is left at [<outputPath>.part]
    after the attempt exactly when one was there before and the attempt
    ended before the stream was opened (fetch rejected, response not ok,
    response without body, [mkdirSync] throwing); such an attempt changes
    no file, and every other attempt, returning or throwing, leaves no
    [.part] file.  So the attempt itself never leaves a [.part] file
    behind, but it does not always clear one it finds.  The file at
    [outputPath] is the one that was there before, or else it is the
    complete body of a response whose stream ended normally, and the
    attempt returned its digest and length.  A throwing attempt leaves
    [outputPath] as it was, and no other path is touched. *)
Theorem downloadAttempt_leaves_no_partial_file (env : attempt_env)
    (url outputPath : string) (fs : file_system) :
  let out := fst (downloadAttempt env url outputPath fs) in
  let fs' := snd (downloadAttempt env url outputPath fs) in
  let ends_before_stream :=
    match fetched env with
    | FetchRejects _ => True
    | FetchResolves response =>
        Http.ok response = false \/ Http.body response = None \/ mkdir_error env <> None
    end in
  (fs' !! temp_path outputPath <> None <->
     fs !! temp_path outputPath <> None /\ ends_before_stream)
  /\ (ends_before_stream -> fs' = fs)
  /\ (~ ends_before_stream -> fs' !! temp_path outputPath = None)
  /\ (fs' = fs \/ fs' !! temp_path outputPath = None)
  /\ (fs !! temp_path outputPath = None -> fs' !! temp_path outputPath = None)
  /\ (fs' !! outputPath = fs !! outputPath
      \/ exists response body r,
           fetched env = FetchResolves response
           /\ Http.ok response = true
           /\ Http.body response = Some body
           /\ Http.failure body = None
           /\ fs' !! outputPath = Some (Http.content body)
           /\ out = Returned r
           /\ sha256 r = Some (sha256_hex (Http.content body))
           /\ bytes r = Some (Z.of_nat (length (Http.content body))))
  /\ (forall message, out = Thrown message -> fs' !! outputPath = fs !! outputPath)
  /\ (forall p, p <> temp_path outputPath -> p <> outputPath -> fs' !! p = fs !! p)
  /\ (forall response body,
        fetched env = FetchResolves response -> Http.ok response = true ->
        Http.body response = Some body ->
        mkdir_error env = None -> open_error env = None ->
        match Http.failure body, rename_error env with
        | Some e, _ => out = Thrown e /\ fs' !! temp_path outputPath = None
        | None, Some e => out = Thrown e /\ fs' !! temp_path outputPath = None
        | None, None =>
            (exists r, out = Returned r)
            /\ fs' !! temp_path outputPath = None
            /\ fs' !! outputPath = Some (Http.content body)
        end).
Proof.
  pose proof (downloadAttempt_partial_file env url outputPath fs) as Hpart.
  pose proof (downloadAttempt_files env url outputPath fs) as Hfiles.
  cbv zeta in *.
  destruct Hpart as (P1 & P2 & P3).
  refine (conj P1 (conj P2 (conj P3 Hfiles))).
Qed.

(** *** The attempt loop *)

Variable environment : nat -> attempt_env.
Variable maxDownloadAttempts : Z.
Variable item : DownloadWorkItem.t.
Variable finalPath : string.

#[local] Abbreviation loop := (attempt_loop environment maxDownloadAttempts item finalPath).

Lemma downloadAttempt_404 (env : attempt_env) (url outputPath : string)
    (fs : file_system) (response : Http.response) :
  fetched env = FetchResolves response -> Http.status response = 404 ->
  downloadAttempt env url outputPath fs =
  (Returned (status_only 404 (Http.url response)), fs).
Proof.
  intros Ef Es. unfold downloadAttempt, Http.ok. rewrite Ef, Es. reflexivity.
Qed.

Lemma loop_404 (fuel : nat) (attempt : Z) (w : world) (response : Http.response) :
  attempt <= maxDownloadAttempts ->
  fetched (environment (requests w)) = FetchResolves response ->
  Http.status response = 404 ->
  loop (S fuel) attempt w =
  (Some (failed_result item (Some (Http.url response)) "HTTP 404" attempt
           (clock (environment (requests w)))),
   {| fs := fs w; requests := S (requests w);
      trace := trace w ++ [Request (requests w)] |}).
Proof.
  intros Ha Ef Es. simpl.
  destruct (Z.leb_spec attempt maxDownloadAttempts); [|lia].
  now rewrite (downloadAttempt_404 _ _ _ _ _ Ef Es).
Qed.

(** One iteration either ends the loop with a result or sleeps and goes
    on with the next attempt number. *)
Lemma loop_step (fuel : nat) (attempt : Z) (w : world) :
  attempt <= maxDownloadAttempts ->
  exists fs',
    let w1 := {| fs := fs'; requests := S (requests w);
                 trace := trace w ++ [Request (requests w)] |} in
    (exists r, loop (S fuel) attempt w = (Some r, w1))
    \/ (attempt < maxDownloadAttempts
        /\ loop (S fuel) attempt w = loop fuel (attempt + 1) (sleep (backoff attempt) w1)).
Proof.
  intros Ha. simpl.
  destruct (Z.leb_spec attempt maxDownloadAttempts); [|lia].
  destruct (downloadAttempt _ _ _ _) as [out fs'].
  exists fs'. simpl.
  destruct out as [r|message].
  - destruct (statusCode r =? 404); [left; eauto|].
    destruct (statusCode r >=? 400); [|left; eauto].
    destruct (isRetriableStatus (statusCode r)); simpl; [|left; eauto].
    rewrite Z.geb_leb.
    destruct (Z.leb_spec maxDownloadAttempts attempt); [left; eauto|right].
    split; [lia|reflexivity].
  - rewrite Z.geb_leb.
    destruct (Z.leb_spec maxDownloadAttempts attempt); [left; eauto|right].
    split; [lia|reflexivity].
Qed.

Lemma loop_exit (fuel : nat) (attempt : Z) (w : world) :
  maxDownloadAttempts < attempt -> loop fuel attempt w = (None, w).
Proof.
  intros Ha. destruct fuel; simpl; [reflexivity|].
  destruct (Z.leb_spec attempt maxDownloadAttempts); [lia|reflexivity].
Qed.

Lemma loop_S (fuel : nat) (attempt : Z) (w : world) :
  loop (S fuel) attempt w =
  if attempt <=? maxDownloadAttempts then
    let env := environment (requests w) in
    let '(out, fs') :=
      downloadAttempt env (DownloadWorkItem.url item) finalPath (fs w) in
    let w1 :=
      {| fs := fs'; requests := S (requests w);
         trace := trace w ++ [Request (requests w)] |} in
    match out with
    | Returned attemptResult =>
        if statusCode attemptResult =? 404 then
          (Some (failed_result item (resolvedUrl attemptResult) "HTTP 404"
                   attempt (clock env)), w1)
        else if statusCode attemptResult >=? 400 then
          if (negb (isRetriableStatus (statusCode attemptResult))
              || (attempt >=? maxDownloadAttempts))%bool then
            (Some (failed_result item (resolvedUrl attemptResult)
                     (http_error (statusCode attemptResult))
                     attempt (clock env)), w1)
          else loop fuel (attempt + 1) (sleep (backoff attempt) w1)
        else (Some (ok_result item finalPath attemptResult attempt (clock env)), w1)
    | Thrown message =>
        if attempt >=? maxDownloadAttempts then
          (Some (failed_result item None message attempt (clock env)), w1)
        else loop fuel (attempt + 1) (sleep (backoff attempt) w1)
    end
  else (None, w).
Proof. reflexivity. Qed.

Lemma loop_fuel_S (fuel : nat) :
  forall (attempt : Z) (w : world),
    (attempts_left maxDownloadAttempts attempt <= fuel)%nat ->
    loop (S fuel) attempt w = loop fuel attempt w.
Proof.
  unfold attempts_left.
  induction fuel as [|fuel IH]; intros attempt w Hf.
  - rewrite !loop_exit by lia. reflexivity.
  - rewrite (loop_S (S fuel)), (loop_S fuel).
    destruct (Z.leb_spec attempt maxDownloadAttempts); [|reflexivity].
    cbv zeta. destruct (downloadAttempt _ _ _ _) as [[r|message] fs'].
    + destruct (statusCode r =? 404); [reflexivity|].
      destruct (statusCode r >=? 400); [|reflexivity].
      destruct (_ || _)%bool; [reflexivity|]. apply IH. lia.
    + destruct (attempt >=? maxDownloadAttempts); [reflexivity|]. apply IH. lia.
Qed.

(** [attempts_left] iterations are enough: more fuel changes nothing. *)
Lemma loop_fuel (extra : nat) (attempt : Z) (w : world) :
  loop (attempts_left maxDownloadAttempts attempt + extra) attempt w =
  loop (attempts_left maxDownloadAttempts attempt) attempt w.
Proof.
  induction extra as [|extra IH].
  - now rewrite Nat.add_0_r.
  - rewrite Nat.add_succ_r, loop_fuel_S by lia. exact IH.
Qed.

(** C5. In the attempt loop, a request answered with HTTP status 404 is
    the last thing the loop does: no request and no backoff sleep
    follows it, and the loop ends with a [download_failed] result whose
    error is ["HTTP 404"], carrying the number of the attempt that
    received the 404, however many attempts were left. *)
Theorem http_404_ends_attempt_loop (fuel : nat) :
  forall (attempt : Z) (w : world),
    let result := fst (loop fuel attempt w) in
    let w' := snd (loop fuel attempt w) in
    exists events,
      trace w' = trace w ++ events
      /\ forall before n after response,
           events = before ++ Request n :: after ->
           fetched (environment n) = FetchResolves response ->
           Http.status response = 404 ->
           after = []
           /\ (requests w <= n)%nat
           /\ requests w' = S n
           /\ exists r,
                result = Some r
                /\ DownloadResult.status r = DownloadResult.download_failed
                /\ DownloadResult.error r = Some "HTTP 404"%string
                /\ DownloadResult.attempt r = attempt + Z.of_nat (n - requests w)
                /\ DownloadResult.attempt r <= maxDownloadAttempts
                /\ DownloadResult.docId r = DownloadWorkItem.docId item.
Proof.
  induction fuel as [|fuel IH]; intros attempt w.
  - exists []. simpl. split; [now rewrite app_nil_r|].
    intros before n after response E. now destruct before.
  - destruct (Z.lt_ge_cases maxDownloadAttempts attempt) as [Hgt|Hle].
    { rewrite loop_exit by exact Hgt. exists []. simpl.
      split; [now rewrite app_nil_r|].
      intros before n after response E. now destruct before. }
    destruct (fetched (environment (requests w))) as [message|response0] eqn:Ef.
    2: destruct (Z.eq_dec (Http.status response0) 404) as [E404|N404].
    2: { rewrite (loop_404 fuel attempt w response0 Hle Ef E404). simpl.
         exists [Request (requests w)]. split; [reflexivity|].
         intros before n after response E Efn Esn.
         destruct before as [|b before]; simpl in E.
         - injection E as <- <-. rewrite Ef in Efn. injection Efn as <-.
           split; [reflexivity|]. split; [lia|]. split; [reflexivity|].
           eexists; split; [reflexivity|]. simpl.
           rewrite Nat.sub_diag. repeat split; lia.
         - injection E as _ E. now destruct before. }
    all: destruct (loop_step fuel attempt w Hle) as (fs1 & [(r & E1)|(Hlt & E1)]);
      rewrite E1; simpl.
    all: try (exists [Request (requests w)]; split; [reflexivity|];
      intros before n after response E Efn Esn;
      destruct before as [|b before]; simpl in E;
      [injection E as <- <-; rewrite Ef in Efn; congruence
      |injection E as _ E; now destruct before]).
    all: match goal with
         | |- context [attempt_loop _ _ _ _ _ _ ?w1] =>
             destruct (IH (attempt + 1) w1) as (events & Etr & Hev)
         end;
      exists (Request (requests w) :: Sleep (backoff attempt) :: events);
      (split; [rewrite Etr; simpl; now rewrite <- !app_assoc|]);
      intros before n after response E Efn Esn;
      (destruct before as [|b before]; simpl in E;
       [injection E as <- _; rewrite Ef in Efn; congruence|]);
      injection E as _ E;
      (destruct before as [|b' before]; simpl in E; [discriminate|]);
      injection E as _ E;
      destruct (Hev before n after response E Efn Esn)
        as (Hafter & Hn & Hreq & r & Hr & Hst & Herr & Hatt & Hmax & Hdoc);
      simpl in Hn, Hatt;
      (split; [exact Hafter|]); (split; [lia|]); (split; [exact Hreq|]);
      exists r; repeat split; auto; rewrite Hatt; lia.
Qed.
End DownloadFacts.

(* ===================================================================== *)
(** ** Further facts about queries and updates *)
(* ===================================================================== *)

Section SelectFacts.
Context {A : Type} (key : A -> string).

Lemma filter_length_le (p : A -> bool) (rows : list A) :
  (length (List.filter p rows) <= length rows)%nat.
Proof.
  induction rows as [|x rows IH]; simpl; [lia|].
  destruct (p x); simpl; lia.
Qed.

Lemma select_In (order : A -> string) (p : A -> bool) (lim : Z) (rows : list A) (x : A) :
  In x (Sql.limit lim (Sql.order_by order (List.filter p rows))) ->
  In x rows /\ p x = true.
Proof.
  intros Hin. apply limit_incl in Hin. apply order_by_In in Hin.
  apply filter_In in Hin. exact Hin.
Qed.

Lemma select_all (order : A -> string) (p : A -> bool) (lim : Z) (rows : list A) (x : A) :
  lim < 0 \/ Z.of_nat (length rows) <= lim ->
  In x rows -> p x = true ->
  In x (Sql.limit lim (Sql.order_by order (List.filter p rows))).
Proof.
  intros Hlim Hin Hp. rewrite limit_all.
  - apply order_by_In. apply filter_In. split; assumption.
  - rewrite order_by_length. destruct Hlim as [Hlim|Hlim]; [left; exact Hlim|right].
    pose proof (filter_length_le p rows). lia.
Qed.

Lemma update_where_In (k : string) (set : A -> A) (rows : list A) (r' : A) :
  In r' (Sql.update_where key k set rows) <->
  exists r, In r rows /\ r' = if String.eqb (key r) k then set r else r.
Proof.
  unfold Sql.update_where. rewrite in_map_iff. split.
  - intros (r & E & Hin). exists r. split; [exact Hin|symmetry; exact E].
  - intros (r & Hin & E). exists r. split; [symmetry; exact E|exact Hin].
Qed.

Lemma update_where_hit (k : string) (set : A -> A) (rows : list A) (r : A) :
  In r rows -> key r = k -> In (set r) (Sql.update_where key k set rows).
Proof.
  intros Hin E. apply update_where_In. exists r. split; [exact Hin|].
  rewrite E, String.eqb_refl. reflexivity.
Qed.

Lemma update_where_miss (k : string) (set : A -> A) (rows : list A) (r : A) :
  In r rows -> key r <> k -> In r (Sql.update_where key k set rows).
Proof.
  intros Hin E. apply update_where_In. exists r. split; [exact Hin|].
  apply String.eqb_neq in E. rewrite E. reflexivity.
Qed.

Lemma update_where_only (k : string) (set : A -> A) (rows : list A) (r r' : A) :
  (forall x, key (set x) = key x) ->
  List.NoDup (map key rows) -> In r rows -> key r = k ->
  In r' (Sql.update_where key k set rows) -> key r' = k -> r' = set r.
Proof.
  intros Hkey Hnd Hin E Hin' E'.
  apply update_where_In in Hin'. destruct Hin' as (x & Hx & ->).
  destruct (String.eqb (key x) k) eqn:Ex.
  - apply String.eqb_eq in Ex.
    assert (x = r) as -> by (apply (key_unique key rows); congruence).
    reflexivity.
  - apply String.eqb_neq in Ex. contradiction.
Qed.

Lemma update_where_absent (k : string) (set : A -> A) (rows : list A) :
  ~ In k (map key rows) -> Sql.update_where key k set rows = rows.
Proof.
  intros Hk. unfold Sql.update_where.
  rewrite <- (map_id rows) at 2. apply map_ext_in. intros r Hr.
  destruct (String.eqb (key r) k) eqn:E; [|reflexivity].
  apply String.eqb_eq in E. exfalso. apply Hk. rewrite <- E. apply in_map. exact Hr.
Qed.

End SelectFacts.

(* ===================================================================== *)
(** ** The document life cycle *)
(* ===================================================================== *)

Section LifeCycle.
Import SqliteStore.

#[local] Abbreviation keys db := (map Document.docId (documents db)).

Lemma download_not_listed (lim maxAttempts : Z) (db : t) (k : string) :
  (forall d, In d (documents db) -> Document.docId d = k ->
             pending_download maxAttempts d = false) ->
  ~ In k (map DownloadWorkItem.docId (listPendingDownloads lim false maxAttempts db)).
Proof.
  intros Hno Hin. unfold listPendingDownloads in Hin.
  apply in_map_iff in Hin. destruct Hin as (w & Ew & Hin).
  apply in_map_iff in Hin. destruct Hin as (d & <- & Hin).
  apply pending_download_rows_In in Hin. destruct Hin as [Hin Hp].
  rewrite (Hno d Hin Ew) in Hp. discriminate.
Qed.

Lemma extract_listed (lim : Z) (force : bool) (maxAttempts : Z) (db : t)
    (w : ExtractWorkItem.t) :
  In w (listPendingExtracts lim force maxAttempts db) ->
  exists d,
    In d (documents db) /\ w = extract_work_item d
    /\ is_null (Document.rawLocation d) = false
    /\ (force = false -> pending_extract maxAttempts d = true).
Proof.
  unfold listPendingExtracts. intros Hin.
  apply in_map_iff in Hin. destruct Hin as (d & <- & Hin).
  exists d. destruct force.
  - apply select_In in Hin. destruct Hin as [Hin Hp].
    apply negb_true_iff in Hp. split_and!; try assumption; [reflexivity|discriminate].
  - apply select_In in Hin. destruct Hin as [Hin Hp].
    split_and!; try assumption; [reflexivity| |intros _; exact Hp].
    unfold pending_extract in Hp. rewrite !andb_true_iff in Hp.
    destruct Hp as [[[Hp _] _] _]. apply negb_true_iff in Hp. exact Hp.
Qed.

Lemma extract_not_listed (lim : Z) (force : bool) (maxAttempts : Z) (db : t)
    (k : string) :
  (forall d, In d (documents db) -> Document.docId d = k ->
             is_null (Document.rawLocation d) = true
             \/ (force = false /\ pending_extract maxAttempts d = false)) ->
  ~ In k (map ExtractWorkItem.docId (listPendingExtracts lim force maxAttempts db)).
Proof.
  intros Hno Hin. apply in_map_iff in Hin. destruct Hin as (w & Ew & Hin).
  apply extract_listed in Hin. destruct Hin as (d & Hin & -> & Hraw & Hp).
  destruct (Hno d Hin Ew) as [E|[-> E]].
  - rewrite E in Hraw. discriminate.
  - rewrite (Hp eq_refl) in E. discriminate.
Qed.

Lemma extract_all_listed (lim maxAttempts : Z) (db : t) (d : Document.row) :
  lim < 0 \/ Z.of_nat (length (documents db)) <= lim ->
  In d (documents db) -> pending_extract maxAttempts d = true ->
  In (extract_work_item d) (listPendingExtracts lim false maxAttempts db).
Proof.
  intros Hlim Hin Hp. unfold listPendingExtracts. apply in_map.
  apply select_all; assumption.
Qed.

(** X1. [listPendingDownloads] with [force] ignores status, recorded error
    and attempt counter: it returns stored documents only, oldest
    [updatedAt] first, at most [limit] of them, every document when the
    limit allows (so also one whose attempts are used up), the ones left
    out by the limit being no older than the ones returned; [maxAttempts]
    has no influence on the result. *)
Theorem listPendingDownloads_force_lists_every_document (lim maxAttempts : Z) (db : t) :
  let rows := pending_download_rows lim true maxAttempts db in
  (forall d, In d rows -> In d (documents db))
  /\ StronglySorted (Sql.key_le Document.updatedAt) rows
  /\ (0 <= lim -> Z.of_nat (length rows) <= lim)
  /\ (lim < 0 \/ Z.of_nat (length (documents db)) <= lim ->
      forall d, In d (documents db) ->
        In (download_work_item d) (listPendingDownloads lim true maxAttempts db))
  /\ (forall kept cut,
        In kept rows -> In cut (documents db) -> ~ In cut rows ->
        String.leb (Document.updatedAt kept) (Document.updatedAt cut) = true)
  /\ (forall maxAttempts',
        listPendingDownloads lim true maxAttempts' db =
        listPendingDownloads lim true maxAttempts db).
Proof.
  cbv zeta. unfold listPendingDownloads, pending_download_rows. split_and!.
  - intros d Hin. apply limit_incl in Hin. apply order_by_In in Hin. exact Hin.
  - apply limit_sorted, order_by_sorted.
  - apply limit_length.
  - intros Hlim d Hin. apply in_map. rewrite limit_all.
    + apply order_by_In. exact Hin.
    + rewrite order_by_length. exact Hlim.
  - intros kept cut Hk Hc Hn.
    apply (limit_keeps_least Document.updatedAt lim
             (Sql.order_by Document.updatedAt (documents db))); try assumption.
    + apply order_by_sorted.
    + apply order_by_In. exact Hc.
  - reflexivity.
Qed.

Lemma apply_keeps_documents (op : operation) (db : t) (k : string) :
  In k (keys db) -> In k (keys (apply op db)).
Proof.
  intros Hk. destruct op; cbn [apply];
    try (unfold markDownloadResult, markExtractionResult, markRemoteUnchanged,
           markRemoteChanged, markRawMissing; cbn [documents with_documents];
         rewrite update_where_keys by reflexivity; exact Hk).
  unfold upsertDiscovered. destruct (Sql.get_where _ _ _); cbn [documents with_documents].
  - rewrite update_where_keys by reflexivity. exact Hk.
  - rewrite map_app. apply in_app_iff. left. exact Hk.
Qed.

Lemma passive_keeps (P : Document.row -> Prop) (op : operation) (db : t) (k : string) :
  (forall excluded d, P d -> P (refresh_discovered excluded d)) ->
  (forall checkedAt etag lastModified d,
     P d -> P (set_remote_unchanged checkedAt etag lastModified d)) ->
  passive op = true ->
  In k (keys db) ->
  (forall d, In d (documents db) -> Document.docId d = k -> P d) ->
  forall d, In d (documents (apply op db)) -> Document.docId d = k -> P d.
Proof.
  intros Hup Hun Hop Hk Hdb d' Hin Ek. destruct op; try discriminate; cbn [apply] in Hin.
  - unfold upsertDiscovered in Hin.
    destruct (Sql.get_where _ _ _) eqn:G; cbn [documents with_documents] in Hin.
    + apply update_where_In in Hin. destruct Hin as (d & Hd & ->).
      destruct (String.eqb _ _).
      * apply Hup. exact (Hdb d Hd Ek).
      * exact (Hdb d Hd Ek).
    + apply in_app_iff in Hin. destruct Hin as [Hin|[<-|[]]].
      * exact (Hdb d' Hin Ek).
      * exfalso. apply get_where_None in G. apply G. cbn in Ek. cbn. rewrite Ek. exact Hk.
  - unfold markRemoteUnchanged in Hin. cbn [documents with_documents] in Hin.
    apply update_where_In in Hin. destruct Hin as (d & Hd & ->).
    destruct (String.eqb _ _).
    + apply Hun. exact (Hdb d Hd Ek).
    + exact (Hdb d Hd Ek).
Qed.

Lemma passive_all_keeps (P : Document.row -> Prop) (ops : list operation) (k : string) :
  (forall excluded d, P d -> P (refresh_discovered excluded d)) ->
  (forall checkedAt etag lastModified d,
     P d -> P (set_remote_unchanged checkedAt etag lastModified d)) ->
  forallb passive ops = true ->
  forall db,
    In k (keys db) ->
    (forall d, In d (documents db) -> Document.docId d = k -> P d) ->
    In k (keys (apply_all ops db))
    /\ forall d, In d (documents (apply_all ops db)) -> Document.docId d = k -> P d.
Proof.
  intros Hup Hun. induction ops as [|op ops IH]; intros Hops db Hk Hdb.
  - split; assumption.
  - cbn [forallb] in Hops. apply andb_true_iff in Hops. destruct Hops as [Hop Hops].
    unfold apply_all. cbn [fold_left]. apply (IH Hops).
    + apply apply_keeps_documents. exact Hk.
    + apply passive_keeps; assumption.
Qed.

Lemma revalidation_not_listed (lim : Z) (cutoff : string) (db : t) (k : string) :
  (forall d, In d (documents db) -> Document.docId d = k ->
             revalidation_candidate cutoff d = false) ->
  ~ In k (map RevalidationItem.docId (listRevalidationCandidates lim cutoff db)).
Proof.
  intros Hno Hin. apply in_map_iff in Hin. destruct Hin as (w & Ew & Hin).
  apply in_map_iff in Hin. destruct Hin as (d & <- & Hin).
  unfold revalidation_rows, order_by2 in Hin.
  apply limit_incl in Hin. apply order_by_In in Hin. apply order_by_In in Hin.
  apply filter_In in Hin. destruct Hin as [Hin Hp].
  rewrite (Hno d Hin Ew) in Hp. discriminate.
Qed.

(** X2. A download result with status [download_failed] and an error that
    matches ['HTTP 404%'] is final: after [markDownloadResult], and after
    any further crawls ([upsertDiscovered]) and unchanged revalidations
    ([markRemoteUnchanged]) of any documents, the document is still stored
    and is listed neither by [listPendingDownloads] nor by
    [listPendingExtracts] without [force], whatever limit and attempt cap,
    nor by [listRevalidationCandidates]. *)
Theorem http_404_result_is_final (r : DownloadResult.t) (e : string) (db : t)
    (d : Document.row) (ops : list operation) :
  In d (documents db) ->
  DownloadResult.docId r = Document.docId d ->
  DownloadResult.status r = DownloadResult.download_failed ->
  DownloadResult.error r = Some e ->
  Sql.like_prefix "HTTP 404" e = true ->
  forallb passive ops = true ->
  let db' := apply_all ops (markDownloadResult r db) in
  In (Document.docId d) (keys db')
  /\ (forall lim maxAttempts,
        ~ In (Document.docId d)
            (map DownloadWorkItem.docId (listPendingDownloads lim false maxAttempts db')))
  /\ (forall lim maxAttempts,
        ~ In (Document.docId d)
            (map ExtractWorkItem.docId (listPendingExtracts lim false maxAttempts db')))
  /\ (forall lim checkedBeforeIso,
        ~ In (Document.docId d)
            (map RevalidationItem.docId
               (listRevalidationCandidates lim checkedBeforeIso db'))).
Proof.
  intros Hin Hid Hst He Hlike Hops db'.
  pose (P := fun x : Document.row =>
               Document.lastStatus x = Some Document.download_failed
               /\ Document.error x = Some e).
  assert (In (Document.docId d) (keys db')
          /\ forall x, In x (documents db') -> Document.docId x = Document.docId d -> P x)
    as [Hk HP].
  { apply passive_all_keeps; try assumption.
    - intros excluded x Hx. exact Hx.
    - intros checkedAt etag lastModified x Hx. exact Hx.
    - unfold markDownloadResult. cbn [documents with_documents].
      rewrite update_where_keys by reflexivity. apply in_map. exact Hin.
    - intros x Hx Ex. unfold markDownloadResult in Hx. cbn [documents with_documents] in Hx.
      apply update_where_In in Hx. destruct Hx as (x0 & Hx0 & ->).
      destruct (String.eqb (Document.docId x0) (DownloadResult.docId r)) eqn:E.
      + unfold P. cbn. rewrite Hst. split; [reflexivity|exact He].
      + apply String.eqb_neq in E. rewrite Hid in E. contradiction. }
  split_and!.
  - exact Hk.
  - intros lim maxAttempts. apply download_not_listed. intros x Hx Ex.
    destruct (HP x Hx Ex) as [Hs Herr].
    unfold pending_download, is_status, error_not_404, is_null.
    rewrite Hs, Herr, Hlike. reflexivity.
  - intros lim maxAttempts. apply extract_not_listed. intros x Hx Ex.
    destruct (HP x Hx Ex) as [Hs Herr]. right. split; [reflexivity|].
    unfold pending_extract, is_status. rewrite Hs. cbn.
    rewrite !andb_false_r. reflexivity.
  - intros lim cutoff. apply revalidation_not_listed. intros x Hx Ex.
    destruct (HP x Hx Ex) as [Hs Herr].
    unfold revalidation_candidate, raw_downloaded, is_status. rewrite Hs. cbn.
    rewrite !andb_false_r. reflexivity.
Qed.

End LifeCycle.

Section HandOver.
Import SqliteStore.

(** X3. A download result that is not [download_failed] and carries a
    digest and a raw location takes the document out of the non-force
    download queue and, while its extraction attempts are below the cap,
    into the extraction queue: the work item listed for it is exactly
    [docId], the stored raw location and [attemptsExtract + 1]; the file is
    also among [listDownloadedRawFiles]. *)
Theorem downloaded_document_is_handed_to_extraction (r : DownloadResult.t)
    (digest raw : string) (db : t) (d : Document.row) :
  List.NoDup (map Document.docId (documents db)) ->
  In d (documents db) ->
  DownloadResult.docId r = Document.docId d ->
  DownloadResult.status r <> DownloadResult.download_failed ->
  DownloadResult.sha256 r = Some digest ->
  DownloadResult.rawLocation r = Some raw ->
  let db' := markDownloadResult r db in
  let work :=
    {| ExtractWorkItem.docId := Document.docId d;
       ExtractWorkItem.rawLocation := raw;
       ExtractWorkItem.attempt := Document.attemptsExtract d + 1 |} in
  (forall lim maxAttempts,
     ~ In (Document.docId d)
         (map DownloadWorkItem.docId (listPendingDownloads lim false maxAttempts db')))
  /\ (forall lim maxAttempts w,
        In w (listPendingExtracts lim false maxAttempts db') ->
        ExtractWorkItem.docId w = Document.docId d ->
        w = work /\ Document.attemptsExtract d < maxAttempts)
  /\ (forall lim maxAttempts,
        Document.attemptsExtract d < maxAttempts ->
        lim < 0 \/ Z.of_nat (length (documents db)) <= lim ->
        In work (listPendingExtracts lim false maxAttempts db'))
  /\ (forall lim,
        lim < 0 \/ Z.of_nat (length (documents db)) <= lim ->
        In {| RawFileItem.docId := Document.docId d; RawFileItem.rawLocation := raw |}
          (listDownloadedRawFiles lim db')).
Proof.
  intros Hnd Hin Hid Hst Hsha Hraw db' work.
  assert (Hd' : In (set_download_result r d) (documents db')).
  { apply update_where_hit; [exact Hin|symmetry; exact Hid]. }
  assert (Honly : forall x, In x (documents db') -> Document.docId x = Document.docId d ->
                            x = set_download_result r d).
  { intros x Hx Ex.
    apply (update_where_only Document.docId (DownloadResult.docId r)
             (set_download_result r) (documents db) d x);
      try assumption; try reflexivity; congruence. }
  assert (Hstatus : Document.lastStatus (set_download_result r d)
                    = Some Document.downloaded_ok).
  { cbn. destruct (DownloadResult.status r); try reflexivity. contradiction. }
  assert (Hlen : length (documents db') = length (documents db)).
  { apply update_where_length. }
  assert (Hpe : forall maxAttempts,
            pending_extract maxAttempts (set_download_result r d)
            = (Document.attemptsExtract d <? maxAttempts)).
  { intros maxAttempts. unfold pending_extract, is_status. rewrite Hstatus.
    cbn. rewrite Hraw. cbn. rewrite !andb_true_r. reflexivity. }
  assert (Hwork : extract_work_item (set_download_result r d) = work).
  { unfold extract_work_item, work. cbn. rewrite Hraw. reflexivity. }
  split_and!.
  - intros lim maxAttempts. apply download_not_listed. intros x Hx Ex.
    rewrite (Honly x Hx Ex). unfold pending_download, is_status, is_null.
    rewrite Hstatus. cbn. rewrite Hsha, Hraw. reflexivity.
  - intros lim maxAttempts w Hw Ew.
    apply extract_listed in Hw. destruct Hw as (x & Hx & -> & _ & Hp).
    rewrite (Honly x Hx Ew) in *. split; [exact Hwork|].
    specialize (Hp eq_refl). rewrite Hpe in Hp. apply Z.ltb_lt. exact Hp.
  - intros lim maxAttempts Hlt Hlim. rewrite <- Hwork.
    apply extract_all_listed; [rewrite Hlen; exact Hlim|exact Hd'|].
    rewrite Hpe. apply Z.ltb_lt. exact Hlt.
  - intros lim Hlim. unfold listDownloadedRawFiles, raw_file_rows.
    replace {| RawFileItem.docId := Document.docId d; RawFileItem.rawLocation := raw |}
      with (raw_file_item (set_download_result r d))
      by (unfold raw_file_item; cbn; rewrite Hraw; reflexivity).
    apply in_map. apply select_all; [rewrite Hlen; exact Hlim|exact Hd'|].
    unfold raw_downloaded, is_status. rewrite Hstatus. cbn. rewrite Hraw. reflexivity.
Qed.

(** X4. Every work item of [listPendingExtracts], with or without [force],
    comes from a stored document whose [rawLocation] is not [NULL] and is
    the item's [rawLocation]; its attempt is [attemptsExtract + 1].
    Without [force] the document is [downloaded_ok] or [extracted_failed]
    with extraction attempts below the cap.  A non-negative limit bounds
    the number of items. *)
Theorem listPendingExtracts_needs_stored_raw_file (lim : Z) (force : bool)
    (maxAttempts : Z) (db : t) (w : ExtractWorkItem.t) :
  In w (listPendingExtracts lim force maxAttempts db) ->
  (0 <= lim -> Z.of_nat (length (listPendingExtracts lim force maxAttempts db)) <= lim)
  /\ exists d,
       In d (documents db)
       /\ ExtractWorkItem.docId w = Document.docId d
       /\ Document.rawLocation d = Some (ExtractWorkItem.rawLocation w)
       /\ ExtractWorkItem.attempt w = Document.attemptsExtract d + 1
       /\ (force = false ->
           (Document.lastStatus d = Some Document.downloaded_ok
            \/ Document.lastStatus d = Some Document.extracted_failed)
           /\ Document.attemptsExtract d < maxAttempts).
Proof.
  intros Hw. split.
  - unfold listPendingExtracts. rewrite length_map. apply limit_length.
  - apply extract_listed in Hw. destruct Hw as (d & Hin & -> & Hraw & Hp).
    exists d. split_and!; try reflexivity; try assumption.
    + unfold extract_work_item. cbn.
      destruct (Document.rawLocation d); [reflexivity|discriminate].
    + intros Hf. specialize (Hp Hf). unfold pending_extract in Hp.
      rewrite !andb_true_iff in Hp. destruct Hp as [[[_ Hlt] Hs] _].
      split; [|apply Z.ltb_lt; exact Hlt].
      apply orb_true_iff in Hs. destruct Hs as [Hs|Hs]; apply is_status_iff in Hs; tauto.
Qed.

(** X5. After [markExtractionResult] the document is never listed for
    download without [force].  When the result is [extracted_ok] or
    [skipped] it is not listed for extraction either; when it is
    [extracted_failed] it is listed again exactly while the bumped attempt
    counter is below the cap and a raw file is stored, with attempt one
    more than the counter. *)
Theorem markExtractionResult_settles_document (r : ExtractionResult.t) (db : t)
    (d : Document.row) :
  List.NoDup (map Document.docId (documents db)) ->
  In d (documents db) ->
  ExtractionResult.docId r = Document.docId d ->
  let db' := markExtractionResult r db in
  let attempts :=
    bump_attempts (ExtractionResult.attempt r) (Document.attemptsExtract d) in
  (forall lim maxAttempts,
     ~ In (Document.docId d)
         (map DownloadWorkItem.docId (listPendingDownloads lim false maxAttempts db')))
  /\ (ExtractionResult.status r <> ExtractionResult.extracted_failed ->
      forall lim maxAttempts,
        ~ In (Document.docId d)
            (map ExtractWorkItem.docId (listPendingExtracts lim false maxAttempts db')))
  /\ (ExtractionResult.status r = ExtractionResult.extracted_failed ->
      forall lim maxAttempts w,
        In w (listPendingExtracts lim false maxAttempts db') ->
        ExtractWorkItem.docId w = Document.docId d ->
        attempts < maxAttempts
        /\ ExtractWorkItem.attempt w = attempts + 1
        /\ Document.rawLocation d = Some (ExtractWorkItem.rawLocation w))
  /\ (ExtractionResult.status r = ExtractionResult.extracted_failed ->
      forall lim maxAttempts raw,
        Document.rawLocation d = Some raw ->
        attempts < maxAttempts ->
        lim < 0 \/ Z.of_nat (length (documents db)) <= lim ->
        In {| ExtractWorkItem.docId := Document.docId d;
              ExtractWorkItem.rawLocation := raw;
              ExtractWorkItem.attempt := attempts + 1 |}
          (listPendingExtracts lim false maxAttempts db')).
Proof.
  intros Hnd Hin Hid db' attempts.
  assert (Hd' : In (set_extraction_result r d) (documents db')).
  { apply update_where_hit; [exact Hin|symmetry; exact Hid]. }
  assert (Honly : forall x, In x (documents db') -> Document.docId x = Document.docId d ->
                            x = set_extraction_result r d).
  { intros x Hx Ex.
    apply (update_where_only Document.docId (ExtractionResult.docId r)
             (set_extraction_result r) (documents db) d x);
      try assumption; try reflexivity; congruence. }
  assert (Hlen : length (documents db') = length (documents db)).
  { apply update_where_length. }
  split_and!.
  - intros lim maxAttempts. apply download_not_listed. intros x Hx Ex.
    rewrite (Honly x Hx Ex). unfold pending_download, is_status, is_null. cbn.
    destruct (ExtractionResult.status r); reflexivity.
  - intros Hst lim maxAttempts. apply extract_not_listed. intros x Hx Ex.
    rewrite (Honly x Hx Ex). right. split; [reflexivity|].
    unfold pending_extract, is_status. cbn.
    destruct (ExtractionResult.status r); cbn; try contradiction;
      rewrite ?andb_false_r; reflexivity.
  - intros Hst lim maxAttempts w Hw Ew.
    apply extract_listed in Hw. destruct Hw as (x & Hx & -> & Hraw & Hp).
    rewrite (Honly x Hx Ew) in *. specialize (Hp eq_refl).
    unfold pending_extract in Hp. rewrite !andb_true_iff in Hp.
    destruct Hp as [[[_ Hlt] _] _]. cbn in Hlt, Hraw. split_and!.
    + apply Z.ltb_lt. exact Hlt.
    + reflexivity.
    + cbn. destruct (Document.rawLocation d); [reflexivity|discriminate].
  - intros Hst lim maxAttempts raw Hraw Hlt Hlim.
    replace {| ExtractWorkItem.docId := Document.docId d;
               ExtractWorkItem.rawLocation := raw;
               ExtractWorkItem.attempt := attempts + 1 |}
      with (extract_work_item (set_extraction_result r d))
      by (unfold extract_work_item; cbn; rewrite Hraw; reflexivity).
    apply extract_all_listed; [rewrite Hlen; exact Hlim|exact Hd'|].
    unfold pending_extract, is_status. cbn. rewrite Hraw, Hst. cbn.
    rewrite !andb_true_r. apply Z.ltb_lt. exact Hlt.
Qed.

(** X6. [markRawMissing] sends a document back to download: it is no
    longer among [listDownloadedRawFiles], [listPendingExtracts] (even with
    [force]) or [listRevalidationCandidates], and [listPendingDownloads]
    lists it, with its next attempt number, exactly while its download
    attempts are below the cap. *)
Theorem markRawMissing_sends_document_back_to_download (checkedAt : string) (db : t)
    (d : Document.row) :
  List.NoDup (map Document.docId (documents db)) ->
  In d (documents db) ->
  let db' := markRawMissing (Document.docId d) checkedAt db in
  (forall lim,
     ~ In (Document.docId d) (map RawFileItem.docId (listDownloadedRawFiles lim db')))
  /\ (forall lim force maxAttempts,
        ~ In (Document.docId d)
            (map ExtractWorkItem.docId (listPendingExtracts lim force maxAttempts db')))
  /\ (forall lim checkedBeforeIso,
        ~ In (Document.docId d)
            (map RevalidationItem.docId
               (listRevalidationCandidates lim checkedBeforeIso db')))
  /\ (forall lim maxAttempts,
        In (Document.docId d)
          (map DownloadWorkItem.docId (listPendingDownloads lim false maxAttempts db')) ->
        Document.attemptsDownload d < maxAttempts)
  /\ (forall lim maxAttempts,
        Document.attemptsDownload d < maxAttempts ->
        lim < 0 \/ Z.of_nat (length (documents db)) <= lim ->
        In {| DownloadWorkItem.docId := Document.docId d;
              DownloadWorkItem.url := Document.url d;
              DownloadWorkItem.title := Document.title d;
              DownloadWorkItem.attempt := Document.attemptsDownload d + 1 |}
          (listPendingDownloads lim false maxAttempts db')).
Proof.
  intros Hnd Hin db'.
  assert (Hd' : In (set_raw_missing checkedAt d) (documents db')).
  { apply update_where_hit; [exact Hin|reflexivity]. }
  assert (Honly : forall x, In x (documents db') -> Document.docId x = Document.docId d ->
                            x = set_raw_missing checkedAt d).
  { intros x Hx Ex.
    apply (update_where_only Document.docId (Document.docId d)
             (set_raw_missing checkedAt) (documents db) d x);
      try assumption; reflexivity. }
  assert (Hlen : length (documents db') = length (documents db)).
  { apply update_where_length. }
  split_and!.
  - intros lim Hl. apply in_map_iff in Hl. destruct Hl as (w & Ew & Hl).
    apply in_map_iff in Hl. destruct Hl as (x & <- & Hl).
    apply select_In in Hl. destruct Hl as [Hx Hp].
    rewrite (Honly x Hx Ew) in Hp. discriminate.
  - intros lim force maxAttempts. apply extract_not_listed. intros x Hx Ex.
    rewrite (Honly x Hx Ex). left. reflexivity.
  - intros lim cutoff. apply revalidation_not_listed. intros x Hx Ex.
    rewrite (Honly x Hx Ex). reflexivity.
  - intros lim maxAttempts Hl. apply in_map_iff in Hl. destruct Hl as (w & Ew & Hl).
    apply in_map_iff in Hl. destruct Hl as (x & <- & Hl).
    apply pending_download_rows_In in Hl. destruct Hl as [Hx Hp].
    rewrite (Honly x Hx Ew) in Hp. unfold pending_download in Hp.
    apply andb_true_iff in Hp. destruct Hp as [_ Hp]. apply Z.ltb_lt. exact Hp.
  - intros lim maxAttempts Hlt Hlim.
    change {| DownloadWorkItem.docId := Document.docId d;
              DownloadWorkItem.url := Document.url d;
              DownloadWorkItem.title := Document.title d;
              DownloadWorkItem.attempt := Document.attemptsDownload d + 1 |}
      with (download_work_item (set_raw_missing checkedAt d)).
    apply in_map. apply pending_download_rows_all.
    + destruct Hlim as [Hlim|Hlim]; [left; exact Hlim|right].
      pose proof (filter_length_le (pending_download maxAttempts) (documents db')).
      lia.
    + exact Hd'.
    + unfold pending_download. cbn. apply Z.ltb_lt. exact Hlt.
Qed.

End HandOver.

(* ===================================================================== *)
(** ** Two-key order, revalidation, statistics and runs *)
(* ===================================================================== *)

Section TwoKeys.
Context {A : Type} (k1 k2 : A -> string).

Lemma string_leb_cases (a b : string) :
  String.leb a b = true -> String.ltb a b = true \/ a = b.
Proof.
  unfold String.leb, String.ltb. destruct (String.compare a b) eqn:E; intros Hle.
  - right. apply String.compare_eq_iff. exact E.
  - left. reflexivity.
  - discriminate.
Qed.

Lemma string_ltb_leb (a b : string) : String.ltb a b = true -> String.leb a b = true.
Proof.
  unfold String.leb, String.ltb. destruct (String.compare a b); congruence.
Qed.

Lemma key2_le_first (a b : A) : SqliteStore.key2_le k1 k2 a b -> Sql.key_le k1 a b.
Proof.
  unfold Sql.key_le. intros [Hlt|[E _]].
  - apply string_ltb_leb. exact Hlt.
  - rewrite E. apply string_leb_refl.
Qed.

Lemma insert_row_In (r x : A) (rows : list A) :
  In x (Sql.insert_row k1 r rows) <-> x = r \/ In x rows.
Proof.
  split.
  - intros Hin. apply (Permutation_in _ (insert_row_perm k1 r rows)) in Hin.
    destruct Hin as [<-|Hin]; [left; reflexivity|right; exact Hin].
  - intros Hin. apply (Permutation_in _ (Permutation_sym (insert_row_perm k1 r rows))).
    destruct Hin as [->|Hin]; [left; reflexivity|right; exact Hin].
Qed.

Lemma insert_row_sorted2 (r : A) (rows : list A) :
  StronglySorted (SqliteStore.key2_le k1 k2) rows ->
  (forall x, In x rows -> String.leb (k2 r) (k2 x) = true) ->
  StronglySorted (SqliteStore.key2_le k1 k2) (Sql.insert_row k1 r rows).
Proof.
  induction rows as [|x rows IH]; intros Hs Hr; cbn [Sql.insert_row].
  - constructor; constructor.
  - inversion Hs as [|? ? Hs' Hx]; subst.
    destruct (String.leb (k1 r) (k1 x)) eqn:E.
    + constructor; [exact Hs|].
      apply List.Forall_forall. intros y Hy.
      assert (String.leb (k1 r) (k1 y) = true) as Hle.
      { destruct Hy as [<-|Hy]; [exact E|].
        apply (string_leb_trans _ (k1 x)); [exact E|].
        apply key2_le_first. exact (proj1 (List.Forall_forall _ _) Hx y Hy). }
      apply string_leb_cases in Hle. destruct Hle as [Hlt|Heq].
      * left. exact Hlt.
      * right. split; [exact Heq|apply Hr; exact Hy].
    + constructor.
      * apply IH; [exact Hs'|]. intros y Hy. apply Hr. right. exact Hy.
      * apply List.Forall_forall. intros y Hy. apply insert_row_In in Hy.
        destruct Hy as [->|Hy].
        -- left. destruct (String.ltb (k1 x) (k1 r)) eqn:L; [reflexivity|].
           apply string_ltb_leb_false in L. congruence.
        -- exact (proj1 (List.Forall_forall _ _) Hx y Hy).
Qed.

Lemma order_by_sorted2 (rows : list A) :
  StronglySorted (Sql.key_le k2) rows ->
  StronglySorted (SqliteStore.key2_le k1 k2) (Sql.order_by k1 rows).
Proof.
  induction rows as [|a rows IH]; intros Hs.
  - constructor.
  - inversion Hs as [|? ? Hs' Ha]; subst.
    change (Sql.order_by k1 (a :: rows))
      with (Sql.insert_row k1 a (Sql.order_by k1 rows)).
    apply insert_row_sorted2; [apply IH; exact Hs'|].
    intros x Hx. apply order_by_In in Hx.
    exact (proj1 (List.Forall_forall _ _) Ha x Hx).
Qed.

Lemma order_by2_sorted (rows : list A) :
  StronglySorted (SqliteStore.key2_le k1 k2) (SqliteStore.order_by2 k1 k2 rows).
Proof. apply order_by_sorted2, order_by_sorted. Qed.

Lemma order_by2_In (rows : list A) (x : A) :
  In x (SqliteStore.order_by2 k1 k2 rows) <-> In x rows.
Proof. unfold SqliteStore.order_by2. rewrite !order_by_In. reflexivity. Qed.

Lemma order_by2_length (rows : list A) :
  length (SqliteStore.order_by2 k1 k2 rows) = length rows.
Proof. unfold SqliteStore.order_by2. rewrite !order_by_length. reflexivity. Qed.

Lemma limit_sorted_by (R : A -> A -> Prop) (n : Z) (rows : list A) :
  StronglySorted R rows -> StronglySorted R (Sql.limit n rows).
Proof.
  unfold Sql.limit. destruct (n <? 0); [tauto|].
  generalize (Z.to_nat n). intros m. revert rows.
  induction m as [|m IH]; intros rows Hs; [constructor|].
  destruct rows as [|x rows]; [constructor|].
  inversion Hs as [|? ? Hs' Hx]; subst. cbn [firstn]. constructor.
  - apply IH. exact Hs'.
  - apply List.Forall_forall. intros y Hy.
    apply (proj1 (List.Forall_forall _ _) Hx).
    assert (incl (firstn m rows) rows) as Hincl.
    { rewrite <- (firstn_skipn m rows) at 2. apply incl_appl, incl_refl. }
    apply Hincl. exact Hy.
Qed.
End TwoKeys.

Section Revalidation.
Import SqliteStore.

(** X7. [listRevalidationCandidates] returns stored documents that have a
    raw file, are [downloaded_ok] or [extracted_ok] and were never checked
    or last checked before the cut-off; they come least recently checked
    first (never checked first of all), documents checked at the same time
    by [updatedAt]; a non-negative limit bounds their number, and every
    such document is returned when the limit allows. *)
Theorem listRevalidationCandidates_least_recently_checked_first (lim : Z)
    (checkedBeforeIso : string) (db : t) :
  let rows := revalidation_rows lim checkedBeforeIso db in
  (forall d, In d rows ->
     In d (documents db)
     /\ Document.rawLocation d <> None
     /\ (Document.lastStatus d = Some Document.downloaded_ok
         \/ Document.lastStatus d = Some Document.extracted_ok)
     /\ (Document.lastCheckedAt d = None
         \/ exists checked, Document.lastCheckedAt d = Some checked
                            /\ String.ltb checked checkedBeforeIso = true))
  /\ StronglySorted (key2_le checked_key Document.updatedAt) rows
  /\ (0 <= lim -> Z.of_nat (length rows) <= lim)
  /\ (lim < 0 \/ Z.of_nat (length (documents db)) <= lim ->
      forall d, In d (documents db) ->
        revalidation_candidate checkedBeforeIso d = true ->
        In (revalidation_item d) (listRevalidationCandidates lim checkedBeforeIso db)).
Proof.
  cbv zeta. unfold listRevalidationCandidates, revalidation_rows. split_and!.
  - intros d Hin. apply limit_incl in Hin. apply order_by2_In in Hin.
    apply filter_In in Hin. destruct Hin as [Hin Hp].
    unfold revalidation_candidate, raw_downloaded in Hp.
    rewrite !andb_true_iff in Hp. destruct Hp as [[Hraw Hs] Hc].
    split_and!.
    + exact Hin.
    + apply negb_true_iff in Hraw. destruct (Document.rawLocation d); discriminate.
    + apply orb_true_iff in Hs. destruct Hs as [Hs|Hs]; apply is_status_iff in Hs; tauto.
    + destruct (Document.lastCheckedAt d) as [checked|]; [right|left; reflexivity].
      exists checked. split; [reflexivity|exact Hc].
  - apply limit_sorted_by, order_by2_sorted.
  - apply limit_length.
  - intros Hlim d Hin Hp. apply in_map. rewrite limit_all.
    + apply order_by2_In. apply filter_In. split; assumption.
    + rewrite order_by2_length. destruct Hlim as [Hlim|Hlim]; [left; exact Hlim|right].
      pose proof (filter_length_le (revalidation_candidate checkedBeforeIso) (documents db)).
      lia.
Qed.

(** X8. Recording the outcome of a revalidation takes the document off the
    candidate list: after [markRemoteUnchanged] it is no candidate for any
    cut-off that is not after the recorded check, and after
    [markRemoteChanged] it is no candidate for any cut-off. *)
Theorem revalidation_mark_defers_next_check (docId checkedAt : string)
    (etag lastModified : option string) (db : t) :
  (forall lim checkedBeforeIso,
     String.ltb checkedAt checkedBeforeIso = false ->
     ~ In docId
         (map RevalidationItem.docId
            (listRevalidationCandidates lim checkedBeforeIso
               (markRemoteUnchanged docId checkedAt etag lastModified db))))
  /\ (forall lim checkedBeforeIso,
        ~ In docId
            (map RevalidationItem.docId
               (listRevalidationCandidates lim checkedBeforeIso
                  (markRemoteChanged docId checkedAt etag lastModified db)))).
Proof.
  split_and!.
  - intros lim cutoff Hlt. apply revalidation_not_listed. intros x Hx Ex.
    unfold markRemoteUnchanged in Hx. cbn [documents with_documents] in Hx.
    apply update_where_In in Hx. destruct Hx as (x0 & Hx0 & ->).
    destruct (String.eqb (Document.docId x0) docId) eqn:E.
    + unfold revalidation_candidate. cbn. rewrite Hlt. apply andb_false_r.
    + apply String.eqb_neq in E. contradiction.
  - intros lim cutoff. apply revalidation_not_listed. intros x Hx Ex.
    unfold markRemoteChanged in Hx. cbn [documents with_documents] in Hx.
    apply update_where_In in Hx. destruct Hx as (x0 & Hx0 & ->).
    destruct (String.eqb (Document.docId x0) docId) eqn:E.
    + unfold revalidation_candidate, raw_downloaded, is_status. cbn.
      rewrite andb_false_r. reflexivity.
    + apply String.eqb_neq in E. contradiction.
Qed.
End Revalidation.

Section Statistics.
Import SqliteStore.

Lemma count_unchanged (p : Document.row -> bool) (k : string)
    (set : Document.row -> Document.row) (rows : list Document.row) :
  (forall r, p (set r) = p r) ->
  length (List.filter p (Sql.update_where Document.docId k set rows)) =
  length (List.filter p rows).
Proof.
  intros Hp. induction rows as [|x rows IH]; [reflexivity|].
  cbn [Sql.update_where map List.filter].
  fold (Sql.update_where Document.docId k set rows).
  destruct (String.eqb (Document.docId x) k).
  - rewrite Hp. destruct (p x); cbn [length]; rewrite IH; reflexivity.
  - destruct (p x); cbn [length]; rewrite IH; reflexivity.
Qed.

Lemma count_app (p : Document.row -> bool) (rows : list Document.row) (d : Document.row) :
  Z.of_nat (length (List.filter p (rows ++ [d]))) =
  Z.of_nat (length (List.filter p rows)) + (if p d then 1 else 0).
Proof.
  rewrite List.filter_app, length_app. cbn [List.filter].
  destruct (p d); cbn [length]; lia.
Qed.

(** X9. [getStats]: [totalDocuments] is the number of stored documents and
    equals the sum of the five status counts plus the number of documents
    whose [lastStatus] is [NULL]; no count is negative. *)
Theorem getStats_counts_every_document_once (db : t) :
  let stats := getStats db in
  StoreStats.totalDocuments stats = Z.of_nat (length (documents db))
  /\ StoreStats.totalDocuments stats =
       StoreStats.discovered stats + StoreStats.downloadedOk stats
       + StoreStats.downloadedFailed stats + StoreStats.extractedOk stats
       + StoreStats.extractedFailed stats
       + countWhere (fun d => is_null (Document.lastStatus d)) db
  /\ 0 <= StoreStats.discovered stats
  /\ 0 <= StoreStats.downloadedOk stats
  /\ 0 <= StoreStats.downloadedFailed stats
  /\ 0 <= StoreStats.extractedOk stats
  /\ 0 <= StoreStats.extractedFailed stats.
Proof.
  cbv zeta. unfold getStats, countWhere. cbn [StoreStats.totalDocuments
    StoreStats.discovered StoreStats.downloadedOk StoreStats.downloadedFailed
    StoreStats.extractedOk StoreStats.extractedFailed].
  split_and!; try lia.
  - induction (documents db) as [|x rows IH]; [reflexivity|].
    cbn [List.filter length]. lia.
  - assert (Hpoint : forall x,
              1 = (if is_status Document.discovered x then 1 else 0)
                  + (if is_status Document.downloaded_ok x then 1 else 0)
                  + (if is_status Document.download_failed x then 1 else 0)
                  + (if is_status Document.extracted_ok x then 1 else 0)
                  + (if is_status Document.extracted_failed x then 1 else 0)
                  + (if is_null (Document.lastStatus x) then 1 else 0)).
    { intros x. unfold is_status, is_null.
      destruct (Document.lastStatus x) as [[]|]; reflexivity. }
    induction (documents db) as [|x rows IH]; [reflexivity|].
    cbn [List.filter]. specialize (Hpoint x).
    destruct (is_status Document.discovered x), (is_status Document.downloaded_ok x),
      (is_status Document.download_failed x), (is_status Document.extracted_ok x),
      (is_status Document.extracted_failed x), (is_null (Document.lastStatus x));
      cbn [length]; lia.
Qed.

(** X10. [upsertDiscovered] counts a document once: for a [docId] already
    stored the statistics do not change, for a new [docId]
    [totalDocuments] and [discovered] grow by one and nothing else
    changes, a second discovery of the same [docId] changes nothing, and
    the primary key stays unique. *)
Theorem upsertDiscovered_counts_a_document_once (now : string)
    (item : DocumentDiscoveredItem.t) (db : t) :
  let db' := upsertDiscovered now item db in
  (In (DocumentDiscoveredItem.docId item) (map Document.docId (documents db)) ->
   getStats db' = getStats db)
  /\ (~ In (DocumentDiscoveredItem.docId item) (map Document.docId (documents db)) ->
      getStats db' =
      {| StoreStats.totalDocuments := StoreStats.totalDocuments (getStats db) + 1;
         StoreStats.discovered := StoreStats.discovered (getStats db) + 1;
         StoreStats.downloadedOk := StoreStats.downloadedOk (getStats db);
         StoreStats.downloadedFailed := StoreStats.downloadedFailed (getStats db);
         StoreStats.extractedOk := StoreStats.extractedOk (getStats db);
         StoreStats.extractedFailed := StoreStats.extractedFailed (getStats db) |})
  /\ (forall now2 item2,
        DocumentDiscoveredItem.docId item2 = DocumentDiscoveredItem.docId item ->
        getStats (upsertDiscovered now2 item2 db') = getStats db')
  /\ (List.NoDup (map Document.docId (documents db)) ->
      List.NoDup (map Document.docId (documents db'))).
Proof.
  assert (Hexisting : forall now1 item1 db1,
            In (DocumentDiscoveredItem.docId item1) (map Document.docId (documents db1)) ->
            getStats (upsertDiscovered now1 item1 db1) = getStats db1).
  { intros now1 item1 db1 Hk. unfold upsertDiscovered.
    destruct (Sql.get_where _ _ _) eqn:G.
    - unfold getStats, countWhere. cbn [documents with_documents].
      rewrite !count_unchanged by reflexivity. reflexivity.
    - apply get_where_None in G. contradiction. }
  cbv zeta. split_and!.
  - apply Hexisting.
  - intros Hk. unfold upsertDiscovered.
    destruct (Sql.get_where _ _ _) eqn:G.
    + apply get_where_Some in G. destruct G as [Hin E]. exfalso. apply Hk.
      cbn in E. rewrite <- E. apply in_map. exact Hin.
    + unfold getStats, countWhere. cbn [documents with_documents].
      rewrite !count_app. cbn. f_equal; lia.
  - intros now2 item2 E. apply Hexisting. rewrite E.
    unfold upsertDiscovered. destruct (Sql.get_where _ _ _) eqn:G;
      cbn [documents with_documents].
    + rewrite update_where_keys by reflexivity.
      apply get_where_Some in G. destruct G as [Hin E']. cbn in E'.
      rewrite <- E'. apply in_map. exact Hin.
    + rewrite map_app. apply in_app_iff. right. left. reflexivity.
  - exact (apply_keeps_primary_key (UpsertDiscovered now item) db).
Qed.
End Statistics.

Section Runs.
Import SqliteStore.

Lemma get_where_update_where {A : Type} (key : A -> string) (k k' : string)
    (set : A -> A) (rows : list A) :
  (forall r, key (set r) = key r) ->
  Sql.get_where key k' (Sql.update_where key k set rows) =
  if String.eqb k' k then option_map set (Sql.get_where key k rows)
  else Sql.get_where key k' rows.
Proof.
  intros Hkey. unfold Sql.get_where, Sql.update_where.
  induction rows as [|x rows IH]; cbn [map find option_map].
  - destruct (String.eqb k' k); reflexivity.
  - destruct (String.eqb_spec (key x) k) as [Ex|Ex].
    + rewrite Hkey. destruct (String.eqb_spec k' k) as [Ek|Ek].
      * subst k'. rewrite Ex, String.eqb_refl. reflexivity.
      * destruct (String.eqb_spec (key x) k') as [Ex'|Ex']; [congruence|].
        exact IH.
    + destruct (String.eqb_spec k' k) as [Ek|Ek].
      * subst k'. destruct (String.eqb_spec (key x) k); [contradiction|]. exact IH.
      * destruct (String.eqb (key x) k'); [reflexivity|exact IH].
Qed.

Lemma get_where_app {A : Type} (key : A -> string) (k : string) (rows : list A) (r : A) :
  Sql.get_where key k (rows ++ [r]) =
  match Sql.get_where key k rows with
  | Some x => Some x
  | None => if String.eqb (key r) k then Some r else None
  end.
Proof.
  unfold Sql.get_where. induction rows as [|x rows IH]; cbn [app find].
  - reflexivity.
  - destruct (String.eqb (key x) k); [reflexivity|exact IH].
Qed.

(** X11. [startRun] leaves exactly the row [(runId, startedAt, NULL,
    'running')] for its run, also when the run existed, keeps the other
    runs and the uniqueness of [runId]; [finishRun] then sets status and
    [finishedAt] of that row and keeps [startedAt]; [finishRun] of an
    unknown run changes nothing. *)
Theorem startRun_then_finishRun (runId startedAt : string) (runs : list Run.row) :
  let runs' := startRun runId startedAt runs in
  Sql.get_where Run.runId runId runs' = Some (started_row runId startedAt)
  /\ (forall other, other <> runId ->
        Sql.get_where Run.runId other runs' = Sql.get_where Run.runId other runs)
  /\ (List.NoDup (map Run.runId runs) -> List.NoDup (map Run.runId runs'))
  /\ (forall status finishedAt,
        Sql.get_where Run.runId runId (finishRun runId status finishedAt runs') =
        Some {| Run.runId := runId;
                Run.startedAt := startedAt;
                Run.finishedAt := Some finishedAt;
                Run.status := stored_run_status status |})
  /\ (forall status finishedAt,
        ~ In runId (map Run.runId runs) ->
        finishRun runId status finishedAt runs = runs).
Proof.
  cbv zeta.
  assert (Hget : Sql.get_where Run.runId runId (startRun runId startedAt runs)
                 = Some (started_row runId startedAt)).
  { unfold startRun. destruct (Sql.get_where Run.runId runId runs) as [r|] eqn:G.
    - rewrite get_where_update_where by reflexivity.
      rewrite String.eqb_refl, G. cbn [option_map].
      apply get_where_Some in G. destruct G as [_ E].
      unfold restart, started_row. cbn. rewrite E. reflexivity.
    - rewrite get_where_app, G. cbn. rewrite String.eqb_refl. reflexivity. }
  split_and!.
  - exact Hget.
  - intros other Hne. unfold startRun.
    destruct (Sql.get_where Run.runId runId runs) as [r|] eqn:G.
    + rewrite get_where_update_where by reflexivity.
      apply String.eqb_neq in Hne. rewrite Hne. reflexivity.
    + rewrite get_where_app. destruct (Sql.get_where Run.runId other runs); [reflexivity|].
      cbn. destruct (String.eqb_spec runId other); [congruence|reflexivity].
  - intros Hnd. unfold startRun.
    destruct (Sql.get_where Run.runId runId runs) as [r|] eqn:G.
    + rewrite update_where_keys by reflexivity. exact Hnd.
    + apply get_where_None in G. rewrite map_app.
      apply List.NoDup_app; [exact Hnd|repeat constructor; simpl; tauto|].
      intros x Hx [<-|[]]. contradiction.
  - intros status finishedAt. unfold finishRun.
    rewrite get_where_update_where by reflexivity.
    rewrite String.eqb_refl, Hget. reflexivity.
  - intros status finishedAt Hk. apply update_where_absent. exact Hk.
Qed.
End Runs.

Section JobFacts.
Import SqliteStore.

Lemma StronglySorted_map {A B : Type} (f : A -> B) (R : B -> B -> Prop) (l : list A) :
  StronglySorted (fun a b => R (f a) (f b)) l -> StronglySorted R (map f l).
Proof.
  induction 1 as [|a l Hs IH Ha]; cbn [map]; constructor; [exact IH|].
  apply List.Forall_forall. intros y Hy. apply in_map_iff in Hy.
  destruct Hy as (x & <- & Hx). exact (proj1 (List.Forall_forall _ _) Ha x Hx).
Qed.

Lemma claimed_ids (now : string) (lim : Z) (leaseUntil : string) (db : t) (k : string) :
  In k (map ClaimedExtractJob.jobId (fst (claimPendingExtractJobs now lim leaseUntil db)))
  <-> exists j, In j (claim_rows now lim db) /\ ExtractJob.jobId j = k.
Proof.
  rewrite claim_fst, map_map. cbn. rewrite in_map_iff. split.
  - intros (j & E & Hj). exists j. split; assumption.
  - intros (j & Hj & E). exists j. split; assumption.
Qed.

(** X12. [completeExtractJob] is terminal.  A known job gets the given
    status, [finishedAt], error and result reference; an unknown job id
    changes nothing.  A completed or failed job is not returned by any
    later [claimPendingExtractJobs], keeps its status through it, and
    [enqueueExtractJob] with its id does not queue it again.  The table of
    documents is untouched. *)
Theorem completeExtractJob_is_terminal (jobId : string) (status : completion_t)
    (finishedAt : string) (error resultRef : option string) (db : t) :
  let db' := completeExtractJob jobId status finishedAt error resultRef db in
  (forall j, getExtractJob jobId db = Some j ->
     getExtractJob jobId db' = Some (set_completed status finishedAt error resultRef j))
  /\ (getExtractJob jobId db = None -> extract_jobs db' = extract_jobs db)
  /\ (forall now lim leaseUntil,
        ~ In jobId
            (map ClaimedExtractJob.jobId
               (fst (claimPendingExtractJobs now lim leaseUntil db'))))
  /\ (forall now lim leaseUntil j,
        In j (extract_jobs (snd (claimPendingExtractJobs now lim leaseUntil db'))) ->
        ExtractJob.jobId j = jobId ->
        ExtractJob.status j = stored_completion status)
  /\ (forall job,
        ExtractJobRecord.jobId job = jobId ->
        In jobId (map ExtractJob.jobId (extract_jobs db)) ->
        enqueueExtractJob job db' = db')
  /\ documents db' = documents db.
Proof.
  cbv zeta.
  assert (Hdone : forall j,
            In j (extract_jobs
                    (completeExtractJob jobId status finishedAt error resultRef db)) ->
            ExtractJob.jobId j = jobId ->
            ExtractJob.status j = stored_completion status).
  { intros j Hj E. unfold completeExtractJob in Hj.
    cbn [extract_jobs with_extract_jobs] in Hj.
    apply update_where_In in Hj. destruct Hj as (j0 & Hj0 & ->).
    destruct (String.eqb_spec (ExtractJob.jobId j0) jobId); [reflexivity|contradiction]. }
  assert (Hnot : forall now j,
            In j (extract_jobs
                    (completeExtractJob jobId status finishedAt error resultRef db)) ->
            ExtractJob.jobId j = jobId -> claimable now j = false).
  { intros now j Hj E. unfold claimable. rewrite (Hdone j Hj E).
    destruct status; reflexivity. }
  split_and!.
  - intros j G. unfold getExtractJob, completeExtractJob.
    cbn [extract_jobs with_extract_jobs].
    rewrite get_where_update_where by reflexivity.
    rewrite String.eqb_refl. unfold getExtractJob in G. rewrite G. reflexivity.
  - intros G. unfold completeExtractJob. cbn [extract_jobs with_extract_jobs].
    apply update_where_absent. apply get_where_None. exact G.
  - intros now lim leaseUntil Hin. apply claimed_ids in Hin.
    destruct Hin as (j & Hj & E). apply claim_rows_In in Hj. destruct Hj as [Hj Hc].
    rewrite (Hnot now j Hj E) in Hc. discriminate.
  - intros now lim leaseUntil j Hj E.
    rewrite claim_snd, lease_rows_spec in Hj. apply in_map_iff in Hj.
    destruct Hj as (j0 & <- & Hj0).
    destruct (existsb _ _) eqn:Ex.
    + exfalso. apply existsb_exists in Ex. destruct Ex as (row & Hrow & Erow).
      apply String.eqb_eq in Erow. apply claim_rows_In in Hrow.
      destruct Hrow as [Hrow Hc]. cbn in E.
      rewrite (Hnot now row Hrow) in Hc; [discriminate|congruence].
    + exact (Hdone j0 Hj0 E).
  - intros job E Hk. apply enqueue_existing. rewrite E.
    unfold completeExtractJob. cbn [extract_jobs with_extract_jobs].
    rewrite update_where_keys by reflexivity. exact Hk.
  - reflexivity.
Qed.

(** X13. [claimPendingExtractJobs] returns the claimed jobs oldest
    [submittedAt] first, at most [limit] of them when the limit is not
    negative, each with the fields of its stored row; a claimable job left
    out is no older than the ones claimed, and a row whose job was not
    claimed is left exactly as it was. *)
Theorem claimPendingExtractJobs_oldest_first (now : string) (lim : Z)
    (leaseUntil : string) (db : t) :
  let claimed := fst (claimPendingExtractJobs now lim leaseUntil db) in
  let db' := snd (claimPendingExtractJobs now lim leaseUntil db) in
  StronglySorted
    (fun a b =>
       String.leb (ClaimedExtractJob.submittedAt a) (ClaimedExtractJob.submittedAt b) = true)
    claimed
  /\ (0 <= lim -> Z.of_nat (length claimed) <= lim)
  /\ (forall c, In c claimed ->
        exists j, In j (extract_jobs db) /\ c = claimed_job leaseUntil j)
  /\ (forall c waiting,
        In c claimed -> In waiting (extract_jobs db) -> claimable now waiting = true ->
        ~ In (ExtractJob.jobId waiting) (map ClaimedExtractJob.jobId claimed) ->
        String.leb (ClaimedExtractJob.submittedAt c) (ExtractJob.submittedAt waiting) = true)
  /\ (forall i j,
        nth_error (extract_jobs db) i = Some j ->
        ~ In (ExtractJob.jobId j) (map ClaimedExtractJob.jobId claimed) ->
        nth_error (extract_jobs db') i = Some j).
Proof.
  cbv zeta. split_and!.
  - rewrite claim_fst. apply StronglySorted_map. cbn.
    unfold claim_rows. apply limit_sorted, order_by_sorted.
  - rewrite claim_fst, length_map. unfold claim_rows. apply limit_length.
  - intros c Hc. rewrite claim_fst in Hc. apply in_map_iff in Hc.
    destruct Hc as (j & <- & Hj). exists j. split; [|reflexivity].
    apply claim_rows_In in Hj. tauto.
  - intros c waiting Hc Hw Hcl Hnot. rewrite claim_fst in Hc.
    apply in_map_iff in Hc. destruct Hc as (j & <- & Hj). cbn.
    apply (limit_keeps_least ExtractJob.submittedAt lim
             (Sql.order_by ExtractJob.submittedAt
                (List.filter (claimable now) (extract_jobs db)))).
    + apply order_by_sorted.
    + exact Hj.
    + apply order_by_In. apply filter_In. split; assumption.
    + intros Hin. apply Hnot. apply claimed_ids. exists waiting. split; [exact Hin|reflexivity].
  - intros i j Hi Hnot. rewrite claim_snd, lease_rows_spec, nth_error_map, Hi.
    cbn [option_map]. destruct (existsb _ _) eqn:Ex; [|reflexivity].
    exfalso. apply Hnot. apply existsb_exists in Ex. destruct Ex as (row & Hrow & Erow).
    apply String.eqb_eq in Erow. apply claimed_ids. exists row. split; [exact Hrow|].
    symmetry. exact Erow.
Qed.

(** X14. [enqueueExtractJob] followed by [getExtractJob]: a new job is read
    back as queued with the submitted fields, an existing job is read back
    unchanged; other jobs are not affected; a newly queued job is returned
    by the next claim when the limit allows. *)
Theorem enqueueExtractJob_then_getExtractJob (job : ExtractJobRecord.t) (db : t) :
  let db' := enqueueExtractJob job db in
  getExtractJob (ExtractJobRecord.jobId job) db' =
    match getExtractJob (ExtractJobRecord.jobId job) db with
    | Some stored => Some stored
    | None => Some (queued_row job)
    end
  /\ (forall other, other <> ExtractJobRecord.jobId job ->
        getExtractJob other db' = getExtractJob other db)
  /\ (forall now lim leaseUntil,
        getExtractJob (ExtractJobRecord.jobId job) db = None ->
        lim < 0 \/ Z.of_nat (length (extract_jobs db')) <= lim ->
        In (claimed_job leaseUntil (queued_row job))
          (fst (claimPendingExtractJobs now lim leaseUntil db'))).
Proof.
  cbv zeta. unfold getExtractJob, enqueueExtractJob. split_and!.
  - destruct (Sql.get_where _ _ (extract_jobs db)) as [stored|] eqn:G; [exact G|].
    cbn [extract_jobs with_extract_jobs]. rewrite get_where_app, G. cbn.
    rewrite String.eqb_refl. reflexivity.
  - intros other Hne.
    destruct (Sql.get_where _ (ExtractJobRecord.jobId job) (extract_jobs db)); [reflexivity|].
    cbn [extract_jobs with_extract_jobs]. rewrite get_where_app.
    destruct (Sql.get_where _ other _); [reflexivity|]. cbn.
    destruct (String.eqb_spec (ExtractJobRecord.jobId job) other); [congruence|reflexivity].
  - intros now lim leaseUntil G Hlim. rewrite claim_fst. apply in_map.
    unfold claim_rows. rewrite G in *. cbn [extract_jobs with_extract_jobs] in *.
    apply select_all.
    + exact Hlim.
    + apply in_app_iff. right. left. reflexivity.
    + reflexivity.
Qed.
End JobFacts.

(* ===================================================================== *)
(** ** Delivery by the queue adapter *)
(* ===================================================================== *)

Section DeliveryFacts.
Import LocalSqliteQueueAdapter.
Context `{JsonParser}.

#[local] Abbreviation id_of := QueueMessage.queueMessageId.

(** X16. A message selected by [consumeAndLease] is not delivered a
    second time: whatever the call returns or throws, every row with the
    id of a selected row is afterwards ['leased'] or ['failed'], and no
    later [consumeAndLease] selects that id, whatever consume and ack
    calls come between.  (No call ever puts a row back to ['pending'].) *)
Theorem leased_message_is_not_delivered_again {R : Type} (lim : Z)
    (guard : Json.value -> bool) (projector : string -> Json.value -> R)
    (table : list QueueMessage.row) (row : QueueMessage.row) :
  In row (pending_rows lim table) ->
  let table' := snd (consumeAndLease lim guard projector table) in
  (exists r, In r table' /\ id_of r = id_of row)
  /\ (forall r, In r table' -> id_of r = id_of row ->
        QueueMessage.status r = QueueMessage.leased
        \/ QueueMessage.status r = QueueMessage.failed)
  /\ (forall t, later table' t ->
      forall lim2, ~ In (id_of row) (map id_of (pending_rows lim2 t))).
Proof.
  intros Hrow table'.
  assert (Hnp : forall r, In r table' -> id_of r = id_of row ->
                          QueueMessage.status r <> QueueMessage.pending).
  { apply not_pending_consume. intros r Hr Ek. left. apply in_map. exact Hrow. }
  split_and!.
  - destruct (consume_table lim guard projector table) as (marked & Hincl & E).
    unfold table'. rewrite E, map_map.
    apply pending_rows_In in Hrow. destruct Hrow as [Hin _].
    eexists. split; [apply in_map; exact Hin|].
    destruct (has_id (pending_rows lim table) row); destruct (has_id marked _);
      reflexivity.
  - intros r Hr Ek. specialize (Hnp r Hr Ek).
    destruct (QueueMessage.status r); [contradiction|left|right]; reflexivity.
  - intros t Hl lim2. apply not_pending_not_selected.
    apply (not_pending_later (id_of row) table' t Hl Hnp).
Qed.

Lemma deliver_throws {R : Type} (guard : Json.value -> bool)
    (projector : string -> Json.value -> R) (rows : list QueueMessage.row) :
  (exists bad, In bad rows /\ JSON_parse (QueueMessage.payload bad) = None) ->
  forall table, fst (deliver guard projector rows table) = Thrown "SyntaxError".
Proof.
  induction rows as [|row rows IH]; intros (bad & Hbad & Hparse) table.
  - destruct Hbad.
  - cbn [deliver]. destruct (JSON_parse (QueueMessage.payload row)) as [parsed|] eqn:E.
    + assert (exists bad', In bad' rows /\ JSON_parse (QueueMessage.payload bad') = None)
        as Hrest.
      { destruct Hbad as [<-|Hbad]; [congruence|]. exists bad. split; assumption. }
      destruct (guard parsed).
      * specialize (IH Hrest table).
        destruct (deliver guard projector rows table) as [out table'].
        cbn [fst] in *. rewrite IH. reflexivity.
      * apply IH. exact Hrest.
    + reflexivity.
Qed.

Lemma deliver_returned {R : Type} (guard : Json.value -> bool)
    (projector : string -> Json.value -> R) (rows : list QueueMessage.row) :
  forall table messages table',
    deliver guard projector rows table = (Returned messages, table') ->
    (length messages <= length rows)%nat
    /\ forall m, In m messages ->
         exists row parsed,
           In row rows
           /\ JSON_parse (QueueMessage.payload row) = Some parsed
           /\ guard parsed = true
           /\ m = projector (id_of row) parsed.
Proof.
  induction rows as [|row rows IH]; intros table messages table' E.
  - cbn in E. injection E as <- <-. split; [cbn; lia|intros m []].
  - cbn [deliver] in E.
    destruct (JSON_parse (QueueMessage.payload row)) as [parsed|] eqn:Ep; [|discriminate].
    destruct (guard parsed) eqn:Eg.
    + destruct (deliver guard projector rows table) as [out t1] eqn:Ed.
      destruct out as [ms|e]; [|discriminate].
      injection E as <- <-.
      destruct (IH table ms t1 Ed) as [Hlen Hms]. split; [cbn; lia|].
      intros m [<-|Hm].
      * exists row, parsed. split_and!; try assumption; [left|]; reflexivity.
      * destruct (Hms m Hm) as (row' & parsed' & Hin & Hp & Hg & Em).
        exists row', parsed'. split_and!; try assumption. right. exact Hin.
    + destruct (IH _ messages table' E) as [Hlen Hms]. split; [cbn; lia|].
      intros m Hm. destruct (Hms m Hm) as (row' & parsed' & Hin & Hp & Hg & Em).
      exists row', parsed'. split_and!; try assumption. right. exact Hin.
Qed.

Lemma consume_returned {R : Type} (lim : Z) (guard : Json.value -> bool)
    (projector : string -> Json.value -> R) (table : list QueueMessage.row)
    (messages : list R) (table' : list QueueMessage.row) :
  consumeAndLease lim guard projector table = (Returned messages, table') ->
  (length messages <= length (pending_rows lim table))%nat
  /\ forall m, In m messages ->
       exists row parsed,
         In row (pending_rows lim table)
         /\ JSON_parse (QueueMessage.payload row) = Some parsed
         /\ guard parsed = true
         /\ m = projector (id_of row) parsed.
Proof.
  unfold consumeAndLease. destruct (pending_rows lim table) as [|row rows] eqn:E.
  - intros E'. injection E' as <- <-. split; [cbn; lia|intros m []].
  - apply deliver_returned.
Qed.
(** X17. [JSON.parse] throwing ends [consumeAndLease]: when the payload
    of a selected row is not JSON text the call throws [SyntaxError] and
    delivers nothing; no row is deleted, and every selected row has
    already left ['pending'], so the whole batch is lost to later
    consumers. *)
Theorem consume_throws_on_payload_that_is_not_json {R : Type} (lim : Z)
    (guard : Json.value -> bool) (projector : string -> Json.value -> R)
    (table : list QueueMessage.row) (bad : QueueMessage.row) :
  In bad (pending_rows lim table) ->
  JSON_parse (QueueMessage.payload bad) = None ->
  let result := consumeAndLease lim guard projector table in
  fst result = Thrown "SyntaxError"
  /\ map id_of (snd result) = map id_of table
  /\ (forall row r,
        In row (pending_rows lim table) -> In r (snd result) ->
        id_of r = id_of row ->
        QueueMessage.status r <> QueueMessage.pending)
  /\ (forall lim2,
        ~ In (id_of bad) (map id_of (pending_rows lim2 (snd result)))).
Proof.
  intros Hbad Hparse result.
  assert (Hnp : forall row r,
            In row (pending_rows lim table) -> In r (snd result) ->
            id_of r = id_of row ->
            QueueMessage.status r <> QueueMessage.pending).
  { intros row r Hrow. revert r. apply not_pending_consume.
    intros r Hr Ek. left. apply in_map. exact Hrow. }
  split_and!.
  - unfold result, consumeAndLease.
    destruct (pending_rows lim table) as [|row rows] eqn:E; [destruct Hbad|].
    apply deliver_throws. exists bad. split; assumption.
  - destruct (consume_table lim guard projector table) as (marked & Hincl & E).
    unfold result. rewrite E, !map_map. apply map_ext. intros r.
    destruct (has_id (pending_rows lim table) r); destruct (has_id marked _);
      reflexivity.
  - exact Hnp.
  - intros lim2. apply not_pending_not_selected. intros r Hr. exact (Hnp bad r Hbad Hr).
Qed.

Lemma ack_In (queueMessageId : string) (table : list QueueMessage.row)
    (r : QueueMessage.row) :
  In r (ack queueMessageId table) <-> In r table /\ id_of r <> queueMessageId.
Proof. unfold ack. rewrite filter_In, negb_true_iff, String.eqb_neq. reflexivity. Qed.

Lemma ack_absent (queueMessageId : string) (table : list QueueMessage.row) :
  ~ In queueMessageId (map id_of table) -> ack queueMessageId table = table.
Proof.
  unfold ack. induction table as [|x rows IH]; intros Hk; [reflexivity|].
  cbn [List.filter]. destruct (String.eqb_spec (id_of x) queueMessageId) as [E|E].
  - exfalso. apply Hk. left. exact E.
  - cbn [negb]. f_equal. apply IH. intros Hr. apply Hk. right. exact Hr.
Qed.

Lemma ack_ids (queueMessageId : string) (table : list QueueMessage.row) (k : string) :
  In k (map id_of (ack queueMessageId table)) ->
  In k (map id_of table) /\ k <> queueMessageId.
Proof.
  intros Hk. apply in_map_iff in Hk. destruct Hk as (r & <- & Hr).
  apply ack_In in Hr. destruct Hr as [Hr Hne]. split; [apply in_map; exact Hr|exact Hne].
Qed.

Lemma ack_NoDup (queueMessageId : string) (table : list QueueMessage.row) :
  List.NoDup (map id_of table) -> List.NoDup (map id_of (ack queueMessageId table)).
Proof.
  unfold ack. induction table as [|x rows IH]; intros Hnd; [constructor|].
  cbn [map] in Hnd. apply List.NoDup_cons_iff in Hnd. destruct Hnd as [Hx Hnd].
  cbn [List.filter]. destruct (negb _); [|exact (IH Hnd)].
  cbn [map]. constructor; [|exact (IH Hnd)].
  intros Hr. apply ack_ids in Hr. destruct Hr as [Hr _]. contradiction.
Qed.

Lemma ack_length (queueMessageId : string) (table : list QueueMessage.row) :
  List.NoDup (map id_of table) -> In queueMessageId (map id_of table) ->
  S (length (ack queueMessageId table)) = length table.
Proof.
  induction table as [|x rows IH]; intros Hnd Hk; [destruct Hk|].
  cbn [map] in Hnd. apply List.NoDup_cons_iff in Hnd. destruct Hnd as [Hx Hnd].
  unfold ack. cbn [List.filter]. fold (ack queueMessageId rows).
  destruct (String.eqb_spec (id_of x) queueMessageId) as [E|E]; cbn [negb length].
  - rewrite ack_absent by (rewrite <- E; exact Hx). reflexivity.
  - f_equal. destruct Hk as [Ek|Hk]; [contradiction|]. exact (IH Hnd Hk).
Qed.

(** X18. [ack] deletes the rows with the given id and nothing else: the
    other rows stay; an unknown id changes nothing; a second [ack]
    changes nothing more; with unique ids an acknowledged message is
    exactly one row less; and the id is not selected by any later
    [consumeAndLease]. *)
Theorem ack_deletes_exactly_that_message (queueMessageId : string)
    (table : list QueueMessage.row) :
  (forall r, In r (ack queueMessageId table) <-> In r table /\ id_of r <> queueMessageId)
  /\ (~ In queueMessageId (map id_of table) -> ack queueMessageId table = table)
  /\ ack queueMessageId (ack queueMessageId table) = ack queueMessageId table
  /\ (List.NoDup (map id_of table) ->
      List.NoDup (map id_of (ack queueMessageId table))
      /\ (In queueMessageId (map id_of table) ->
          S (length (ack queueMessageId table)) = length table))
  /\ (forall t, later (ack queueMessageId table) t ->
      forall lim, ~ In queueMessageId (map id_of (pending_rows lim t))).
Proof.
  split_and!.
  - apply ack_In.
  - apply ack_absent.
  - apply ack_absent. intros Hk. apply ack_ids in Hk. destruct Hk as [_ Hne]. contradiction.
  - intros Hnd. split; [apply ack_NoDup; exact Hnd|apply ack_length; exact Hnd].
  - intros t Hl lim. apply not_pending_not_selected.
    apply (not_pending_later queueMessageId _ t Hl).
    intros r Hr Ek. apply ack_In in Hr. destruct Hr as [_ Hne]. contradiction.
Qed.

(** X19. Every message [consumeResults] returns was validated: it carries
    the id of a selected row whose payload is JSON text accepted by
    [isExtractResultMessageV1], its [jobId], [docId] and [finishedAt] are
    not empty, and its status is the text of the payload's [status]; a
    non-negative limit bounds the number of messages returned. *)
Theorem consumeResults_returns_validated_messages (lim : Z)
    (queue_results : list QueueMessage.row)
    (messages : list QueuedExtractResult.t) (table' : list QueueMessage.row)
    (m : QueuedExtractResult.t) :
  consumeResults lim queue_results = (Returned messages, table') ->
  In m messages ->
  (0 <= lim -> Z.of_nat (length messages) <= lim)
  /\ (exists row parsed,
        In row (pending_rows lim queue_results)
        /\ id_of row = QueuedExtractResult.queueMessageId m
        /\ JSON_parse (QueueMessage.payload row) = Some parsed
        /\ ExtractResultMessageV1.isExtractResultMessageV1 parsed = true
        /\ QueuedExtractResult.message m = ExtractResultMessageV1.of_json parsed
        /\ Json.string_prop "status" parsed =
             Some (AsyncMessages.status_text
                     (ExtractResultMessageV1.status (QueuedExtractResult.message m))))
  /\ ExtractResultMessageV1.jobId (QueuedExtractResult.message m) <> ""%string
  /\ ExtractResultMessageV1.docId (QueuedExtractResult.message m) <> ""%string
  /\ ExtractResultMessageV1.finishedAt (QueuedExtractResult.message m) <> ""%string.
Proof.
  intros E Hm. unfold consumeResults in E.
  apply consume_returned in E. destruct E as [Hlen Hms].
  destruct (Hms m Hm) as (row & parsed & Hrow & Hp & Hg & ->).
  assert (Hstr : forall k,
            ExtractResultMessageV1.isString (Json.prop k parsed) = true ->
            match Json.string_prop k parsed with Some s => s | None => ""%string end
            <> ""%string).
  { intros k Hk. unfold Json.string_prop, ExtractResultMessageV1.isString in *.
    destruct (Json.prop k parsed) as [[]|]; try discriminate.
    apply negb_true_iff in Hk. apply String.eqb_neq in Hk. exact Hk. }
  pose proof Hg as Hg'. unfold ExtractResultMessageV1.isExtractResultMessageV1 in Hg'.
  destruct (negb (Json.truthy parsed) || negb (Json.typeof_object parsed))%bool;
    [discriminate|].
  rewrite !andb_true_iff in Hg'.
  destruct Hg' as [[[[[_ _] Hjob] Hdoc] Hstatus] Hfin].
  split_and!.
  - intros Hlim. pose proof (limit_length lim
      (Sql.order_by QueueMessage.createdAt (List.filter is_pending queue_results)) Hlim).
    unfold pending_rows in Hlen. lia.
  - exists row, parsed. split_and!; try assumption; try reflexivity.
    cbn. unfold Json.string_prop, Json.is_literal in *.
    revert Hstatus.
    destruct (Json.prop "status" parsed) as [v|];
      [destruct v as [|b|mantissa exp10|s|items|fields]|];
      cbn; intros Hstatus; try discriminate.
    destruct (String.eqb s "failed") eqn:Ef;
      [apply String.eqb_eq in Ef; rewrite Ef; reflexivity|].
    destruct (String.eqb s "no_tables") eqn:En;
      [apply String.eqb_eq in En; rewrite En; reflexivity|].
    destruct (String.eqb s "ok") eqn:Eo;
      [apply String.eqb_eq in Eo; rewrite Eo; reflexivity|].
    discriminate.
  - apply Hstr. exact Hjob.
  - apply Hstr. exact Hdoc.
  - apply Hstr. exact Hfin.
Qed.
End DeliveryFacts.

Section PublishFacts.
Import LocalSqliteQueueAdapter.
Context `{JsonParser}.

#[local] Abbreviation id_of := QueueMessage.queueMessageId.

Lemma no_pending_rows (table : list QueueMessage.row) :
  (forall r, In r table -> QueueMessage.status r <> QueueMessage.pending) ->
  List.filter is_pending table = [].
Proof.
  induction table as [|x rows IH]; intros Hno; [reflexivity|].
  cbn [List.filter]. destruct (is_pending x) eqn:E.
  - apply is_pending_iff in E. exfalso. exact (Hno x (or_introl eq_refl) E).
  - apply IH. intros r Hr. apply Hno. right. exact Hr.
Qed.

Lemma mark_last (s : QueueMessage.status_t) (table : list QueueMessage.row)
    (row : QueueMessage.row) :
  ~ In (id_of row) (map id_of table) ->
  mark s (id_of row) (table ++ [row]) = table ++ [QueueMessage.set_status s row].
Proof.
  intros Hfresh. unfold mark, Sql.update_where. rewrite map_app. cbn [map].
  rewrite String.eqb_refl. f_equal.
  exact (update_where_absent id_of (id_of row) (QueueMessage.set_status s) table Hfresh).
Qed.

Lemma consume_only_pending {R : Type} (lim : Z) (guard : Json.value -> bool)
    (projector : string -> Json.value -> R) (table : list QueueMessage.row)
    (row : QueueMessage.row) :
  (forall r, In r table -> QueueMessage.status r <> QueueMessage.pending) ->
  QueueMessage.status row = QueueMessage.pending ->
  ~ In (id_of row) (map id_of table) ->
  lim < 0 \/ 1 <= lim ->
  consumeAndLease lim guard projector (table ++ [row]) =
  match JSON_parse (QueueMessage.payload row) with
  | None =>
      (Thrown "SyntaxError", table ++ [QueueMessage.set_status QueueMessage.leased row])
  | Some parsed =>
      if guard parsed then
        (Returned [projector (id_of row) parsed],
         table ++ [QueueMessage.set_status QueueMessage.leased row])
      else
        (Returned [], table ++ [QueueMessage.set_status QueueMessage.failed row])
  end.
Proof.
  intros Hno Hst Hfresh Hlim.
  assert (Hsel : pending_rows lim (table ++ [row]) = [row]).
  { unfold pending_rows. rewrite List.filter_app, (no_pending_rows table Hno).
    cbn [List.filter app]. apply is_pending_iff in Hst. rewrite Hst. cbn.
    apply limit_all. cbn. lia. }
  unfold consumeAndLease. rewrite Hsel. cbn [lease_rows fold_left deliver].
  rewrite (mark_last QueueMessage.leased table row Hfresh).
  destruct (JSON_parse (QueueMessage.payload row)) as [parsed|]; [|reflexivity].
  destruct (guard parsed); [reflexivity|].
  change (id_of row) with (id_of (QueueMessage.set_status QueueMessage.leased row)).
  rewrite mark_last by exact Hfresh. reflexivity.
Qed.

(** X20. Publishing and consuming, for a table with no other pending row
    ([publishRequest] and [publishResult] are [insert] with the
    stringified message as payload).  An id that is taken makes the
    insert throw and leaves the table as it was.  With a fresh id the
    row is appended and the rows before it are kept; the next
    [consumeAndLease] with a limit that is negative or at least one
    delivers exactly that message under its id when the payload parses and
    passes the validator, delivers nothing when it parses and fails the
    validator, and throws when it does not parse; a further
    [consumeAndLease] delivers nothing. *)
Theorem published_message_is_consumed_once {R : Type}
    (tableName uuid payload now : string) (table : list QueueMessage.row)
    (lim : Z) (guard : Json.value -> bool) (projector : string -> Json.value -> R) :
  (forall r, In r table -> QueueMessage.status r <> QueueMessage.pending) ->
  lim < 0 \/ 1 <= lim ->
  (In uuid (map id_of table) ->
   exists error, insert tableName uuid payload now table = (Thrown error, table))
  /\ (~ In uuid (map id_of table) ->
      exists table1,
        insert tableName uuid payload now table = (Returned tt, table1)
        /\ map id_of table1 = (map id_of table ++ [uuid])%list
        /\ (forall r, In r table -> In r table1)
        /\ fst (consumeAndLease lim guard projector table1) =
             match JSON_parse payload with
             | None => Thrown "SyntaxError"
             | Some parsed =>
                 Returned (if guard parsed then [projector uuid parsed] else [])
             end
        /\ (forall lim2,
              fst (consumeAndLease lim2 guard projector
                     (snd (consumeAndLease lim guard projector table1)))
              = Returned [])).
Proof.
  intros Hno Hlim. split.
  - intros Hk. unfold insert.
    destruct (Sql.get_where id_of uuid table) eqn:G.
    + eexists. reflexivity.
    + apply get_where_None in G. contradiction.
  - intros Hfresh. unfold insert.
    destruct (Sql.get_where id_of uuid table) eqn:G.
    { apply get_where_Some in G. destruct G as [Hin E]. exfalso. apply Hfresh.
      rewrite <- E. apply in_map. exact Hin. }
    eexists. split; [reflexivity|].
    set (row := {| QueueMessage.queueMessageId := uuid;
                   QueueMessage.payload := payload;
                   QueueMessage.status := QueueMessage.pending;
                   QueueMessage.createdAt := now;
                   QueueMessage.leaseUntil := None |}).
    pose proof (consume_only_pending lim guard projector table row Hno eq_refl Hfresh Hlim)
      as Hc.
    split_and!.
    + rewrite map_app. reflexivity.
    + intros r Hr. apply in_app_iff. left. exact Hr.
    + rewrite Hc. cbn.
      destruct (JSON_parse payload) as [parsed|]; [|reflexivity].
      destruct (guard parsed); reflexivity.
    + intros lim2. rewrite Hc.
      assert (Hnone : forall s, s <> QueueMessage.pending ->
                pending_rows lim2 (table ++ [QueueMessage.set_status s row]) = []).
      { intros s Hs. unfold pending_rows. rewrite no_pending_rows.
        - unfold Sql.limit. cbn. destruct (lim2 <? 0); [reflexivity|apply firstn_nil].
        - intros r Hr. apply in_app_iff in Hr. destruct Hr as [Hr|[<-|[]]].
          + exact (Hno r Hr).
          + exact Hs. }
      cbn. destruct (JSON_parse payload) as [parsed|]; [destruct (guard parsed)|];
        cbn [snd]; unfold consumeAndLease; rewrite Hnone by discriminate; reflexivity.
Qed.
End PublishFacts.

Section CodecFacts.

(** X21. The validators and the message objects agree.  The object of a
    result message passes [isExtractResultMessageV1] exactly when its
    [jobId], [docId] and [finishedAt] are not empty, and reading it back
    gives the message.  The object of a request message passes
    [isExtractRequestMessageV1] exactly when [version] is ["v1"], [type] is
    ["tables.extract.request"], [jobId], [runId], [docId], [rawPdfPath] and
    [submittedAt] are not empty and [attempt] is an integer for
    [Number.isInteger], and reading it back gives the message.  Values
    that are not objects, and [null], pass neither. *)
Theorem messages_survive_the_queue `{JsNumber} :
  (forall m : ExtractResultMessageV1.t,
     ExtractResultMessageV1.isExtractResultMessageV1 (AsyncMessages.result_to_json m) =
       (negb (String.eqb (ExtractResultMessageV1.jobId m) "")
        && negb (String.eqb (ExtractResultMessageV1.docId m) "")
        && negb (String.eqb (ExtractResultMessageV1.finishedAt m) ""))%bool
     /\ ExtractResultMessageV1.of_json (AsyncMessages.result_to_json m) = m)
  /\ (forall m : ExtractRequestMessageV1.t,
        AsyncMessages.isExtractRequestMessageV1 (AsyncMessages.request_to_json m) =
          (String.eqb (ExtractRequestMessageV1.version m) "v1"
           && String.eqb (ExtractRequestMessageV1.type m) "tables.extract.request"
           && negb (String.eqb (ExtractRequestMessageV1.jobId m) "")
           && negb (String.eqb (ExtractRequestMessageV1.runId m) "")
           && negb (String.eqb (ExtractRequestMessageV1.docId m) "")
           && negb (String.eqb (ExtractRequestMessageV1.rawPdfPath m) "")
           && double_is_integer (ExtractRequestMessageV1.attempt m) 0
           && negb (String.eqb (ExtractRequestMessageV1.submittedAt m) ""))%bool
        /\ AsyncMessages.request_of_json (AsyncMessages.request_to_json m) = m)
  /\ (forall value,
        Json.typeof_object value = false ->
        ExtractResultMessageV1.isExtractResultMessageV1 value = false
        /\ AsyncMessages.isExtractRequestMessageV1 value = false)
  /\ ExtractResultMessageV1.isExtractResultMessageV1 Json.JNull = false
  /\ AsyncMessages.isExtractRequestMessageV1 Json.JNull = false.
Proof.
  split_and!.
  - intros [job doc st code loc err fin]. split.
    + unfold ExtractResultMessageV1.isExtractResultMessageV1, AsyncMessages.result_to_json.
      destruct code, loc, err, st; cbn;
        destruct (String.eqb job ""), (String.eqb doc ""), (String.eqb fin "");
        reflexivity.
    + unfold ExtractResultMessageV1.of_json, AsyncMessages.result_to_json.
      destruct code, loc, err, st; reflexivity.
  - intros [version type job run doc raw sha attempt submitted]. split.
    + unfold AsyncMessages.isExtractRequestMessageV1, AsyncMessages.request_to_json.
      destruct sha; reflexivity.
    + unfold AsyncMessages.request_of_json, AsyncMessages.request_to_json.
      destruct sha; cbn; rewrite Z.mul_1_r; reflexivity.
  - intros value Hno.
    unfold ExtractResultMessageV1.isExtractResultMessageV1,
      AsyncMessages.isExtractRequestMessageV1.
    rewrite Hno. cbn [negb]. rewrite orb_true_r. split; reflexivity.
  - reflexivity.
  - reflexivity.
Qed.
End CodecFacts.

(* ===================================================================== *)
(** ** The attempt loop of the download runner *)
(* ===================================================================== *)

Section AttemptLoopFacts.
Import Downloader.
Context `{Sha256}.

Variable environment : nat -> attempt_env.
Variable maxDownloadAttempts : Z.
Variable item : DownloadWorkItem.t.
Variable finalPath : string.

#[local] Abbreviation loop := (attempt_loop environment maxDownloadAttempts item finalPath).

(** What one iteration does, by the outcome of its [downloadAttempt]. *)
Lemma loop_step_detail (fuel : nat) (attempt : Z) (w : world) :
  attempt <= maxDownloadAttempts ->
  let env := environment (requests w) in
  let out := downloadAttempt env (DownloadWorkItem.url item) finalPath (fs w) in
  let w1 := {| fs := snd out; requests := S (requests w);
               trace := trace w ++ [Request (requests w)] |} in
  (exists r,
      loop (S fuel) attempt w = (Some r, w1)
      /\ match fst out with
         | Returned a =>
             if statusCode a >=? 400 then
               r = failed_result item (resolvedUrl a) (http_error (statusCode a))
                     attempt (clock env)
               /\ (isRetriableStatus (statusCode a) = false
                   \/ maxDownloadAttempts <= attempt)
             else r = ok_result item finalPath a attempt (clock env)
         | Thrown message =>
             r = failed_result item None message attempt (clock env)
             /\ maxDownloadAttempts <= attempt
         end)
  \/ (attempt < maxDownloadAttempts
      /\ loop (S fuel) attempt w = loop fuel (attempt + 1) (sleep (backoff attempt) w1)
      /\ match fst out with
         | Returned a => isRetriableStatus (statusCode a) = true
         | Thrown _ => True
         end).
Proof.
  intros Ha env out w1. rewrite loop_S.
  destruct (Z.leb_spec attempt maxDownloadAttempts); [|lia].
  cbv zeta. subst w1 out env.
  destruct (downloadAttempt _ _ _ _) as [[a|message] fs']; cbn [fst snd].
  - destruct (Z.eqb_spec (statusCode a) 404) as [E|E].
    + left. eexists. split; [reflexivity|]. rewrite E. cbn.
      split; [reflexivity|]. left. reflexivity.
    + destruct (statusCode a >=? 400) eqn:E4.
      * destruct (isRetriableStatus (statusCode a)) eqn:Er; cbn [negb orb].
        -- rewrite Z.geb_leb.
           destruct (Z.leb_spec maxDownloadAttempts attempt).
           ++ left. eexists. split; [reflexivity|]. split; [reflexivity|right; lia].
           ++ right. split; [lia|]. split; reflexivity.
        -- left. eexists. split; [reflexivity|]. split; [reflexivity|left; reflexivity].
      * left. eexists. split; reflexivity.
  - rewrite Z.geb_leb. destruct (Z.leb_spec maxDownloadAttempts attempt).
    + left. eexists. split; [reflexivity|]. split; [reflexivity|lia].
    + right. split; [lia|]. split; [reflexivity|exact I].
Qed.

(** The events of [n] further rounds after a first request, for a loop
    started at [attempt] with [requests] requests made before. *)
Lemma rounds_shift (attempt : Z) (requests n : nat) :
  forall start,
    flat_map (fun i => [Sleep (backoff (attempt + 1 + Z.of_nat i));
                        Request (S requests + S i)]) (seq start n) =
    flat_map (fun i => [Sleep (backoff (attempt + Z.of_nat i)); Request (requests + S i)])
      (seq (S start) n).
Proof.
  induction n as [|n IH]; intros start; [reflexivity|].
  cbn [seq flat_map app]. rewrite (IH (S start)).
  replace (attempt + 1 + Z.of_nat start) with (attempt + Z.of_nat (S start)) by lia.
  replace (S requests + S start)%nat with (requests + S (S start))%nat by lia.
  reflexivity.
Qed.

Lemma backoff_bounds (attempt : Z) : 1 <= attempt -> 1000 <= backoff attempt <= 10000.
Proof.
  intros Ha. unfold backoff.
  pose proof (Z.pow_pos_nonneg 2 (attempt - 1) ltac:(lia) ltac:(lia)). lia.
Qed.

(** X22. The attempt loop started at an attempt number from 1 up to the
    cap (the store hands out [attemptsDownload + 1], never less than 1),
    with enough fuel, ends with a result.  It issues consecutive requests
    with one sleep between two of them and none after the last; the sleep
    after attempt [a] lasts [min (1000 * 2 ^ (a - 1)) 10000] milliseconds,
    between one and ten seconds; after [n] retries the result carries
    attempt [attempt + n], which is within the cap, the identity of the
    work item, and the clock reading of the last request. *)
Theorem attempt_loop_requests_and_sleeps (fuel : nat) :
  forall (attempt : Z) (w : world),
    1 <= attempt ->
    attempt <= maxDownloadAttempts ->
    (attempts_left maxDownloadAttempts attempt <= fuel)%nat ->
    exists r n,
      fst (loop fuel attempt w) = Some r
      /\ requests (snd (loop fuel attempt w)) = (requests w + S n)%nat
      /\ trace (snd (loop fuel attempt w)) =
           (trace w ++
            Request (requests w)
              :: flat_map
                   (fun i => [Sleep (Z.min (1000 * 2 ^ (attempt + Z.of_nat i - 1)) 10000);
                              Request (requests w + S i)])
                   (seq 0 n))%list
      /\ (forall ms, In (Sleep ms) (trace (snd (loop fuel attempt w))) ->
                     In (Sleep ms) (trace w) \/ 1000 <= ms <= 10000)
      /\ DownloadResult.attempt r = attempt + Z.of_nat n
      /\ 1 <= DownloadResult.attempt r <= maxDownloadAttempts
      /\ DownloadResult.docId r = DownloadWorkItem.docId item
      /\ DownloadResult.url r = DownloadWorkItem.url item
      /\ DownloadResult.downloadedAt r = clock (environment (requests w + n)).
Proof.
  change (forall (attempt : Z) (w : world),
    1 <= attempt ->
    attempt <= maxDownloadAttempts ->
    (attempts_left maxDownloadAttempts attempt <= fuel)%nat ->
    exists r n,
      fst (loop fuel attempt w) = Some r
      /\ requests (snd (loop fuel attempt w)) = (requests w + S n)%nat
      /\ trace (snd (loop fuel attempt w)) =
           (trace w ++
            Request (requests w)
              :: flat_map
                   (fun i => [Sleep (backoff (attempt + Z.of_nat i));
                              Request (requests w + S i)])
                   (seq 0 n))%list
      /\ (forall ms, In (Sleep ms) (trace (snd (loop fuel attempt w))) ->
                     In (Sleep ms) (trace w) \/ 1000 <= ms <= 10000)
      /\ DownloadResult.attempt r = attempt + Z.of_nat n
      /\ 1 <= DownloadResult.attempt r <= maxDownloadAttempts
      /\ DownloadResult.docId r = DownloadWorkItem.docId item
      /\ DownloadResult.url r = DownloadWorkItem.url item
      /\ DownloadResult.downloadedAt r = clock (environment (requests w + n))).
  induction fuel as [|fuel IH]; intros attempt w H1 Ha Hfuel.
  - unfold attempts_left in Hfuel. lia.
  - destruct (loop_step_detail fuel attempt w Ha) as [(r & E & Hr)|(Hlt & E & _)].
    + exists r, 0%nat. rewrite E. cbn [fst snd requests trace seq flat_map].
      assert (Hsleeps : forall ms, In (Sleep ms) (trace w ++ [Request (requests w)]) ->
                           In (Sleep ms) (trace w) \/ 1000 <= ms <= 10000).
      { intros ms Hin. apply in_app_iff in Hin.
        destruct Hin as [Hin|[Hin|[]]]; [left; exact Hin|discriminate]. }
      assert (DownloadResult.attempt r = attempt
              /\ DownloadResult.docId r = DownloadWorkItem.docId item
              /\ DownloadResult.url r = DownloadWorkItem.url item
              /\ DownloadResult.downloadedAt r = clock (environment (requests w)))
        as (Hatt & Hdoc & Hurl & Hat).
      { destruct (fst (downloadAttempt _ _ _ _)) as [a|message].
        - destruct (statusCode a >=? 400); [destruct Hr as [-> _]| subst r];
            repeat split.
        - destruct Hr as [-> _]. repeat split. }
      assert (Hrange : 1 <= DownloadResult.attempt r <= maxDownloadAttempts) by lia.
      split; [reflexivity|]. split; [lia|]. split; [reflexivity|].
      split; [exact Hsleeps|]. split; [lia|]. split; [exact Hrange|].
      split; [exact Hdoc|]. split; [exact Hurl|].
      rewrite Nat.add_0_r. exact Hat.
    + rewrite E.
      set (w2 := sleep (backoff attempt)
                   {| fs := snd (downloadAttempt (environment (requests w))
                                   (DownloadWorkItem.url item) finalPath (fs w));
                      requests := S (requests w);
                      trace := trace w ++ [Request (requests w)] |}).
      destruct (IH (attempt + 1) w2)
        as (r & n & Hres & Hreq & Htrace & Hsl & Hatt & Hle & Hdoc & Hurl & Hat).
      { lia. }
      { lia. }
      { unfold attempts_left in *. lia. }
      exists r, (S n).
      split; [exact Hres|]. split; [rewrite Hreq; cbn; lia|]. split.
      { rewrite Htrace. cbn [w2 sleep trace requests].
        rewrite <- !app_assoc. cbn [app]. f_equal. f_equal.
        cbn [seq flat_map app]. rewrite Z.add_0_r, Nat.add_1_r. f_equal. f_equal.
        apply rounds_shift. }
      split.
      { intros ms Hin. destruct (Hsl ms Hin) as [Hold|Hnew]; [|right; exact Hnew].
        subst w2. cbn [sleep trace] in Hold. rewrite !in_app_iff in Hold.
        destruct Hold as [[Hold|[Hold|[]]]|[Hold|[]]].
        - left. exact Hold.
        - discriminate.
        - injection Hold as <-. right. apply backoff_bounds. exact H1. }
      split; [rewrite Hatt; lia|]. split; [exact Hle|].
      split; [exact Hdoc|]. split; [exact Hurl|].
      rewrite Hat. subst w2. cbn [sleep requests].
      replace (S (requests w) + n)%nat with (requests w + S n)%nat by lia.
      reflexivity.
Qed.
End AttemptLoopFacts.

Section AttemptFacts.
Import Downloader.
Context `{Sha256}.

Lemma downloadAttempt_without_body (env : attempt_env) (url outputPath : string)
    (fs : file_system) :
  match fetched env with
  | FetchRejects _ => True
  | FetchResolves response => Http.ok response = false
  end ->
  downloadAttempt env url outputPath fs =
  (match fetched env with
   | FetchRejects message => Thrown message
   | FetchResolves response =>
       Returned (status_only (Http.status response) (Http.url response))
   end, fs).
Proof.
  unfold downloadAttempt. destruct (fetched env) as [message|response]; [reflexivity|].
  intros ->. reflexivity.
Qed.


Variable environment : nat -> attempt_env.
Variable maxDownloadAttempts : Z.
Variable item : DownloadWorkItem.t.
Variable finalPath : string.

#[local] Abbreviation loop := (attempt_loop environment maxDownloadAttempts item finalPath).

(** X23. A status from 400 to 499 other than 429 is not retried: whatever
    the attempt number and the attempts left, the loop ends at once with
    [download_failed] and the error [HTTP <status>], after one request, no
    sleep and no change of the file system. *)
Theorem client_error_is_not_retried (fuel : nat) (attempt : Z) (w : world)
    (response : Http.response) :
  attempt <= maxDownloadAttempts ->
  fetched (environment (requests w)) = FetchResolves response ->
  400 <= Http.status response < 500 ->
  Http.status response <> 429 ->
  loop (S fuel) attempt w =
  (Some (failed_result item (Some (Http.url response))
           (http_error (Http.status response)) attempt
           (clock (environment (requests w)))),
   {| fs := fs w; requests := S (requests w);
      trace := trace w ++ [Request (requests w)] |}).
Proof.
  intros Ha Hf Hs H429.
  assert (Hok : Http.ok response = false).
  { unfold Http.ok. apply andb_false_iff. right. apply Z.leb_gt. lia. }
  assert (Hnot : isRetriableStatus (Http.status response) = false).
  { unfold isRetriableStatus. apply orb_false_iff. split.
    - apply Z.eqb_neq. exact H429.
    - rewrite Z.geb_leb. apply Z.leb_gt. lia. }
  destruct (loop_step_detail environment maxDownloadAttempts item finalPath fuel attempt w Ha)
    as [(r & E & Hr)|(_ & _ & Hr)];
    rewrite downloadAttempt_without_body in * by (rewrite Hf; exact Hok);
    rewrite Hf in *; cbn [fst snd statusCode status_only resolvedUrl] in *.
  - rewrite E. destruct (Z.geb_spec (Http.status response) 400); [|lia].
    destruct Hr as [-> _]. reflexivity.
  - congruence.
Qed.

(** X24. When every request is refused or answered with 429 or a status
    of 500 and above, the loop uses every attempt that is left: it ends
    with [download_failed] at attempt [maxDownloadAttempts], after exactly
    [maxDownloadAttempts + 1 - attempt] requests, and the file system is as
    before. *)
Theorem retriable_failures_use_every_attempt (fuel : nat) :
  forall (attempt : Z) (w : world),
    (forall n, (requests w <= n)%nat ->
       match fetched (environment n) with
       | FetchRejects _ => True
       | FetchResolves response => isRetriableStatus (Http.status response) = true
       end) ->
    attempt <= maxDownloadAttempts ->
    (attempts_left maxDownloadAttempts attempt <= fuel)%nat ->
    exists r,
      fst (loop fuel attempt w) = Some r
      /\ DownloadResult.status r = DownloadResult.download_failed
      /\ DownloadResult.attempt r = maxDownloadAttempts
      /\ DownloadResult.rawLocation r = None
      /\ requests (snd (loop fuel attempt w)) =
           (requests w + attempts_left maxDownloadAttempts attempt)%nat
      /\ fs (snd (loop fuel attempt w)) = fs w.
Proof.
  induction fuel as [|fuel IH]; intros attempt w Henv Ha Hfuel.
  - unfold attempts_left in Hfuel. lia.
  - assert (Hnb : match fetched (environment (requests w)) with
                  | FetchRejects _ => True
                  | FetchResolves response => Http.ok response = false
                  end).
    { specialize (Henv (requests w) (le_n _)).
      destruct (fetched (environment (requests w))) as [|response]; [exact I|].
      unfold isRetriableStatus in Henv. unfold Http.ok.
      apply orb_true_iff in Henv. apply andb_false_iff. right. apply Z.leb_gt.
      destruct Henv as [E|E]; [apply Z.eqb_eq in E; lia|].
      rewrite Z.geb_leb in E. apply Z.leb_le in E. lia. }
    destruct (loop_step_detail environment maxDownloadAttempts item finalPath fuel attempt w Ha)
      as [(r & E & Hr)|(Hlt & E & _)];
      rewrite (downloadAttempt_without_body _ _ _ _ Hnb) in *; cbn [fst snd] in *.
    + rewrite E. cbn [fst snd requests fs]. exists r.
      specialize (Henv (requests w) (le_n _)).
      assert (maxDownloadAttempts <= attempt
              /\ DownloadResult.status r = DownloadResult.download_failed
              /\ DownloadResult.attempt r = attempt
              /\ DownloadResult.rawLocation r = None) as (Hmax & Hst & Hatt & Hraw).
      { destruct (fetched (environment (requests w))) as [message|response].
        - destruct Hr as [-> Hmax]. repeat split. exact Hmax.
        - cbn [statusCode status_only] in Hr.
          destruct (Http.status response >=? 400) eqn:E4.
          + destruct Hr as [-> [Hno|Hmax]]; [congruence|]. repeat split. exact Hmax.
          + exfalso. unfold isRetriableStatus in Henv. apply orb_true_iff in Henv.
            rewrite Z.geb_leb in E4. apply Z.leb_gt in E4.
            destruct Henv as [E9|E5]; [apply Z.eqb_eq in E9; lia|].
            rewrite Z.geb_leb in E5. apply Z.leb_le in E5. lia. }
      split_and!; try assumption; try reflexivity; unfold attempts_left; lia.
    + rewrite E.
      set (w2 := sleep (backoff attempt)
                   {| fs := fs w; requests := S (requests w);
                      trace := trace w ++ [Request (requests w)] |}).
      destruct (IH (attempt + 1) w2) as (r & Hres & Hst & Hatt & Hraw & Hreq & Hfs).
      { intros n Hn. apply Henv. subst w2. cbn in Hn. lia. }
      { lia. }
      { unfold attempts_left in *. lia. }
      exists r. split_and!; try assumption.
      rewrite Hreq. subst w2. cbn [sleep requests]. unfold attempts_left. lia.
Qed.

End AttemptFacts.

Section ForcedFacts.
Import Downloader SqliteStore.
Context `{Sha256}.

(** X26. A document whose download attempts are used up is still listed
    with [force], and not without.  Its work item starts beyond the cap,
    so the worker issues no request and falls through to the result
    [download_failed], "Unknown download failure", attempt
    [maxDownloadAttempts]; [markDownloadResult] then stores that status
    and error, raises [attemptsDownload] by one and keeps [rawLocation]
    and [sha256]. *)
Theorem forced_download_of_exhausted_document
    (environment : nat -> attempt_env) (maxDownloadAttempts : Z) (finalPath now : string)
    (w : world) (db : SqliteStore.t) (d : Document.row) :
  List.NoDup (map Document.docId (documents db)) ->
  In d (documents db) ->
  maxDownloadAttempts <= Document.attemptsDownload d ->
  let item := download_work_item d in
  let result := download_item environment maxDownloadAttempts item finalPath now w in
  (forall lim, lim < 0 \/ Z.of_nat (length (documents db)) <= lim ->
     In item (listPendingDownloads lim true maxDownloadAttempts db))
  /\ (forall lim,
        ~ In (Document.docId d)
            (map DownloadWorkItem.docId
               (listPendingDownloads lim false maxDownloadAttempts db)))
  /\ snd result = w
  /\ fst result =
       failed_result item None "Unknown download failure" maxDownloadAttempts now
  /\ (forall d',
        In d' (documents (markDownloadResult (fst result) db)) ->
        Document.docId d' = Document.docId d ->
        Document.lastStatus d' = Some Document.download_failed
        /\ Document.error d' = Some "Unknown download failure"%string
        /\ Document.attemptsDownload d' = Document.attemptsDownload d + 1
        /\ Document.rawLocation d' = Document.rawLocation d
        /\ Document.sha256 d' = Document.sha256 d).
Proof.
  intros Hnd Hin Hmax item result.
  assert (Hres : result =
                 (failed_result item None "Unknown download failure"
                    maxDownloadAttempts now, w)).
  { unfold result, download_item. rewrite loop_exit; [reflexivity|].
    cbn. lia. }
  split_and!.
  - intros lim Hlim. unfold listPendingDownloads, pending_download_rows.
    apply in_map. rewrite limit_all.
    + apply order_by_In. exact Hin.
    + rewrite order_by_length. exact Hlim.
  - intros lim. apply download_not_listed. intros x Hx Ex.
    assert (x = d) as -> by (apply (key_unique Document.docId (documents db)); assumption).
    unfold pending_download. apply andb_false_iff. right. apply Z.ltb_ge. exact Hmax.
  - rewrite Hres. reflexivity.
  - rewrite Hres. reflexivity.
  - intros d' Hd' Ek. rewrite Hres in Hd'. cbn [fst] in Hd'.
    assert (d' = set_download_result
                   (failed_result item None "Unknown download failure"
                      maxDownloadAttempts now) d) as ->.
    { apply (update_where_only Document.docId
               (DownloadResult.docId
                  (failed_result item None "Unknown download failure"
                     maxDownloadAttempts now))
               _ (documents db) d d'); try assumption; reflexivity. }
    cbn. split_and!; try reflexivity.
    unfold bump_attempts. destruct (Z.gtb_spec maxDownloadAttempts (Document.attemptsDownload d));
      [lia|reflexivity].
Qed.
End ForcedFacts.

(* ===================================================================== *)
(** ** Batches, reconciliation and revalidation of the download runner *)
(* ===================================================================== *)

Section RunnerFacts.
Import Downloader SqliteStore.

(** X27. While the budget [maxDocs] is not spent, the size requested from
    the store is at least one and at most the batch size, is the batch
    size when there is no budget, and never exceeds what is left of the
    budget; [listPendingDownloads] and [listPendingExtracts] return at most
    that many items. *)
Theorem request_size_respects_the_budget (concurrency : Z) (maxDocs : option Z)
    (processed : Z) :
  budget_spent maxDocs processed = false ->
  let size := request_size concurrency maxDocs processed in
  1 <= size <= batch_size concurrency
  /\ (forall m, maxDocs = Some m -> size <= m - processed)
  /\ (maxDocs = None -> size = batch_size concurrency)
  /\ (forall force maxAttempts db,
        Z.of_nat (length (listPendingDownloads size force maxAttempts db)) <= size
        /\ Z.of_nat (length (listPendingExtracts size force maxAttempts db)) <= size).
Proof.
  intros Hgo size.
  assert (Hsize : 1 <= size <= batch_size concurrency
                  /\ (forall m, maxDocs = Some m -> size <= m - processed)
                  /\ (maxDocs = None -> size = batch_size concurrency)).
  { unfold size, request_size, batch_size, budget_spent in *.
    destruct maxDocs as [m|].
    - rewrite Z.geb_leb in Hgo. apply Z.leb_gt in Hgo.
      destruct (Z.eqb_spec (Z.max (m - processed) 0) 0) as [E|E]; [lia|].
      split_and!; [lia|lia| |discriminate].
      intros m' [= <-]. lia.
    - destruct (Z.eqb_spec (Z.max (concurrency * 2) 1) 0) as [E|E]; [lia|].
      split_and!; [lia|lia|discriminate|].
      intros _. lia. }
  destruct Hsize as ((Hlo & Hhi) & Hmax & Hnone). split_and!; try assumption.
  intros force maxAttempts db. split.
  - unfold listPendingDownloads, pending_download_rows. rewrite length_map.
    destruct force; apply limit_length; lia.
  - unfold listPendingExtracts. rewrite length_map. apply limit_length. lia.
Qed.

Lemma set_raw_missing_twice (t1 t2 : string) (d : Document.row) :
  set_raw_missing t2 (set_raw_missing t1 d) = set_raw_missing t2 d.
Proof. reflexivity. Qed.

Lemma mark_missing_files_rows (fs : file_system) (clock : nat -> string)
    (rawFiles : list RawFileItem.t) :
  forall (i : nat) (db : SqliteStore.t) (d' : Document.row),
    In d' (documents (mark_missing_files fs clock i rawFiles db)) ->
    (exists d t item,
        In d (documents db) /\ d' = set_raw_missing t d
        /\ In item rawFiles /\ RawFileItem.docId item = Document.docId d
        /\ existsSync (RawFileItem.rawLocation item) fs = false)
    \/ (In d' (documents db)
        /\ forall item, In item rawFiles ->
             RawFileItem.docId item = Document.docId d' ->
             existsSync (RawFileItem.rawLocation item) fs = true).
Proof.
  induction rawFiles as [|item rest IH]; intros i db d' Hd'.
  - right. split; [exact Hd'|]. intros item [].
  - cbn [mark_missing_files] in Hd'.
    destruct (existsSync (RawFileItem.rawLocation item) fs) eqn:Ex.
    + destruct (IH _ _ _ Hd') as [(d & t & it & Hd & -> & Hit & Eid & Hmiss)|[Hin Hall]].
      * left. exists d, t, it. split_and!; try assumption; try reflexivity.
        right. exact Hit.
      * right. split; [exact Hin|]. intros it [<-|Hit] Eid; [exact Ex|].
        exact (Hall it Hit Eid).
    + destruct (IH _ _ _ Hd') as [(d & t & it & Hd & -> & Hit & Eid & Hmiss)|[Hin Hall]].
      * unfold markRawMissing in Hd. cbn [documents with_documents] in Hd.
        apply update_where_In in Hd. destruct Hd as (d0 & Hd0 & ->).
        destruct (String.eqb_spec (Document.docId d0) (RawFileItem.docId item)) as [E|E].
        -- left. exists d0, t, item. split_and!; try assumption.
           ++ apply set_raw_missing_twice.
           ++ left. reflexivity.
           ++ symmetry. exact E.
        -- left. exists d0, t, it. split_and!; try assumption; try reflexivity.
           right. exact Hit.
      * unfold markRawMissing in Hin. cbn [documents with_documents] in Hin.
        apply update_where_In in Hin. destruct Hin as (d0 & Hd0 & ->).
        destruct (String.eqb_spec (Document.docId d0) (RawFileItem.docId item)) as [E|E].
        -- left. exists d0, (clock i), item. split_and!; try assumption.
           ++ reflexivity.
           ++ left. reflexivity.
           ++ symmetry. exact E.
        -- right. split; [exact Hd0|]. intros it [<-|Hit] Eid; [congruence|].
           exact (Hall it Hit Eid).
Qed.

Lemma mark_missing_files_keeps (fs : file_system) (clock : nat -> string)
    (rawFiles : list RawFileItem.t) (d : Document.row) :
  (forall item, In item rawFiles -> RawFileItem.docId item = Document.docId d ->
                existsSync (RawFileItem.rawLocation item) fs = true) ->
  forall (i : nat) (db : SqliteStore.t),
    In d (documents db) ->
    In d (documents (mark_missing_files fs clock i rawFiles db)).
Proof.
  induction rawFiles as [|item rest IH]; intros Hall i db Hd; [exact Hd|].
  cbn [mark_missing_files]. apply IH.
  - intros it Hit. apply Hall. right. exact Hit.
  - destruct (existsSync (RawFileItem.rawLocation item) fs) eqn:Ex; [exact Hd|].
    unfold markRawMissing. cbn [documents with_documents].
    apply update_where_miss; [exact Hd|].
    intros E. rewrite (Hall item (or_introl eq_refl) (eq_sym E)) in Ex. discriminate.
Qed.

(** X28. The startup reconciliation, for a store of at most 5000
    documents: afterwards every file listed by [listDownloadedRawFiles]
    exists.  With a unique [docId], a row is either untouched or is
    [set_raw_missing] of a downloaded row whose file is missing, and rows
    that have no raw file recorded as downloaded, or whose file exists,
    are untouched. *)
Theorem verifyDownloadedFiles_requeues_missing_files (fs : file_system)
    (clock : nat -> string) (db : SqliteStore.t) :
  Z.of_nat (length (documents db)) <= 5000 ->
  let db' := verifyDownloadedFiles fs clock db in
  (forall lim item,
     In item (listDownloadedRawFiles lim db') ->
     existsSync (RawFileItem.rawLocation item) fs = true)
  /\ (List.NoDup (map Document.docId (documents db)) ->
      forall d',
        In d' (documents db') ->
        In d' (documents db)
        \/ exists d t raw,
             In d (documents db) /\ d' = set_raw_missing t d
             /\ raw_downloaded d = true
             /\ Document.rawLocation d = Some raw
             /\ existsSync raw fs = false)
  /\ (List.NoDup (map Document.docId (documents db)) ->
      forall d,
        In d (documents db) ->
        raw_downloaded d = false
        \/ (exists raw, Document.rawLocation d = Some raw /\ existsSync raw fs = true) ->
        In d (documents db')).
Proof.
  intros Hcount db'.
  assert (Hitems : forall item,
            In item (listDownloadedRawFiles 5000 db) ->
            exists d, In d (documents db) /\ raw_downloaded d = true
                      /\ item = raw_file_item d).
  { intros item Hitem. unfold listDownloadedRawFiles, raw_file_rows in Hitem.
    apply in_map_iff in Hitem. destruct Hitem as (d & <- & Hd).
    apply select_In in Hd. destruct Hd as [Hd Hp]. exists d. split_and!; auto. }
  assert (Hraw : forall d, raw_downloaded d = true ->
            exists raw, Document.rawLocation d = Some raw
                        /\ RawFileItem.rawLocation (raw_file_item d) = raw).
  { intros d Hp. unfold raw_downloaded in Hp. apply andb_true_iff in Hp.
    destruct Hp as [Hp _]. unfold raw_file_item. cbn.
    destruct (Document.rawLocation d) as [raw|]; [|discriminate].
    exists raw. split; reflexivity. }
  split_and!.
  - intros lim item Hitem. unfold listDownloadedRawFiles, raw_file_rows in Hitem.
    apply in_map_iff in Hitem. destruct Hitem as (d' & <- & Hd').
    apply select_In in Hd'. destruct Hd' as [Hd' Hp].
    apply mark_missing_files_rows in Hd'.
    destruct Hd' as [(d & t & it & _ & -> & _)|[Hin Hall]]; [discriminate|].
    apply Hall; [|reflexivity].
    unfold listDownloadedRawFiles, raw_file_rows. apply in_map.
    apply select_all; [right; exact Hcount|exact Hin|exact Hp].
  - intros Hnd d' Hd'. apply mark_missing_files_rows in Hd'.
    destruct Hd' as [(d & t & it & Hd & -> & Hit & Eid & Hmiss)|[Hin _]];
      [right|left; exact Hin].
    destruct (Hitems it Hit) as (d0 & Hd0 & Hp0 & ->).
    assert (d0 = d) as -> by (apply (key_unique Document.docId (documents db)); assumption).
    destruct (Hraw d Hp0) as (raw & Eraw & Eitem).
    exists d, t, raw. split_and!; try assumption; try reflexivity.
    rewrite <- Eitem. exact Hmiss.
  - intros Hnd d Hd Hok. apply mark_missing_files_keeps; [|exact Hd].
    intros item Hitem Eid. destruct (Hitems item Hitem) as (d0 & Hd0 & Hp0 & ->).
    assert (d0 = d) as -> by (apply (key_unique Document.docId (documents db)); assumption).
    destruct Hok as [Hno|(raw & Eraw & Hex)]; [congruence|].
    destruct (Hraw d Hp0) as (raw' & Eraw' & Eitem). congruence.
Qed.



End RunnerFacts.

(* ===================================================================== *)
(** ** Acknowledgement by the collector *)
(* ===================================================================== *)

Section AckFacts.
Import SqliteStore AsyncExtract.
Context `{Sha256} {Q : Type} `{AsyncTableQueue Q}.

Lemma collect_message_acks (queued : QueuedExtractResult.t) (db : SqliteStore.t)
    (q : Q) (s : summary) :
  snd (fst (collect_message queued (db, q, s))) =
    ackResult (QueuedExtractResult.queueMessageId queued) q
  /\ (getExtractJob
        (ExtractResultMessageV1.jobId (QueuedExtractResult.message queued)) db = None ->
      fst (fst (collect_message queued (db, q, s))) = db
      /\ snd (collect_message queued (db, q, s)) = s).
Proof.
  unfold collect_message.
  destruct (getExtractJob _ db) as [job|]; cbn [fst snd].
  - split; [reflexivity|discriminate].
  - split; [reflexivity|]. intros _. split; reflexivity.
Qed.

Lemma collect_fold_acks (messages : list QueuedExtractResult.t) :
  forall (db : SqliteStore.t) (q : Q) (s : summary),
    let st' := fold_left (fun acc queued => collect_message queued acc) messages (db, q, s) in
    snd (fst st') =
      fold_left (fun q queued => ackResult (QueuedExtractResult.queueMessageId queued) q)
        messages q
    /\ ((forall queued, In queued messages ->
           getExtractJob
             (ExtractResultMessageV1.jobId (QueuedExtractResult.message queued)) db
           = None) ->
        fst (fst st') = db /\ snd st' = s).
Proof.
  induction messages as [|queued rest IH]; intros db q s.
  - cbn. split; [reflexivity|]. intros _. split; reflexivity.
  - cbn [fold_left].
    destruct (collect_message_acks queued db q s) as [Hq Hsame].
    destruct (collect_message queued (db, q, s)) as [[db1 q1] s1] eqn:E.
    cbn [fst snd] in Hq, Hsame. subst q1.
    destruct (IH db1 (ackResult (QueuedExtractResult.queueMessageId queued) q) s1)
      as [IHq IHsame].
    split; [exact IHq|].
    intros Hnone. destruct (Hsame (Hnone queued (or_introl eq_refl))) as [-> ->].
    apply IHsame. intros x Hx. apply Hnone. right. exact Hx.
Qed.

(** X30. [collectExtractResults] acknowledges every message it consumed,
    once and in the order of delivery, whether or not the job is known;
    when no consumed message names a stored job, the store is left as it
    was and the summary is all zero. *)
Theorem collectExtractResults_acknowledges_every_message (lim : Z)
    (st : SqliteStore.t * Q) :
  let messages := fst (consumeResults lim (snd st)) in
  let result := collectExtractResults lim st in
  snd (snd result) =
    fold_left (fun q queued => ackResult (QueuedExtractResult.queueMessageId queued) q)
      messages (snd (consumeResults lim (snd st)))
  /\ ((forall queued, In queued messages ->
         getExtractJob
           (ExtractResultMessageV1.jobId (QueuedExtractResult.message queued)) (fst st)
         = None) ->
      fst (snd result) = fst st
      /\ fst result = {| processed := 0; ok := 0; failed := 0 |}).
Proof.
  cbv zeta. unfold collectExtractResults.
  destruct (consumeResults lim (snd st)) as [messages q1]. cbn [fst snd].
  pose proof (collect_fold_acks messages (fst st) q1 {| processed := 0; ok := 0; failed := 0 |})
    as Hfold. cbv zeta in Hfold.
  destruct (fold_left _ messages _) as [[db q] s]. cbn [fst snd] in *.
  destruct Hfold as [Hq Hsame]. split; [exact Hq|].
  intros Hnone. destruct (Hsame Hnone) as [-> ->]. split; reflexivity.
Qed.
End AckFacts.

(** ** The theorems at sample inputs *)

Section Samples.
Import SqliteStore Fixtures.
Local Open Scope string_scope.

Lemma claimPendingExtractJobs_lease_exclusive_witness :
  In (claimed_job "2026-02-20T01:00:00.000Z" queued_job) (fst first_claim)
  /\ ~ In "job-1"
         (map ClaimedExtractJob.jobId
            (fst (claimPendingExtractJobs "2026-02-20T01:00:00.000Z" 10
                    "2026-02-20T02:00:00.000Z" (snd first_claim))))
  /\ In "job-1"
       (map ClaimedExtractJob.jobId
          (fst (claimPendingExtractJobs "2026-02-20T01:00:00.001Z" 10
                  "2026-02-20T02:00:00.000Z" (snd first_claim)))).
Proof.
  assert (Hc : In (claimed_job "2026-02-20T01:00:00.000Z" queued_job) (fst first_claim))
    by (vm_compute; left; reflexivity).
  destruct (claimPendingExtractJobs_lease_exclusive _ _ _ _ _ Hc)
    as (_ & _ & _ & _ & Hbefore & Hafter & _).
  split; [exact Hc|]. split.
  - apply (Hbefore "2026-02-20T01:00:00.000Z" 10 "2026-02-20T02:00:00.000Z").
    reflexivity.
  - apply (Hafter "2026-02-20T01:00:00.001Z" 10 "2026-02-20T02:00:00.000Z").
    + reflexivity.
    + right. vm_compute. discriminate.
Defined.

(** The claim of C2 as it is worded fails twice over: an error that
    spells the marker in lower case does not begin with ['HTTP 404'], yet
    LIKE matches it and the document is withheld; and an eligible
    document beyond the limit is not returned. *)
Lemma listPendingDownloads_not_iff_as_stated :
  (Document.lastStatus failed_lower_case = Some Document.download_failed
   /\ (exists e, Document.error failed_lower_case = Some e
                 /\ String.prefix "HTTP 404" e = false)
   /\ Document.attemptsDownload failed_lower_case < 3
   /\ listPendingDownloads 10 false 3 (store [failed_lower_case] []) = [])
  /\ (Document.lastStatus discovered_late = Some Document.discovered
      /\ Document.attemptsDownload discovered_late < 3
      /\ map DownloadWorkItem.docId
           (listPendingDownloads 1 false 3 (store [discovered_late; discovered_early] []))
         = ["d3"]).
Proof.
  split.
  - split; [reflexivity|]. split; [|split; [reflexivity|reflexivity]].
    eexists; split; reflexivity.
  - split; [reflexivity|]. split; reflexivity.
Qed.

Lemma listPendingDownloads_eligible_oldest_first_witness :
  In discovered_late (documents (store [discovered_late; discovered_early] []))
  /\ eligible_for_download 3 discovered_late
  /\ In discovered_late
       (pending_download_rows 2 false 3 (store [discovered_late; discovered_early] [])).
Proof.
  assert (Hin : In discovered_late
                  (documents (store [discovered_late; discovered_early] [])))
    by (simpl; left; reflexivity).
  assert (He : eligible_for_download 3 discovered_late)
    by (split; [right; left; reflexivity|reflexivity]).
  destruct (listPendingDownloads_eligible_oldest_first 2 3
              (store [discovered_late; discovered_early] []))
    as (_ & _ & _ & _ & Hall & _).
  split; [exact Hin|]. split; [exact He|].
  apply Hall; [right; vm_compute; discriminate|exact Hin|exact He].
Defined.

(** The claim of C3 as it is worded fails for a document that was
    downloaded at its last allowed attempt: [markRemoteChanged] makes it
    ['discovered'] again, but the attempt cap keeps it out of the
    listing. *)
Lemma markRemoteChanged_exhausted_attempts_not_listed :
  Document.lastStatus downloaded_at_last_attempt = Some Document.downloaded_ok
  /\ Document.sha256 downloaded_at_last_attempt = Some "abc"
  /\ Document.rawLocation downloaded_at_last_attempt = Some "/r/d1.pdf"
  /\ listPendingDownloads 10 false 3 (store [downloaded_at_last_attempt] []) = []
  /\ map Document.lastStatus
       (documents
          (markRemoteChanged "d1" "2026-02-22T00:00:00.000Z" (Some "v2") None
             (store [downloaded_at_last_attempt] [])))
     = [Some Document.discovered]
  /\ listPendingDownloads 10 false 3
       (markRemoteChanged "d1" "2026-02-22T00:00:00.000Z" (Some "v2") None
          (store [downloaded_at_last_attempt] []))
     = [].
Proof. repeat split. Qed.

Lemma markRemoteChanged_reopens_download_witness :
  In "d6"
    (map DownloadWorkItem.docId
       (listPendingDownloads 10 false 3
          (markRemoteChanged "d6" "2026-02-22T00:00:00.000Z" (Some "v2") None
             (store [downloaded_once] [])))).
Proof.
  assert (Hnd : List.NoDup (map Document.docId (documents (store [downloaded_once] []))))
    by (simpl; repeat constructor; simpl; tauto).
  assert (Hin : In downloaded_once (documents (store [downloaded_once] [])))
    by (simpl; left; reflexivity).
  destruct (markRemoteChanged_reopens_download 10 3 (store [downloaded_once] [])
              downloaded_once "2026-02-22T00:00:00.000Z" (Some "v2") None
              Hnd Hin eq_refl ltac:(discriminate) ltac:(discriminate))
    as (_ & _ & Hback).
  apply Hback; [reflexivity|right; vm_compute; discriminate].
Defined.

Lemma attempts_never_decrease_witness :
  exists d',
    nth_error
      (documents
         (apply (MarkRemoteChanged "d6" "2026-02-22T00:00:00.000Z" None None)
            (store [downloaded_once] []))) 0 = Some d'
    /\ Document.attemptsDownload downloaded_once <= Document.attemptsDownload d'.
Proof.
  destruct (attempts_never_decrease
              (MarkRemoteChanged "d6" "2026-02-22T00:00:00.000Z" None None)
              (store [downloaded_once] []) 0 downloaded_once eq_refl)
    as (d' & Hd' & _ & Hle & _).
  exists d'. split; [exact Hd'|exact Hle].
Defined.

(** The claim of C8 as it is worded fails for a stored row whose
    [lastStatus] is [NULL]: the conflict clause does not assign
    [lastStatus], so it stays [NULL]. *)
Lemma upsertDiscovered_keeps_unset_status :
  Document.lastStatus status_unset = None
  /\ map Document.lastStatus
       (documents
          (upsertDiscovered "2026-03-01T00:00:01.000Z" (item "d5")
             (store [status_unset] [])))
     = [None]
  /\ map Document.url
       (documents
          (upsertDiscovered "2026-03-01T00:00:01.000Z" (item "d5")
             (store [status_unset] [])))
     = ["https://x/new.pdf"].
Proof. repeat split. Qed.

Lemma upsertDiscovered_frame_witness :
  In (DocumentDiscoveredItem.docId (item "d6"))
    (map Document.docId (documents (store [downloaded_once] [])))
  /\ length
       (documents
          (upsertDiscovered "2026-03-01T00:00:01.000Z" (item "d6")
             (store [downloaded_once] [])))
     = 1%nat.
Proof.
  assert (Hin : In (DocumentDiscoveredItem.docId (item "d6"))
                  (map Document.docId (documents (store [downloaded_once] []))))
    by (simpl; left; reflexivity).
  destruct (upsertDiscovered_frame "2026-03-01T00:00:01.000Z" (item "d6")
              (store [downloaded_once] [])) as (_ & Hconflict & _).
  destruct (Hconflict Hin) as (Hlen & _).
  split; [exact Hin|exact Hlen].
Defined.

Lemma http_404_ends_attempt_loop_witness :
  trace_of_item = [Downloader.Request 0; Downloader.Sleep 1000; Downloader.Request 1]
  /\ exists r,
       fst (@Downloader.attempt_loop spelled_digest flaky_then_gone 3 work_item
              "/r/d3.pdf" 3 1 fresh_world) = Some r
       /\ DownloadResult.error r = Some "HTTP 404"
       /\ DownloadResult.attempt r = 2.
Proof.
  split; [reflexivity|].
  destruct (@http_404_ends_attempt_loop spelled_digest flaky_then_gone 3 work_item
              "/r/d3.pdf" 3%nat 1 fresh_world) as (events & Etrace & Hevents).
  assert (Eev : events =
            ([Downloader.Request 0; Downloader.Sleep 1000] ++
             Downloader.Request 1 :: [])%list).
  { vm_compute in Etrace. exact (eq_sym Etrace). }
  destruct (Hevents _ _ _ (response 404 None) Eev eq_refl eq_refl)
    as (_ & _ & _ & r & Hr & _ & Herr & Hatt & _).
  exists r. split; [exact Hr|]. split; [exact Herr|exact Hatt].
Defined.

(** The claim of C6 as it is worded fails: with a [.part] file left at
    the target by an earlier process, an attempt whose fetch is refused
    throws, and one that is answered 404 returns, and either way the
    [.part] file is still there afterwards. *)
Lemma downloadAttempt_keeps_stale_partial_file :
  (fst (@Downloader.downloadAttempt spelled_digest
          (answers (Downloader.FetchRejects "ECONNREFUSED"))
          "https://x/d3.pdf" "/r/d3.pdf" stale_part) = Thrown "ECONNREFUSED"
   /\ snd (@Downloader.downloadAttempt spelled_digest
             (answers (Downloader.FetchRejects "ECONNREFUSED"))
             "https://x/d3.pdf" "/r/d3.pdf" stale_part) !! "/r/d3.pdf.part"
      = Some [x25; x50])
  /\ (fst (@Downloader.downloadAttempt spelled_digest
             (answers (Downloader.FetchResolves (response 404 None)))
             "https://x/d3.pdf" "/r/d3.pdf" stale_part)
      = Returned (Downloader.status_only 404 "https://x/d3.pdf")
      /\ snd (@Downloader.downloadAttempt spelled_digest
                (answers (Downloader.FetchResolves (response 404 None)))
                "https://x/d3.pdf" "/r/d3.pdf" stale_part) !! "/r/d3.pdf.part"
         = Some [x25; x50]).
Proof.
  split; split; reflexivity.
Qed.

Lemma downloadAttempt_leaves_no_partial_file_witness :
  stale_part !! Downloader.temp_path "/r/d3.pdf" = Some [x25; x50]
  /\ stale_part !! "/r/d3.pdf" = None
  /\ snd (@Downloader.downloadAttempt spelled_digest served_pdf "https://x/d3.pdf"
            "/r/d3.pdf" stale_part) !! Downloader.temp_path "/r/d3.pdf" = None
  /\ snd (@Downloader.downloadAttempt spelled_digest served_pdf "https://x/d3.pdf"
            "/r/d3.pdf" stale_part) !! "/r/d3.pdf" = Some [x25; x50; x44; x46]
  /\ snd (@Downloader.downloadAttempt spelled_digest
            (answers (Downloader.FetchRejects "ECONNREFUSED")) "https://x/d3.pdf"
            "/r/d3.pdf" stale_part) = stale_part.
Proof.
  destruct (@downloadAttempt_leaves_no_partial_file spelled_digest served_pdf
              "https://x/d3.pdf" "/r/d3.pdf" stale_part)
    as (_ & _ & Hclean & _ & _ & _ & _ & _ & Hbody).
  destruct (@downloadAttempt_leaves_no_partial_file spelled_digest
              (answers (Downloader.FetchRejects "ECONNREFUSED"))
              "https://x/d3.pdf" "/r/d3.pdf" stale_part)
    as (_ & Hsame & _).
  destruct (Hbody (response 200 (Some pdf_body)) pdf_body eq_refl eq_refl eq_refl
              eq_refl eq_refl) as (_ & _ & Hfinal).
  split; [reflexivity|]. split; [reflexivity|]. split.
  - apply Hclean. intros [Hx|[Hx|Hx]]; [discriminate|discriminate|now apply Hx].
  - split; [exact Hfinal|]. apply Hsame. exact I.
Defined.

Lemma submitExtractJobs_idempotent_witness :
  In (ExtractWorkItem.mk "d6" "/r/d6.pdf" 1)
    (listPendingExtracts 10 false 3 (store [downloaded_once] []))
  /\ exists row,
       getExtractJob "d6|/r/d6.pdf" (fst first_submit) = Some row
       /\ getExtractJob "d6|/r/d6.pdf" (fst second_submit) = Some row.
Proof.
  assert (Hnd : List.NoDup
                  (map ExtractJob.jobId
                     (extract_jobs (fst (store [downloaded_once] [], empty_queue)))))
    by constructor.
  assert (Hin : In (ExtractWorkItem.mk "d6" "/r/d6.pdf" 1)
                  (listPendingExtracts 10 false 3
                     (fst (store [downloaded_once] [], empty_queue))))
    by (vm_compute; left; reflexivity).
  destruct (@submitExtractJobs_idempotent spelled_digest _ memory_queue_ops
              "run-1" "run-2" None None 10 10 3 3
              (fun _ => "2026-02-21T00:00:00.000Z") (fun _ => "2026-02-22T00:00:00.000Z")
              (store [downloaded_once] [], empty_queue)
              (ExtractWorkItem.mk "d6" "/r/d6.pdf" 1) Hnd Hin)
    as (_ & _ & row & H1 & H2 & _).
  split; [exact Hin|]. exists row. split; [exact H1|exact H2].
Defined.



Lemma collect_no_tables_like_ok_witness :
  fst (@consumeResults _ memory_queue_ops 10 results_waiting)
  = ([QueuedExtractResult.mk "m0"
        (QueuedExtractResult.message (result_message ExtractResultMessageV1.failed))]
     ++ result_message ExtractResultMessageV1.no_tables :: [])%list
  /\ getExtractJob "job-1" jobs_store = Some queued_job
  /\ AsyncExtract.processed
       (fst (@AsyncExtract.collectExtractResults _ memory_queue_ops 10
               (jobs_store, results_waiting))) = 2
  /\ AsyncExtract.ok
       (fst (@AsyncExtract.collectExtractResults _ memory_queue_ops 10
               (jobs_store, results_waiting))) = 1
  /\ AsyncExtract.failed
       (fst (@AsyncExtract.collectExtractResults _ memory_queue_ops 10
               (jobs_store, results_waiting))) = 1
  /\ (exists d',
        nth_error
          (documents
             (fst (snd (@AsyncExtract.collectExtractResults _ memory_queue_ops 10
                          (jobs_store, results_waiting))))) 0 = Some d'
        /\ Document.docId d' = "d6"
        /\ Document.lastStatus d' = Some Document.extracted_ok
        /\ Document.extractedTablesLocation d' = Some "/e/d6.tables.json")
  /\ (exists j',
        nth_error
          (extract_jobs
             (fst (snd (@AsyncExtract.collectExtractResults _ memory_queue_ops 10
                          (jobs_store, results_waiting))))) 0 = Some j'
        /\ ExtractJob.jobId j' = "job-1"
        /\ ExtractJob.status j' = ExtractJob.completed)
  /\ @AsyncExtract.collectExtractResults _ memory_queue_ops 10
       (jobs_store, results_waiting_ok)
     = @AsyncExtract.collectExtractResults _ memory_queue_ops 10
         (jobs_store, results_waiting).
Proof.
  assert (Hbatch :
    fst (@consumeResults _ memory_queue_ops 10 (snd (jobs_store, results_waiting)))
    = ([QueuedExtractResult.mk "m0"
          (QueuedExtractResult.message (result_message ExtractResultMessageV1.failed))]
       ++ result_message ExtractResultMessageV1.no_tables :: [])%list)
    by reflexivity.
  assert (Hjob : getExtractJob
                   (ExtractResultMessageV1.jobId
                      (QueuedExtractResult.message
                         (result_message ExtractResultMessageV1.no_tables)))
                   (fst (jobs_store, results_waiting)) = Some queued_job)
    by reflexivity.
  pose proof (@collect_no_tables_like_ok _ memory_queue_ops 10
                (jobs_store, results_waiting) _ _ _ queued_job Hbatch Hjob) as Hc.
  cbv zeta in Hc.
  destruct Hc as (Hdoc & Hjobs & Hp & Ho & Hf & Hsame).
  destruct (Hdoc ltac:(intros m []) 0%nat downloaded_once eq_refl eq_refl)
    as (d' & Hd' & Eid & Hst & Hloc).
  destruct (Hjobs ltac:(intros m []) 0%nat queued_job eq_refl eq_refl)
    as (j' & Hj' & Ejid & Hjst).
  split; [exact Hbatch|]. split; [exact Hjob|].
  split; [exact Hp|]. split; [exact Ho|]. split; [exact Hf|]. split.
  - exists d'. split; [exact Hd'|]. split; [exact Eid|]. split; [exact Hst|].
    apply Hloc; [discriminate|reflexivity].
  - split; [exists j'; split; [exact Hj'|]; split; [exact Ejid|exact Hjst]|].
    apply (Hsame (jobs_store, results_waiting_ok)); [reflexivity|reflexivity|].
    constructor; [left; reflexivity|]. constructor; [|constructor].
    right. exists "m1", (QueuedExtractResult.message
                           (result_message ExtractResultMessageV1.no_tables)).
    split; reflexivity.
Defined.

Lemma listPendingDownloads_force_lists_every_document_witness :
  In (download_work_item downloaded_at_last_attempt)
    (listPendingDownloads 10 true 3 (store [downloaded_at_last_attempt; failed_lower_case] [])).
Proof.
  destruct (listPendingDownloads_force_lists_every_document 10 3
              (store [downloaded_at_last_attempt; failed_lower_case] []))
    as (_ & _ & _ & Hall & _).
  apply Hall; [right; cbn; lia|left; reflexivity].
Defined.

Lemma http_404_result_is_final_witness :
  ~ In "d3"
      (map DownloadWorkItem.docId
         (listPendingDownloads 10 false 3
            (apply_all [UpsertDiscovered "2026-03-01T00:00:01.000Z" (item "d3")]
               (markDownloadResult gone_result (store [discovered_early] []))))).
Proof.
  assert (H1 : In discovered_early (documents (store [discovered_early] [])))
    by (left; reflexivity).
  assert (H2 : Sql.like_prefix "HTTP 404" "HTTP 404" = true) by reflexivity.
  assert (H3 : forallb passive
                 [UpsertDiscovered "2026-03-01T00:00:01.000Z" (item "d3")] = true)
    by reflexivity.
  destruct (http_404_result_is_final gone_result "HTTP 404" (store [discovered_early] [])
              discovered_early [UpsertDiscovered "2026-03-01T00:00:01.000Z" (item "d3")]
              H1 eq_refl eq_refl eq_refl H2 H3) as (_ & Hnot & _).
  exact (Hnot 10 3).
Defined.

Lemma downloaded_document_is_handed_to_extraction_witness :
  In (ExtractWorkItem.mk "d3" "/r/d3.pdf" 1)
    (listPendingExtracts 10 false 3
       (markDownloadResult stored_result (store [discovered_early] []))).
Proof.
  assert (H0 : List.NoDup (map Document.docId (documents (store [discovered_early] []))))
    by (repeat constructor; simpl; tauto).
  assert (H1 : In discovered_early (documents (store [discovered_early] [])))
    by (left; reflexivity).
  assert (H2 : DownloadResult.status stored_result <> DownloadResult.download_failed)
    by discriminate.
  destruct (downloaded_document_is_handed_to_extraction stored_result "%PDF"
              "/r/d3.pdf" (store [discovered_early] []) discovered_early
              H0 H1 eq_refl H2 eq_refl eq_refl) as (_ & _ & Hlisted & _).
  apply (Hlisted 10 3); [reflexivity|right; cbn; lia].
Defined.

Lemma listPendingExtracts_needs_stored_raw_file_witness :
  In (ExtractWorkItem.mk "d6" "/r/d6.pdf" 1)
    (listPendingExtracts 10 false 3 (store [downloaded_once] []))
  /\ exists d,
       In d (documents (store [downloaded_once] []))
       /\ Document.rawLocation d = Some "/r/d6.pdf".
Proof.
  assert (H1 : In (ExtractWorkItem.mk "d6" "/r/d6.pdf" 1)
                 (listPendingExtracts 10 false 3 (store [downloaded_once] [])))
    by (left; reflexivity).
  destruct (listPendingExtracts_needs_stored_raw_file 10 false 3
              (store [downloaded_once] []) (ExtractWorkItem.mk "d6" "/r/d6.pdf" 1) H1)
    as (_ & d & Hd & _ & Hraw & _).
  split; [exact H1|]. exists d. split; [exact Hd|exact Hraw].
Defined.

Lemma markExtractionResult_settles_document_witness :
  In (ExtractWorkItem.mk "d6" "/r/d6.pdf" 2)
    (listPendingExtracts 10 false 3
       (markExtractionResult failed_extraction (store [downloaded_once] []))).
Proof.
  assert (H0 : List.NoDup (map Document.docId (documents (store [downloaded_once] []))))
    by (repeat constructor; simpl; tauto).
  assert (H1 : In downloaded_once (documents (store [downloaded_once] [])))
    by (left; reflexivity).
  destruct (markExtractionResult_settles_document failed_extraction
              (store [downloaded_once] []) downloaded_once H0 H1 eq_refl)
    as (_ & _ & _ & Hlisted).
  apply (Hlisted eq_refl 10 3 "/r/d6.pdf"); [reflexivity|reflexivity|right; cbn; lia].
Defined.

Lemma markRawMissing_sends_document_back_to_download_witness :
  In (DownloadWorkItem.mk "d6" "https://x/d6.pdf" "d6" 2)
    (listPendingDownloads 10 false 3
       (markRawMissing "d6" "2026-02-23T00:00:00.000Z" (store [downloaded_once] []))).
Proof.
  assert (H0 : List.NoDup (map Document.docId (documents (store [downloaded_once] []))))
    by (repeat constructor; simpl; tauto).
  assert (H1 : In downloaded_once (documents (store [downloaded_once] [])))
    by (left; reflexivity).
  destruct (markRawMissing_sends_document_back_to_download "2026-02-23T00:00:00.000Z"
              (store [downloaded_once] []) downloaded_once H0 H1)
    as (_ & _ & _ & _ & Hlisted).
  apply (Hlisted 10 3); [reflexivity|right; cbn; lia].
Defined.

Lemma listRevalidationCandidates_least_recently_checked_first_witness :
  In (revalidation_item downloaded_once)
    (listRevalidationCandidates 10 "2026-02-21T00:00:00.000Z"
       (store [discovered_early; downloaded_once] [])).
Proof.
  destruct (listRevalidationCandidates_least_recently_checked_first 10
              "2026-02-21T00:00:00.000Z" (store [discovered_early; downloaded_once] []))
    as (_ & _ & _ & Hall).
  apply Hall; [right; cbn; lia|right; left; reflexivity|reflexivity].
Defined.

Lemma revalidation_mark_defers_next_check_witness :
  ~ In "d6"
      (map RevalidationItem.docId
         (listRevalidationCandidates 10 "2026-02-21T00:00:00.000Z"
            (markRemoteUnchanged "d6" "2026-02-22T00:00:00.000Z" None None
               (store [downloaded_once] [])))).
Proof.
  destruct (revalidation_mark_defers_next_check "d6" "2026-02-22T00:00:00.000Z"
              None None (store [downloaded_once] [])) as (Hnot & _).
  apply Hnot. reflexivity.
Defined.

Lemma upsertDiscovered_counts_a_document_once_witness :
  getStats (upsertDiscovered "2026-03-01T00:00:01.000Z" (item "d6")
              (store [downloaded_once] []))
  = getStats (store [downloaded_once] []).
Proof.
  destruct (upsertDiscovered_counts_a_document_once "2026-03-01T00:00:01.000Z"
              (item "d6") (store [downloaded_once] [])) as (Hsame & _).
  apply Hsame. left. reflexivity.
Defined.

Lemma startRun_then_finishRun_witness :
  finishRun "run-1" completed "2026-02-20T09:00:00.000Z" [] = [].
Proof.
  destruct (startRun_then_finishRun "run-1" "2026-02-20T00:00:00.000Z" [])
    as (_ & _ & _ & _ & Hnone).
  apply Hnone. simpl. tauto.
Defined.

Lemma completeExtractJob_is_terminal_witness :
  getExtractJob "job-1"
    (completeExtractJob "job-1" failed "2026-02-20T03:00:00.000Z" (Some "boom") None
       jobs_store)
  = Some (set_completed failed "2026-02-20T03:00:00.000Z" (Some "boom") None queued_job).
Proof.
  destruct (completeExtractJob_is_terminal "job-1" failed "2026-02-20T03:00:00.000Z"
              (Some "boom") None jobs_store) as (Hget & _).
  apply Hget. reflexivity.
Defined.

Lemma claimPendingExtractJobs_oldest_first_witness :
  Z.of_nat (length (fst first_claim)) <= 10.
Proof.
  destruct (claimPendingExtractJobs_oldest_first "2026-02-20T00:30:00.000Z" 10
              "2026-02-20T01:00:00.000Z" jobs_store) as (_ & Hlen & _).
  apply Hlen. lia.
Defined.

Lemma enqueueExtractJob_then_getExtractJob_witness :
  getExtractJob "job-1" (enqueueExtractJob job_record jobs_store)
  = getExtractJob "job-1" jobs_store.
Proof.
  destruct (enqueueExtractJob_then_getExtractJob job_record jobs_store) as (_ & Hother & _).
  apply Hother. discriminate.
Defined.

Lemma leased_message_is_not_delivered_again_witness :
  In (message "m1" "ok" QueueMessage.pending "2026-02-20T01:00:00.000Z")
    (@LocalSqliteQueueAdapter.pending_rows 10 queue_results)
  /\ ~ In "m1"
         (map QueueMessage.queueMessageId
            (@LocalSqliteQueueAdapter.pending_rows 10
               (snd (@LocalSqliteQueueAdapter.consumeResults three_texts 10 queue_results)))).
Proof.
  assert (H1 : In (message "m1" "ok" QueueMessage.pending "2026-02-20T01:00:00.000Z")
                 (@LocalSqliteQueueAdapter.pending_rows 10 queue_results))
    by (left; reflexivity).
  split; [exact H1|].
  destruct (@leased_message_is_not_delivered_again three_texts _ 10
              ExtractResultMessageV1.isExtractResultMessageV1
              (fun queueMessageId message =>
                 QueuedExtractResult.mk queueMessageId
                   (ExtractResultMessageV1.of_json message))
              queue_results _ H1) as (_ & _ & Hnever).
  exact (Hnever _ (@LocalSqliteQueueAdapter.later_now three_texts _) 10).
Defined.

Lemma consume_throws_on_payload_that_is_not_json_witness :
  fst (@LocalSqliteQueueAdapter.consumeResults three_texts 10 [garbled])
  = Thrown "SyntaxError".
Proof.
  assert (H1 : In garbled (@LocalSqliteQueueAdapter.pending_rows 10 [garbled]))
    by (left; reflexivity).
  destruct (@consume_throws_on_payload_that_is_not_json three_texts _ 10
              ExtractResultMessageV1.isExtractResultMessageV1
              (fun queueMessageId message =>
                 QueuedExtractResult.mk queueMessageId
                   (ExtractResultMessageV1.of_json message))
              [garbled] garbled H1 eq_refl) as (Hthrown & _).
  exact Hthrown.
Defined.

Lemma ack_deletes_exactly_that_message_witness :
  LocalSqliteQueueAdapter.ack "m7" queue_results = queue_results.
Proof.
  destruct (@ack_deletes_exactly_that_message three_texts "m7" queue_results)
    as (_ & Hunknown & _).
  apply Hunknown. intros [E|[E|[E|[]]]]; discriminate.
Defined.

Lemma consumeResults_returns_validated_messages_witness :
  ExtractResultMessageV1.jobId (ExtractResultMessageV1.of_json (result_json "ok")) <> "".
Proof.
  destruct (@consumeResults_returns_validated_messages three_texts 10 queue_results
              [QueuedExtractResult.mk "m1" (ExtractResultMessageV1.of_json (result_json "ok"))]
              [message "m2" "no status" QueueMessage.failed "2026-02-20T02:00:00.000Z";
               message "m1" "ok" QueueMessage.leased "2026-02-20T01:00:00.000Z";
               message "m0" "ok" QueueMessage.leased "2026-02-20T00:00:00.000Z"]
              (QueuedExtractResult.mk "m1" (ExtractResultMessageV1.of_json (result_json "ok")))
              eq_refl (or_introl eq_refl)) as (_ & _ & Hjob & _).
  exact Hjob.
Defined.

Lemma published_message_is_consumed_once_witness :
  exists table1,
    LocalSqliteQueueAdapter.insert "queue_results" "m7" "ok" "2026-02-20T07:00:00.000Z" []
    = (Returned tt, table1)
    /\ fst (@LocalSqliteQueueAdapter.consumeResults three_texts 1 table1)
       = Returned [QueuedExtractResult.mk "m7"
                     (ExtractResultMessageV1.of_json (result_json "ok"))].
Proof.
  assert (H1 : forall r : QueueMessage.row,
             In r [] -> QueueMessage.status r <> QueueMessage.pending)
    by (intros r []).
  assert (H2 : 1 < 0 \/ 1 <= 1) by (right; lia).
  destruct (@published_message_is_consumed_once three_texts _ "queue_results" "m7" "ok"
              "2026-02-20T07:00:00.000Z" [] 1
              ExtractResultMessageV1.isExtractResultMessageV1
              (fun queueMessageId message =>
                 QueuedExtractResult.mk queueMessageId
                   (ExtractResultMessageV1.of_json message))
              H1 H2) as (_ & Hfresh).
  destruct (Hfresh ltac:(intros [])) as (table1 & Hinsert & _ & _ & Hconsume & _).
  exists table1. split; [exact Hinsert|exact Hconsume].
Defined.

Lemma messages_survive_the_queue_witness :
  ExtractResultMessageV1.isExtractResultMessageV1 (Json.JString "ok") = false.
Proof.
  destruct (@messages_survive_the_queue plain_integers) as (_ & _ & Hother & _).
  destruct (Hother (Json.JString "ok") eq_refl) as (Hresult & _).
  exact Hresult.
Defined.

Lemma attempt_loop_requests_and_sleeps_witness :
  exists r n,
    fst (@Downloader.attempt_loop spelled_digest flaky_then_gone 3 work_item
           "/r/d3.pdf" 3 1 fresh_world) = Some r
    /\ Downloader.trace
         (snd (@Downloader.attempt_loop spelled_digest flaky_then_gone 3 work_item
                 "/r/d3.pdf" 3 1 fresh_world)) =
       (Downloader.Request 0
          :: flat_map (fun i => [Downloader.Sleep (Z.min (1000 * 2 ^ (1 + Z.of_nat i - 1)) 10000);
                                 Downloader.Request (0 + S i)])
               (seq 0 n))%list
    /\ DownloadResult.attempt r = 1 + Z.of_nat n
    /\ 1 <= DownloadResult.attempt r <= 3.
Proof.
  assert (H0 : 1 <= 1) by lia.
  assert (H1 : 1 <= 3) by lia.
  assert (H2 : (Downloader.attempts_left 3 1 <= 3)%nat) by (vm_compute; lia).
  destruct (@attempt_loop_requests_and_sleeps spelled_digest flaky_then_gone 3 work_item
              "/r/d3.pdf" 3 1 fresh_world H0 H1 H2)
    as (r & n & Hres & _ & Htrace & _ & Hatt & Hle & _).
  exists r, n. split; [exact Hres|]. split; [exact Htrace|].
  split; [exact Hatt|exact Hle].
Defined.

Lemma client_error_is_not_retried_witness :
  fst (@Downloader.attempt_loop spelled_digest flaky_then_gone 3 work_item
         "/r/d3.pdf" 1 1
         {| Downloader.fs := ∅; Downloader.requests := 1; Downloader.trace := [] |})
  = Some (Downloader.failed_result work_item (Some "https://x/d3.pdf") "HTTP 404" 1
            "2026-02-20T05:00:00.000Z").
Proof.
  assert (H1 : 1 <= 3) by lia.
  assert (H2 : 400 <= Http.status (response 404 None) < 500) by (cbn; lia).
  assert (H3 : Http.status (response 404 None) <> 429) by (cbn; lia).
  rewrite (@client_error_is_not_retried spelled_digest flaky_then_gone 3 work_item
             "/r/d3.pdf" 0 1
             {| Downloader.fs := ∅; Downloader.requests := 1; Downloader.trace := [] |}
             (response 404 None) H1 eq_refl H2 H3).
  reflexivity.
Defined.

Lemma retriable_failures_use_every_attempt_witness :
  exists r,
    fst (@Downloader.attempt_loop spelled_digest flaky_then_gone 3 work_item
           "/r/d3.pdf" 3 1
           {| Downloader.fs := ∅; Downloader.requests := 2; Downloader.trace := [] |})
    = Some r
    /\ DownloadResult.attempt r = 3.
Proof.
  assert (H0 : forall n,
             (Downloader.requests
                {| Downloader.fs := ∅; Downloader.requests := 2;
                   Downloader.trace := [] |} <= n)%nat ->
             match Downloader.fetched (flaky_then_gone n) with
             | Downloader.FetchRejects _ => True
             | Downloader.FetchResolves response =>
                 Downloader.isRetriableStatus (Http.status response) = true
             end).
  { intros [|[|n]] Hn; cbn in Hn; [lia|lia|exact I]. }
  assert (H1 : 1 <= 3) by lia.
  assert (H2 : (Downloader.attempts_left 3 1 <= 3)%nat) by (vm_compute; lia).
  destruct (@retriable_failures_use_every_attempt spelled_digest flaky_then_gone 3
              work_item "/r/d3.pdf" 3 1 _ H0 H1 H2) as (r & Hres & _ & Hatt & _).
  exists r. split; assumption.
Defined.


Lemma forced_download_of_exhausted_document_witness :
  snd (@Downloader.download_item spelled_digest flaky_then_gone 3
         (download_work_item downloaded_at_last_attempt) "/r/d1.pdf"
         "2026-02-24T00:00:00.000Z" fresh_world) = fresh_world.
Proof.
  assert (H0 : List.NoDup
                 (map Document.docId (documents (store [downloaded_at_last_attempt] []))))
    by (repeat constructor; simpl; tauto).
  assert (H1 : In downloaded_at_last_attempt
                 (documents (store [downloaded_at_last_attempt] [])))
    by (left; reflexivity).
  assert (H2 : 3 <= Document.attemptsDownload downloaded_at_last_attempt) by (cbn; lia).
  destruct (@forced_download_of_exhausted_document spelled_digest flaky_then_gone 3
              "/r/d1.pdf" "2026-02-24T00:00:00.000Z" fresh_world
              (store [downloaded_at_last_attempt] []) downloaded_at_last_attempt
              H0 H1 H2) as (_ & _ & Hworld & _).
  exact Hworld.
Defined.

Lemma request_size_respects_the_budget_witness :
  Downloader.request_size 6 (Some 5) 3 <= 5 - 3.
Proof.
  destruct (request_size_respects_the_budget 6 (Some 5) 3 eq_refl) as (_ & Hleft & _).
  exact (Hleft 5 eq_refl).
Defined.

Lemma verifyDownloadedFiles_requeues_missing_files_witness :
  In discovered_early
    (documents
       (Downloader.verifyDownloadedFiles ∅ (fun _ => "2026-02-23T00:00:00.000Z")
          (store [discovered_early; downloaded_once] []))).
Proof.
  assert (H0 : Z.of_nat (length (documents (store [discovered_early; downloaded_once] [])))
               <= 5000) by (cbn; lia).
  assert (H1 : List.NoDup
                 (map Document.docId
                    (documents (store [discovered_early; downloaded_once] []))))
    by (repeat constructor; simpl; intuition discriminate).
  destruct (verifyDownloadedFiles_requeues_missing_files ∅
              (fun _ => "2026-02-23T00:00:00.000Z")
              (store [discovered_early; downloaded_once] []) H0) as (_ & _ & Hkept).
  apply (Hkept H1); [left; reflexivity|left; reflexivity].
Defined.


Lemma collectExtractResults_acknowledges_every_message_witness :
  fst (snd (@AsyncExtract.collectExtractResults _ memory_queue_ops 10
              (store [downloaded_once] [queued_job], empty_queue)))
  = store [downloaded_once] [queued_job].
Proof.
  destruct (@collectExtractResults_acknowledges_every_message _ memory_queue_ops 10
              (store [downloaded_once] [queued_job], empty_queue)) as (_ & Hnone).
  destruct (Hnone ltac:(intros queued [])) as (Hstore & _).
  exact Hstore.
Defined.
End Samples.
